(** * Purim Pictionary: the room engine of [server.js]

    A shallow embedding of the game server: the word bank, the room record,
    the turn scheduler with its two interval timers and its deferred
    callbacks, guess evaluation and scoring, and the socket handlers.

    Conventions.
    - Counters ([timeRemaining], [timePerTurn], [roundNumber], ...) are
      integers and are kept in [Z]; scores are sums of [Math.round] results
      and are kept in [Z] as well.
    - The scoring arithmetic is done by JavaScript on IEEE 754 binary64
      numbers; it is embedded with [SpecFloat] at precision 53 and maximal
      exponent 1024, so that every rounding of the source is reproduced.
    - Strings are sequences of ASCII characters.
    - [Math.random()] is an input of the step that consumes it.
    - Outbound messages are returned as a list, oldest first. *)

From Stdlib Require Import ZArith List String Ascii Bool Lia Arith.
From Stdlib Require Import SpecFloat.
Import ListNotations.

Set Implicit Arguments.

(* ================================================================== *)
(** ** JavaScript strings *)

Module JsString.

Definition chars (s : string) : list ascii := list_ascii_of_string s.
Definition of_chars (l : list ascii) : string := string_of_list_ascii l.

(** White space and line terminators of the ASCII range, as removed by
    [String.prototype.trim]: TAB, LF, VT, FF, CR and SPACE. *)
Definition is_space (c : ascii) : bool :=
  let n := nat_of_ascii c in
  ((9 <=? n) && (n <=? 13)) || (n =? 32).

Fixpoint drop_space (l : list ascii) : list ascii :=
  match l with
  | c :: l' => if is_space c then drop_space l' else l
  | [] => []
  end.

(** [s.trim()] *)
Definition trim (s : string) : string :=
  of_chars (rev (drop_space (rev (drop_space (chars s))))).

Definition lower (c : ascii) : ascii :=
  let n := nat_of_ascii c in
  if (65 <=? n) && (n <=? 90) then ascii_of_nat (n + 32) else c.

Definition upper (c : ascii) : ascii :=
  let n := nat_of_ascii c in
  if (97 <=? n) && (n <=? 122) then ascii_of_nat (n - 32) else c.

(** [s.toLowerCase()] and [s.toUpperCase()] *)
Definition toLowerCase (s : string) : string := of_chars (map lower (chars s)).
Definition toUpperCase (s : string) : string := of_chars (map upper (chars s)).

(** [s.includes(sub)]: [sub] occurs in [s] at some position. *)
Fixpoint includes (s sub : string) : bool :=
  if String.prefix sub s then true
  else match s with
       | EmptyString => false
       | String _ s' => includes s' sub
       end.

(** [s.replace(/ /g, '')] *)
Definition remove_spaces (s : string) : string :=
  of_chars (filter (fun c => negb (Ascii.eqb c " ")) (chars s)).

(** [parts.join(sep)] *)
Fixpoint join (sep : string) (parts : list string) : string :=
  match parts with
  | [] => EmptyString
  | [p] => p
  | p :: rest => (p ++ sep ++ join sep rest)%string
  end.

End JsString.

(* ================================================================== *)
(** ** JavaScript numbers in the scoring code: IEEE 754 binary64 *)

Module JsNumber.

Definition prec : Z := 53.
Definition emax : Z := 1024.

Definition number := spec_float.

(** An integer literal or an integer-valued variable read as a Number. *)
Definition of_Z (z : Z) : number := binary_normalize prec emax z 0 false.

Definition add : number -> number -> number := SFadd prec emax.
Definition sub : number -> number -> number := SFsub prec emax.
Definition mul : number -> number -> number := SFmul prec emax.
Definition div : number -> number -> number := SFdiv prec emax.

(** The literal [0.15]: the binary64 number nearest to 15/100, which a
    correctly rounded division of the two integers returns. *)
Definition lit_0_15 : number := div (of_Z 15) (of_Z 100).

(** The literals [0.5] and [0.25]. *)
Definition lit_0_5 : number := div (of_Z 1) (of_Z 2).
Definition lit_0_25 : number := div (of_Z 1) (of_Z 4).

Definition is_finite (x : number) : bool :=
  match x with
  | S754_zero _ | S754_finite _ _ _ => true
  | _ => false
  end.

(** [Math.max(a, b)]: NaN if either is NaN, and [+0] is larger than [-0]. *)
Definition Math_max (a b : number) : number :=
  match SFcompare a b with
  | None => S754_nan
  | Some Lt => b
  | Some Gt => a
  | Some Eq => match a with S754_zero true => b | _ => a end
  end.

(** [Math.round(x)]: the integer nearest to [x], a tie going up, which is
    [floor (x + 1/2)] computed exactly.  For [x = s * m * 2^e] with [e < 0]
    that is [(2*s*m + 2^-e) / 2^(1-e)].  On NaN and the infinities
    JavaScript returns its argument; the scores of this program never get
    there ([timePerTurn] is never 0), and the embedding returns 0. *)
Definition Math_round (x : number) : Z :=
  match x with
  | S754_finite s m e =>
      let n := cond_Zopp s (Zpos m) in
      if (0 <=? e)%Z then (n * 2 ^ e)%Z
      else ((2 * n + 2 ^ (- e)) / 2 ^ (1 - e))%Z
  | _ => 0%Z
  end.

(** [Math.floor(x)] *)
Definition Math_floor (x : number) : Z :=
  match x with
  | S754_finite s m e =>
      let n := cond_Zopp s (Zpos m) in
      if (0 <=? e)%Z then (n * 2 ^ e)%Z else (n / 2 ^ (- e))%Z
  | _ => 0%Z
  end.

End JsNumber.

(* ================================================================== *)
(** ** [Math.random()] *)

(** A draw of [Math.random()] lies in [0, 1).  It is represented by the
    rational [u_num / (u_num + u_gap + 1)], so that every value of the
    record is a draw. *)
Record unit_draw : Set := mkDraw { u_num : nat; u_gap : nat }.

Definition u_den (u : unit_draw) : nat := u_num u + u_gap u + 1.

(** [Math.floor(Math.random() * n)] *)
Definition floor_random_times (u : unit_draw) (n : nat) : nat :=
  (u_num u * n) / u_den u.

(* ================================================================== *)
(** ** Word list *)

Open Scope string_scope.

Definition WORD_LIST : list string :=
  [ "Queen"; "Sales Tax"; "Megillah"; "Throne"; "Haman"; "Desk"; "Coffee";
    "Laptop"; "Party"; "Delaware"; "Hamantaschen"; "Real Estate"; "Pension";
    "King"; "10 Sons of Haman"; "Calculator"; "Shekels"; "US Flag";
    "Foreign Income"; "Mordechai"; "Water Bottle"; "Transfer Pricing";
    "Achashverosh"; "Mouse"; "Deadline"; "Israeli Flag"; "Mask"; "Grogger";
    "Royal Decree"; "Bank Account"; "Crown"; "Florida"; "Beit Hamikdash";
    "Costumes"; "California"; "Tax Refund"; "Headset"; "Depreciation";
    "Pennsylvania"; "New York"; "Olim"; "Tax Treaty"; "Palace"; "Gallows";
    "Pencil"; "Keyboard"; "Horse"; "Perfume"; "Tzedaka"; "Esther"; "Wine" ].

(* ================================================================== *)
(** ** JavaScript [Set] and [Map] with string keys

    Both iterate in insertion order; they are kept as lists without
    repeated keys. *)

Module JsSet.
Definition t := list string.
Definition has (s : t) (x : string) : bool := existsb (String.eqb x) s.
Definition add (s : t) (x : string) : t := if has s x then s else (s ++ [x])%list.
Definition size (s : t) : nat := List.length s.
Definition clear (s : t) : t := [].
End JsSet.

Module JsMap.
Section WithValue.
Variable V : Type.
Definition t := list (string * V).

Fixpoint get (m : t) (k : string) : option V :=
  match m with
  | [] => None
  | (k', v) :: m' => if String.eqb k k' then Some v else get m' k
  end.

(** [m.set(k, v)]: an existing key keeps its place. *)
Fixpoint set (m : t) (k : string) (v : V) : t :=
  match m with
  | [] => [(k, v)]
  | (k', v') :: m' =>
      if String.eqb k k' then (k, v) :: m' else (k', v') :: set m' k v
  end.

Definition delete (m : t) (k : string) : t :=
  filter (fun kv => negb (String.eqb k (fst kv))) m.

Definition keys (m : t) : list string := map fst m.
Definition size (m : t) : nat := List.length m.
End WithValue.
End JsMap.

(* ================================================================== *)
(** ** Game state *)

(** [room.state]; the source names five values and assigns three of them. *)
Inductive room_state : Set :=
  | lobby | playing | between_rounds | finished | championship.

Definition room_state_eqb (a b : room_state) : bool :=
  match a, b with
  | lobby, lobby | playing, playing | between_rounds, between_rounds
  | finished, finished | championship, championship => true
  | _, _ => false
  end.

Module Player.
Record t : Set := mk { name : string; score : Z }.
End Player.

Module Spectator.
Record t : Set := mk { name : string }.
End Spectator.

(** A drawing stroke is relayed as it comes. *)
Definition stroke := string.

(** What the hint interval's callback closes over: the drawer of the turn
    and the thresholds computed when the turn started. *)
Record hint_closure : Set :=
  mkHintClosure { hc_drawerId : string; hc_hintTimes : list Z }.

(** A callback handed to [setTimeout] and not run yet, with its delay in
    milliseconds.  [first_turn] is the one of [start_game], which calls
    [startTurn] as it is; [next_turn] is the one of [endTurn], which looks
    at the room's state first.  The callbacks close over the room, so the
    embedding keeps them with it. *)
Inductive callback : Set := first_turn | next_turn.
Definition deferred : Set := (callback * Z)%type.

Record Room : Type := mkRoom {
  code : string;
  hostId : string;
  players : JsMap.t Player.t;
  state : room_state;
  currentDrawerIndex : Z;
  currentWord : string;
  roundNumber : Z;
  totalRounds : Z;
  timePerTurn : Z;
  timer : bool;                       (* a countdown interval is running *)
  timeRemaining : Z;
  usedWords : JsSet.t;
  drawingData : list stroke;
  correctGuessers : JsSet.t;
  turnActive : bool;
  playerOrder : list string;
  isChampionship : bool;
  spectators : JsMap.t Spectator.t;
  hintsRevealed : Z;
  hintInterval : option hint_closure; (* a hint interval is running *)
  pending : list deferred
}.

Definition set_hostId (v : string) (r : Room) : Room :=
  {| code := code r; hostId := v; players := players r; state := state r;
     currentDrawerIndex := currentDrawerIndex r;
     currentWord := currentWord r; roundNumber := roundNumber r;
     totalRounds := totalRounds r; timePerTurn := timePerTurn r;
     timer := timer r; timeRemaining := timeRemaining r;
     usedWords := usedWords r; drawingData := drawingData r;
     correctGuessers := correctGuessers r; turnActive := turnActive r;
     playerOrder := playerOrder r; isChampionship := isChampionship r;
     spectators := spectators r; hintsRevealed := hintsRevealed r;
     hintInterval := hintInterval r; pending := pending r |}.

Definition set_players (v : JsMap.t Player.t) (r : Room) : Room :=
  {| code := code r; hostId := hostId r; players := v; state := state r;
     currentDrawerIndex := currentDrawerIndex r;
     currentWord := currentWord r; roundNumber := roundNumber r;
     totalRounds := totalRounds r; timePerTurn := timePerTurn r;
     timer := timer r; timeRemaining := timeRemaining r;
     usedWords := usedWords r; drawingData := drawingData r;
     correctGuessers := correctGuessers r; turnActive := turnActive r;
     playerOrder := playerOrder r; isChampionship := isChampionship r;
     spectators := spectators r; hintsRevealed := hintsRevealed r;
     hintInterval := hintInterval r; pending := pending r |}.

Definition set_state (v : room_state) (r : Room) : Room :=
  {| code := code r; hostId := hostId r; players := players r; state := v;
     currentDrawerIndex := currentDrawerIndex r;
     currentWord := currentWord r; roundNumber := roundNumber r;
     totalRounds := totalRounds r; timePerTurn := timePerTurn r;
     timer := timer r; timeRemaining := timeRemaining r;
     usedWords := usedWords r; drawingData := drawingData r;
     correctGuessers := correctGuessers r; turnActive := turnActive r;
     playerOrder := playerOrder r; isChampionship := isChampionship r;
     spectators := spectators r; hintsRevealed := hintsRevealed r;
     hintInterval := hintInterval r; pending := pending r |}.

Definition set_currentDrawerIndex (v : Z) (r : Room) : Room :=
  {| code := code r; hostId := hostId r; players := players r;
     state := state r; currentDrawerIndex := v; currentWord := currentWord r;
     roundNumber := roundNumber r; totalRounds := totalRounds r;
     timePerTurn := timePerTurn r; timer := timer r;
     timeRemaining := timeRemaining r; usedWords := usedWords r;
     drawingData := drawingData r; correctGuessers := correctGuessers r;
     turnActive := turnActive r; playerOrder := playerOrder r;
     isChampionship := isChampionship r; spectators := spectators r;
     hintsRevealed := hintsRevealed r; hintInterval := hintInterval r;
     pending := pending r |}.

Definition set_currentWord (v : string) (r : Room) : Room :=
  {| code := code r; hostId := hostId r; players := players r;
     state := state r; currentDrawerIndex := currentDrawerIndex r;
     currentWord := v; roundNumber := roundNumber r;
     totalRounds := totalRounds r; timePerTurn := timePerTurn r;
     timer := timer r; timeRemaining := timeRemaining r;
     usedWords := usedWords r; drawingData := drawingData r;
     correctGuessers := correctGuessers r; turnActive := turnActive r;
     playerOrder := playerOrder r; isChampionship := isChampionship r;
     spectators := spectators r; hintsRevealed := hintsRevealed r;
     hintInterval := hintInterval r; pending := pending r |}.

Definition set_roundNumber (v : Z) (r : Room) : Room :=
  {| code := code r; hostId := hostId r; players := players r;
     state := state r; currentDrawerIndex := currentDrawerIndex r;
     currentWord := currentWord r; roundNumber := v;
     totalRounds := totalRounds r; timePerTurn := timePerTurn r;
     timer := timer r; timeRemaining := timeRemaining r;
     usedWords := usedWords r; drawingData := drawingData r;
     correctGuessers := correctGuessers r; turnActive := turnActive r;
     playerOrder := playerOrder r; isChampionship := isChampionship r;
     spectators := spectators r; hintsRevealed := hintsRevealed r;
     hintInterval := hintInterval r; pending := pending r |}.

Definition set_totalRounds (v : Z) (r : Room) : Room :=
  {| code := code r; hostId := hostId r; players := players r;
     state := state r; currentDrawerIndex := currentDrawerIndex r;
     currentWord := currentWord r; roundNumber := roundNumber r;
     totalRounds := v; timePerTurn := timePerTurn r; timer := timer r;
     timeRemaining := timeRemaining r; usedWords := usedWords r;
     drawingData := drawingData r; correctGuessers := correctGuessers r;
     turnActive := turnActive r; playerOrder := playerOrder r;
     isChampionship := isChampionship r; spectators := spectators r;
     hintsRevealed := hintsRevealed r; hintInterval := hintInterval r;
     pending := pending r |}.

Definition set_timePerTurn (v : Z) (r : Room) : Room :=
  {| code := code r; hostId := hostId r; players := players r;
     state := state r; currentDrawerIndex := currentDrawerIndex r;
     currentWord := currentWord r; roundNumber := roundNumber r;
     totalRounds := totalRounds r; timePerTurn := v; timer := timer r;
     timeRemaining := timeRemaining r; usedWords := usedWords r;
     drawingData := drawingData r; correctGuessers := correctGuessers r;
     turnActive := turnActive r; playerOrder := playerOrder r;
     isChampionship := isChampionship r; spectators := spectators r;
     hintsRevealed := hintsRevealed r; hintInterval := hintInterval r;
     pending := pending r |}.

Definition set_timer (v : bool) (r : Room) : Room :=
  {| code := code r; hostId := hostId r; players := players r;
     state := state r; currentDrawerIndex := currentDrawerIndex r;
     currentWord := currentWord r; roundNumber := roundNumber r;
     totalRounds := totalRounds r; timePerTurn := timePerTurn r; timer := v;
     timeRemaining := timeRemaining r; usedWords := usedWords r;
     drawingData := drawingData r; correctGuessers := correctGuessers r;
     turnActive := turnActive r; playerOrder := playerOrder r;
     isChampionship := isChampionship r; spectators := spectators r;
     hintsRevealed := hintsRevealed r; hintInterval := hintInterval r;
     pending := pending r |}.

Definition set_timeRemaining (v : Z) (r : Room) : Room :=
  {| code := code r; hostId := hostId r; players := players r;
     state := state r; currentDrawerIndex := currentDrawerIndex r;
     currentWord := currentWord r; roundNumber := roundNumber r;
     totalRounds := totalRounds r; timePerTurn := timePerTurn r;
     timer := timer r; timeRemaining := v; usedWords := usedWords r;
     drawingData := drawingData r; correctGuessers := correctGuessers r;
     turnActive := turnActive r; playerOrder := playerOrder r;
     isChampionship := isChampionship r; spectators := spectators r;
     hintsRevealed := hintsRevealed r; hintInterval := hintInterval r;
     pending := pending r |}.

Definition set_usedWords (v : JsSet.t) (r : Room) : Room :=
  {| code := code r; hostId := hostId r; players := players r;
     state := state r; currentDrawerIndex := currentDrawerIndex r;
     currentWord := currentWord r; roundNumber := roundNumber r;
     totalRounds := totalRounds r; timePerTurn := timePerTurn r;
     timer := timer r; timeRemaining := timeRemaining r; usedWords := v;
     drawingData := drawingData r; correctGuessers := correctGuessers r;
     turnActive := turnActive r; playerOrder := playerOrder r;
     isChampionship := isChampionship r; spectators := spectators r;
     hintsRevealed := hintsRevealed r; hintInterval := hintInterval r;
     pending := pending r |}.

Definition set_drawingData (v : list stroke) (r : Room) : Room :=
  {| code := code r; hostId := hostId r; players := players r;
     state := state r; currentDrawerIndex := currentDrawerIndex r;
     currentWord := currentWord r; roundNumber := roundNumber r;
     totalRounds := totalRounds r; timePerTurn := timePerTurn r;
     timer := timer r; timeRemaining := timeRemaining r;
     usedWords := usedWords r; drawingData := v;
     correctGuessers := correctGuessers r; turnActive := turnActive r;
     playerOrder := playerOrder r; isChampionship := isChampionship r;
     spectators := spectators r; hintsRevealed := hintsRevealed r;
     hintInterval := hintInterval r; pending := pending r |}.

Definition set_correctGuessers (v : JsSet.t) (r : Room) : Room :=
  {| code := code r; hostId := hostId r; players := players r;
     state := state r; currentDrawerIndex := currentDrawerIndex r;
     currentWord := currentWord r; roundNumber := roundNumber r;
     totalRounds := totalRounds r; timePerTurn := timePerTurn r;
     timer := timer r; timeRemaining := timeRemaining r;
     usedWords := usedWords r; drawingData := drawingData r;
     correctGuessers := v; turnActive := turnActive r;
     playerOrder := playerOrder r; isChampionship := isChampionship r;
     spectators := spectators r; hintsRevealed := hintsRevealed r;
     hintInterval := hintInterval r; pending := pending r |}.

Definition set_turnActive (v : bool) (r : Room) : Room :=
  {| code := code r; hostId := hostId r; players := players r;
     state := state r; currentDrawerIndex := currentDrawerIndex r;
     currentWord := currentWord r; roundNumber := roundNumber r;
     totalRounds := totalRounds r; timePerTurn := timePerTurn r;
     timer := timer r; timeRemaining := timeRemaining r;
     usedWords := usedWords r; drawingData := drawingData r;
     correctGuessers := correctGuessers r; turnActive := v;
     playerOrder := playerOrder r; isChampionship := isChampionship r;
     spectators := spectators r; hintsRevealed := hintsRevealed r;
     hintInterval := hintInterval r; pending := pending r |}.

Definition set_playerOrder (v : list string) (r : Room) : Room :=
  {| code := code r; hostId := hostId r; players := players r;
     state := state r; currentDrawerIndex := currentDrawerIndex r;
     currentWord := currentWord r; roundNumber := roundNumber r;
     totalRounds := totalRounds r; timePerTurn := timePerTurn r;
     timer := timer r; timeRemaining := timeRemaining r;
     usedWords := usedWords r; drawingData := drawingData r;
     correctGuessers := correctGuessers r; turnActive := turnActive r;
     playerOrder := v; isChampionship := isChampionship r;
     spectators := spectators r; hintsRevealed := hintsRevealed r;
     hintInterval := hintInterval r; pending := pending r |}.

Definition set_isChampionship (v : bool) (r : Room) : Room :=
  {| code := code r; hostId := hostId r; players := players r;
     state := state r; currentDrawerIndex := currentDrawerIndex r;
     currentWord := currentWord r; roundNumber := roundNumber r;
     totalRounds := totalRounds r; timePerTurn := timePerTurn r;
     timer := timer r; timeRemaining := timeRemaining r;
     usedWords := usedWords r; drawingData := drawingData r;
     correctGuessers := correctGuessers r; turnActive := turnActive r;
     playerOrder := playerOrder r; isChampionship := v;
     spectators := spectators r; hintsRevealed := hintsRevealed r;
     hintInterval := hintInterval r; pending := pending r |}.

Definition set_spectators (v : JsMap.t Spectator.t) (r : Room) : Room :=
  {| code := code r; hostId := hostId r; players := players r;
     state := state r; currentDrawerIndex := currentDrawerIndex r;
     currentWord := currentWord r; roundNumber := roundNumber r;
     totalRounds := totalRounds r; timePerTurn := timePerTurn r;
     timer := timer r; timeRemaining := timeRemaining r;
     usedWords := usedWords r; drawingData := drawingData r;
     correctGuessers := correctGuessers r; turnActive := turnActive r;
     playerOrder := playerOrder r; isChampionship := isChampionship r;
     spectators := v; hintsRevealed := hintsRevealed r;
     hintInterval := hintInterval r; pending := pending r |}.

Definition set_hintsRevealed (v : Z) (r : Room) : Room :=
  {| code := code r; hostId := hostId r; players := players r;
     state := state r; currentDrawerIndex := currentDrawerIndex r;
     currentWord := currentWord r; roundNumber := roundNumber r;
     totalRounds := totalRounds r; timePerTurn := timePerTurn r;
     timer := timer r; timeRemaining := timeRemaining r;
     usedWords := usedWords r; drawingData := drawingData r;
     correctGuessers := correctGuessers r; turnActive := turnActive r;
     playerOrder := playerOrder r; isChampionship := isChampionship r;
     spectators := spectators r; hintsRevealed := v;
     hintInterval := hintInterval r; pending := pending r |}.

Definition set_hintInterval (v : option hint_closure) (r : Room) : Room :=
  {| code := code r; hostId := hostId r; players := players r;
     state := state r; currentDrawerIndex := currentDrawerIndex r;
     currentWord := currentWord r; roundNumber := roundNumber r;
     totalRounds := totalRounds r; timePerTurn := timePerTurn r;
     timer := timer r; timeRemaining := timeRemaining r;
     usedWords := usedWords r; drawingData := drawingData r;
     correctGuessers := correctGuessers r; turnActive := turnActive r;
     playerOrder := playerOrder r; isChampionship := isChampionship r;
     spectators := spectators r; hintsRevealed := hintsRevealed r;
     hintInterval := v; pending := pending r |}.

Definition set_pending (v : list deferred) (r : Room) : Room :=
  {| code := code r; hostId := hostId r; players := players r;
     state := state r; currentDrawerIndex := currentDrawerIndex r;
     currentWord := currentWord r; roundNumber := roundNumber r;
     totalRounds := totalRounds r; timePerTurn := timePerTurn r;
     timer := timer r; timeRemaining := timeRemaining r;
     usedWords := usedWords r; drawingData := drawingData r;
     correctGuessers := correctGuessers r; turnActive := turnActive r;
     playerOrder := playerOrder r; isChampionship := isChampionship r;
     spectators := spectators r; hintsRevealed := hintsRevealed r;
     hintInterval := hintInterval r; pending := v |}.


(* ================================================================== *)
(** ** Outbound messages *)

(** An element of the standings that [getPlayerList] builds. *)
Module Entry.
Record t : Set :=
  mk { id : string; name : string; score : Z; isHost : bool; isDrawing : bool }.
End Entry.

Inductive target : Set :=
  | to_room (c : string)            (* io.to(code) *)
  | to_spectators (c : string)      (* io.to(code + '_spectators') *)
  | to_socket (id : string)         (* io.to(id), socket.emit *)
  | to_others (id c : string).      (* socket.to(code) *)

Inductive message : Set :=
  | room_created (c : string) (standings : list Entry.t) (champ : bool)
  | room_joined (c : string) (standings : list Entry.t) (champ : bool)
  | joined_as_spectator (c : string) (standings : list Entry.t)
      (st : room_state) (champ : bool)
  | player_joined (nm : string) (standings : list Entry.t)
  | spectator_joined (nm : string) (watchers : list (string * string))
  | error_message (text : string)
  | game_started (standings : list Entry.t) (rounds : Z)
  | turn_start (drawer_id drawer_name hint : string)
      (round rounds remaining : Z) (standings : list Entry.t)
  | your_word (word : string)
  | timer_update (remaining : Z)
  | hint_update (hint : string)
  | correct_guess (playerId playerName : string) (points drawerPoints : Z)
      (standings : list Entry.t)
  | you_guessed_correctly (word : string)
  | chat_message (playerId playerName text : string) (isClose : bool)
  | turn_end (word : string) (wasGuessed : bool) (standings : list Entry.t)
      (round rounds : Z)
  | game_over (standings : list Entry.t) (winner : option Entry.t) (champ : bool)
  | player_left (nm : string) (standings : list Entry.t)
  | spectator_left (watchers : list (string * string))
  | new_host (host : string) (standings : list Entry.t)
  | draw_relay (data : stroke)
  | clear_canvas_relay.

Definition emitted : Set := (target * message)%type.

(* ================================================================== *)
(** ** Helpers of the room *)

(** [a[i]]: undefined ([None]) below 0 and past the end. *)
Definition array_get (a : list string) (i : Z) : option string :=
  if (i <? 0)%Z then None else nth_error a (Z.to_nat i).

(** [x === id] for an [x] that may be undefined. *)
Definition is_id (x : option string) (id : string) : bool :=
  match x with
  | Some y => String.eqb y id
  | None => false
  end.

(** [room.playerOrder[room.currentDrawerIndex]] *)
Definition currentDrawer (room : Room) : option string :=
  array_get (playerOrder room) (currentDrawerIndex room).

(** [room.players.get(x)] for an [x] that may be undefined. *)
Definition players_get (room : Room) (x : option string) : option Player.t :=
  match x with
  | Some id => JsMap.get (players room) id
  | None => None
  end.

(** [x || d] on an optional integer: undefined and 0 are falsy. *)
Definition or_default (x : option Z) (d : Z) : Z :=
  match x with
  | Some v => if (v =? 0)%Z then d else v
  | None => d
  end.

Definition truthy (x : option Z) : bool :=
  match x with
  | Some v => negb (v =? 0)%Z
  | None => false
  end.

Fixpoint remove_nth {A : Type} (i : nat) (l : list A) : list A :=
  match l, i with
  | [], _ => []
  | _ :: l', 0 => l'
  | x :: l', S i' => x :: remove_nth i' l'
  end.

(** The code alphabet has no I, O, 0 or 1. *)
Definition code_chars : string := "ABCDEFGHJKLMNPQRSTUVWXYZ23456789".

Definition generateRoomCode (draws : nat -> unit_draw) : string :=
  let pick i :=
    match String.get (floor_random_times (draws i) (String.length code_chars))
                     code_chars with
    | Some c => String c ""
    | None => ""
    end in
  pick 0 ++ pick 1 ++ pick 2 ++ pick 3.

Module Settings.
Record t : Set :=
  mk { totalRounds : option Z; timePerTurn : option Z;
       isChampionship : option bool }.
Definition empty : t := mk None None None.
End Settings.

(** [createRoom]; the registration in [rooms] is done by the caller with
    the room returned here. *)
Definition createRoom (c : string) (host hostName : string)
    (settings : Settings.t) : Room :=
  {| code := c;
     hostId := host;
     players := [];
     state := lobby;
     currentDrawerIndex := -1;
     currentWord := "";
     roundNumber := 0;
     totalRounds := or_default (Settings.totalRounds settings) 10;
     timePerTurn := or_default (Settings.timePerTurn settings) 40;
     timer := false;
     timeRemaining := 0;
     usedWords := [];
     drawingData := [];
     correctGuessers := [];
     turnActive := false;
     playerOrder := [];
     isChampionship :=
       match Settings.isChampionship settings with Some b => b | None => false end;
     spectators := [];
     hintsRevealed := 0;
     hintInterval := None;
     pending := [] |}.

(** [WORD_LIST.filter(w => !room.usedWords.has(w))] *)
Definition available (room : Room) : list string :=
  filter (fun w => negb (JsSet.has (usedWords room) w)) WORD_LIST.

(** [getRandomWord].  The index is below the length of the list it reads,
    so the default of [nth] is never returned. *)
Definition getRandomWord (u : unit_draw) (room : Room) : string * Room :=
  if (List.length (available room) =? 0)%nat then
    let cleared := set_usedWords (JsSet.clear (usedWords room)) room in
    (nth (floor_random_times u (List.length WORD_LIST)) WORD_LIST "", cleared)
  else
    let word :=
      nth (floor_random_times u (List.length (available room))) (available room) "" in
    (word, set_usedWords (JsSet.add (usedWords room) word) room).

Fixpoint insert_by_score (x : Entry.t) (l : list Entry.t) : list Entry.t :=
  match l with
  | [] => [x]
  | y :: l' =>
      if (Entry.score x <? Entry.score y)%Z then y :: insert_by_score x l'
      else x :: l
  end.

(** [list.sort((a, b) => b.score - a.score)]: descending, and stable. *)
Definition sort_by_score (l : list Entry.t) : list Entry.t :=
  fold_right insert_by_score [] l.

Definition getPlayerList (room : Room) : list Entry.t :=
  sort_by_score
    (map (fun kv =>
            Entry.mk (fst kv) (Player.name (snd kv)) (Player.score (snd kv))
                     (String.eqb (fst kv) (hostId room))
                     (is_id (currentDrawer room) (fst kv)))
         (players room)).

Definition getSpectatorList (room : Room) : list (string * string) :=
  map (fun kv => (fst kv, Spectator.name (snd kv))) (spectators room).

Fixpoint mapi_from {A B : Type} (i : Z) (f : A -> Z -> B) (l : list A) : list B :=
  match l with
  | [] => []
  | x :: l' => f x i :: mapi_from (i + 1) f l'
  end.

Definition generateHint (word : string) (revealCount : Z) : string :=
  let hint :=
    mapi_from 0
      (fun ch i =>
         if Ascii.eqb ch " " then "  "
         else if (i <? revealCount)%Z then String ch ""
         else "_")
      (JsString.chars word) in
  JsString.join " " hint.

(* ================================================================== *)
(** ** Turns *)

Definition both (c : string) (m : message) : list emitted :=
  [(to_room c, m); (to_spectators c, m)].

(** The number of players other than the current drawer:
    [Array.from(room.players.keys()).filter(id => id !== drawerId).length]. *)
Definition nonDrawerCount (room : Room) : nat :=
  List.length
    (filter (fun id => negb (is_id (currentDrawer room) id))
            (JsMap.keys (players room))).

Definition endTurn (room : Room) (wasGuessed : bool) : Room * list emitted :=
  let room := set_turnActive false room in
  let room := set_timer false room in
  let room := set_hintInterval None room in
  let out :=
    both (code room)
      (turn_end (currentWord room) wasGuessed (getPlayerList room)
                (roundNumber room) (totalRounds room)) in
  let allGuessed :=
    (nonDrawerCount room <=? JsSet.size (correctGuessers room))%nat in
  let delay := if allGuessed || negb wasGuessed then 3000%Z else 5000%Z in
  (set_pending (pending room ++ [(next_turn, delay)])%list room, out).

Definition endGame (room : Room) : Room * list emitted :=
  let room := set_state finished room in
  let room := set_timer false room in
  let room := set_hintInterval None room in
  let standings := getPlayerList room in
  let winner := match standings with [] => None | w :: _ => Some w end in
  (room, both (code room) (game_over standings winner (isChampionship room))).

(** The thresholds of the hint interval.  [Math.floor(timePerTurn * 0.5)]
    and [Math.floor(timePerTurn * 0.25)] multiply an integer by a power of
    two, which is exact, so they are the floored quotients by 2 and by 4
    (see [hint_thresholds_exact]). *)
Definition hintTimes_of (word : string) (tpt : Z) : list Z :=
  let wordLen := String.length (JsString.remove_spaces word) in
  ((if (3 <? wordLen)%nat then [(tpt / 2)%Z] else []) ++
   (if (5 <? wordLen)%nat then [(tpt / 4)%Z] else []))%list.

(** [startTurn].  The source calls itself when the drawer it lands on has
    left; every call increments [roundNumber], and the call that passes
    [totalRounds] ends the game.  [n] counts the rounds that are left. *)
Fixpoint startTurn_from (n : nat) (u : unit_draw) (room : Room)
  : Room * list emitted :=
  let room := set_currentDrawerIndex (currentDrawerIndex room + 1) room in
  let room :=
    if (Z.of_nat (List.length (playerOrder room)) <=? currentDrawerIndex room)%Z
    then set_currentDrawerIndex 0 room else room in
  let room := set_roundNumber (roundNumber room + 1) room in
  if (totalRounds room <? roundNumber room)%Z then endGame room
  else
    let drawerId := currentDrawer room in
    match drawerId, players_get room drawerId with
    | Some drawerId, Some drawer =>
        let (word, room) := getRandomWord u room in
        let room := set_currentWord word room in
        let room := set_drawingData [] room in
        let room := set_correctGuessers (JsSet.clear (correctGuessers room)) room in
        let room := set_turnActive true room in
        let room := set_timeRemaining (timePerTurn room) room in
        let room := set_hintsRevealed 0 room in
        let room := set_state playing room in
        let hint := generateHint (currentWord room) 0 in
        let start :=
          turn_start drawerId (Player.name drawer) hint (roundNumber room)
                     (totalRounds room) (timeRemaining room)
                     (getPlayerList room) in
        let out :=
          [ (to_room (code room), start);
            (to_socket drawerId, your_word (currentWord room));
            (to_spectators (code room), start) ] in
        let room := set_timer true room in
        let room :=
          set_hintInterval
            (Some (mkHintClosure drawerId
                     (hintTimes_of (currentWord room) (timePerTurn room))))
            room in
        (room, out)
    | _, _ =>
        if (roundNumber room <=? totalRounds room)%Z then
          match n with
          | S n' => startTurn_from n' u room
          | O => (room, [])
          end
        else (room, [])
    end.

Definition rounds_left (room : Room) : nat :=
  Z.to_nat (totalRounds room - roundNumber room).

Definition startTurn (u : unit_draw) (room : Room) : Room * list emitted :=
  startTurn_from (rounds_left room) u room.

(** The countdown interval's callback; it does not run once the interval is
    cleared. *)
Definition timer_tick (room : Room) : Room * list emitted :=
  if timer room then
    let room := set_timeRemaining (timeRemaining room - 1) room in
    let out := both (code room) (timer_update (timeRemaining room)) in
    if (timeRemaining room <=? 0)%Z then
      let (room, out') := endTurn room false in (room, (out ++ out')%list)
    else (room, out)
  else (room, []).

(** The hint interval's callback. *)
Definition hint_tick (room : Room) : Room * list emitted :=
  match hintInterval room with
  | None => (room, [])
  | Some hc =>
      if negb (turnActive room) then (room, [])
      else
        let elapsed := (timePerTurn room - timeRemaining room)%Z in
        let shouldReveal :=
          Z.of_nat
            (List.length
               (filter (fun t => (timePerTurn room - t <=? elapsed)%Z)
                       (hc_hintTimes hc))) in
        if (hintsRevealed room <? shouldReveal)%Z then
          let room := set_hintsRevealed shouldReveal room in
          let hint := generateHint (currentWord room) (hintsRevealed room) in
          let guessers :=
            filter
              (fun id => negb (String.eqb id (hc_drawerId hc))
                         && negb (JsSet.has (correctGuessers room) id))
              (JsMap.keys (players room)) in
          (room,
           (map (fun id => (to_socket id, hint_update hint)) guessers ++
            [(to_spectators (code room), hint_update hint)])%list)
        else (room, [])
  end.

(** A deferred callback that fires. *)
Definition run_callback (cb : callback) (u : unit_draw) (room : Room)
  : Room * list emitted :=
  match cb with
  | first_turn => startTurn u room
  | next_turn =>
      if negb (room_state_eqb (state room) finished)
         && negb (room_state_eqb (state room) lobby)
      then startTurn u room
      else (room, [])
  end.

Definition fire (i : nat) (u : unit_draw) (room : Room) : Room * list emitted :=
  match nth_error (pending room) i with
  | Some (cb, _) => run_callback cb u (set_pending (remove_nth i (pending room)) room)
  | None => (room, [])
  end.

(* ================================================================== *)
(** ** Guesses and scores *)

Import JsNumber.

(** [room.timeRemaining / room.timePerTurn] *)
Definition timeRatio_of (remaining tpt : Z) : number :=
  div (of_Z remaining) (of_Z tpt).

(** [Math.max(0, 1 - (guessOrder - 1) * 0.15)] *)
Definition orderBonus (guessOrder : Z) : number :=
  Math_max (of_Z 0)
           (sub (of_Z 1) (mul (sub (of_Z guessOrder) (of_Z 1)) lit_0_15)).

(** [Math.round((200 + 300 * timeRatio) * orderBonus)] *)
Definition guesserPoints (timeRatio : number) (guessOrder : Z) : Z :=
  Math_round (mul (add (of_Z 200) (mul (of_Z 300) timeRatio))
                  (orderBonus guessOrder)).

(** [Math.round(50 + 100 * timeRatio)] *)
Definition drawerPoints (timeRatio : number) : Z :=
  Math_round (add (of_Z 50) (mul (of_Z 100) timeRatio)).

(** [p.score += points] on the player stored under [id]. *)
Definition add_score (id : string) (points : Z) (room : Room) : Room :=
  match JsMap.get (players room) id with
  | Some p =>
      set_players
        (JsMap.set (players room) id
                   (Player.mk (Player.name p) (Player.score p + points)))
        room
  | None => room
  end.

Definition handleGuess (room : Room) (playerId guess : string)
  : Room * list emitted :=
  if negb (turnActive room) then (room, [])
  else
    let drawerId := currentDrawer room in
    if is_id drawerId playerId then (room, [])
    else if JsSet.has (correctGuessers room) playerId then (room, [])
    else
      match JsMap.get (players room) playerId with
      | None => (room, [])
      | Some player =>
          let normalizedGuess := JsString.toLowerCase (JsString.trim guess) in
          let normalizedWord :=
            JsString.toLowerCase (JsString.trim (currentWord room)) in
          if String.eqb normalizedGuess normalizedWord then
            let room :=
              set_correctGuessers
                (JsSet.add (correctGuessers room) playerId) room in
            let timeRatio :=
              timeRatio_of (timeRemaining room) (timePerTurn room) in
            let guessOrder := Z.of_nat (JsSet.size (correctGuessers room)) in
            let points := guesserPoints timeRatio guessOrder in
            let drawerPts := drawerPoints timeRatio in
            let room := add_score playerId points room in
            let room :=
              match drawerId with
              | Some d => add_score d drawerPts room
              | None => room
              end in
            let out :=
              (both (code room)
                    (correct_guess playerId (Player.name player) points
                                   drawerPts (getPlayerList room)) ++
               [(to_socket playerId, you_guessed_correctly (currentWord room))])%list in
            if (nonDrawerCount room <=? JsSet.size (correctGuessers room))%nat
            then let (room, out') := endTurn room true in
                 (room, (out ++ out')%list)
            else (room, out)
          else
            let isClose :=
              (JsString.includes normalizedWord normalizedGuess
               && (3 <=? String.length normalizedGuess)%nat)
              || JsString.includes normalizedGuess normalizedWord in
            (room,
             both (code room)
                  (chat_message playerId (Player.name player) guess
                     (isClose && negb (String.eqb normalizedGuess normalizedWord))))
      end.

(* ================================================================== *)
(** ** The server: room registry, connections and socket handlers *)

(** The two variables each connection's handlers close over. *)
Record conn : Set := mkConn { currentRoom : option string; isSpectator : bool }.

(** [rooms] is the process-wide registry.  The room objects are mutated in
    place by the source; here a handler writes the room back under its
    code. *)
Record Server : Type := mkServer {
  rooms : JsMap.t Room;
  sockets : JsMap.t conn
}.

Definition empty_server : Server := mkServer [] [].

Definition put_room (room : Room) (s : Server) : Server :=
  mkServer (JsMap.set (rooms s) (code room) room) (sockets s).

Definition put_conn (sid : string) (c : conn) (s : Server) : Server :=
  mkServer (rooms s) (JsMap.set (sockets s) sid c).

(** The room a connection's handler works on: [rooms.get(currentRoom)]
    after the [if (!currentRoom) return]. *)
Definition room_of (s : Server) (sid : string) : option Room :=
  match JsMap.get (sockets s) sid with
  | Some c =>
      match currentRoom c with
      | Some cd => JsMap.get (rooms s) cd
      | None => None
      end
  | None => None
  end.

(** Runs a room operation on the room stored under a code. *)
Definition in_room (c : string) (f : Room -> Room * list emitted) (s : Server)
  : Server * list emitted :=
  match JsMap.get (rooms s) c with
  | Some room => let (room, out) := f room in (put_room room s, out)
  | None => (s, [])
  end.

Definition on_connection (sid : string) (s : Server) : Server * list emitted :=
  (put_conn sid (mkConn None false) s, []).

Definition on_create_room (sid playerName : string)
    (arg_totalRounds arg_timePerTurn : option Z)
    (arg_isChampionship : option bool)
    (draws : nat -> unit_draw) (s : Server) : Server * list emitted :=
  match JsMap.get (sockets s) sid with
  | None => (s, [])
  | Some c =>
      let room :=
        createRoom (generateRoomCode draws) sid playerName
          (Settings.mk (Some (or_default arg_totalRounds 10))
                       (Some (or_default arg_timePerTurn 40))
                       (Some (match arg_isChampionship with
                              | Some b => b
                              | None => false
                              end))) in
      let room :=
        set_players (JsMap.set (players room) sid (Player.mk playerName 0)) room in
      let s := put_room room s in
      let s := put_conn sid (mkConn (Some (code room)) (isSpectator c)) s in
      (s, [(to_socket sid,
            room_created (code room) (getPlayerList room) (isChampionship room))])
  end.

Definition on_join_room (sid roomCode playerName : string) (asSpectator : bool)
    (s : Server) : Server * list emitted :=
  match JsMap.get (sockets s) sid with
  | None => (s, [])
  | Some c =>
      let cd := JsString.toUpperCase roomCode in
      match JsMap.get (rooms s) cd with
      | None =>
          (s, [(to_socket sid,
                error_message "Room not found! Check the code and try again.")])
      | Some room =>
          if asSpectator then
            let room :=
              set_spectators
                (JsMap.set (spectators room) sid (Spectator.mk playerName)) room in
            let s := mkServer (JsMap.set (rooms s) cd room) (sockets s) in
            let s := put_conn sid (mkConn (Some cd) true) s in
            (s, [(to_socket sid,
                  joined_as_spectator cd (getPlayerList room) (state room)
                                      (isChampionship room));
                 (to_room cd,
                  spectator_joined playerName (getSpectatorList room))])
          else if negb (room_state_eqb (state room) lobby) then
            (s, [(to_socket sid,
                  error_message
                    "Game already in progress! You can join as a spectator.")])
          else if (10 <=? JsMap.size (players room))%nat then
            (s, [(to_socket sid, error_message "Room is full! (max 10 players)")])
          else
            let room :=
              set_players
                (JsMap.set (players room) sid (Player.mk playerName 0)) room in
            let s := mkServer (JsMap.set (rooms s) cd room) (sockets s) in
            let s := put_conn sid (mkConn (Some cd) (isSpectator c)) s in
            (s, [(to_socket sid,
                  room_joined cd (getPlayerList room) (isChampionship room));
                 (to_room cd, player_joined playerName (getPlayerList room))])
      end
  end.

Fixpoint set_nth (i : nat) (x : string) (a : list string) : list string :=
  match a, i with
  | [], _ => []
  | _ :: a', O => x :: a'
  | y :: a', S i' => y :: set_nth i' x a'
  end.

(** [[a[i], a[j]] = [a[j], a[i]]] *)
Definition swap (a : list string) (i j : nat) : list string :=
  match nth_error a i, nth_error a j with
  | Some x, Some y => set_nth i y (set_nth j x a)
  | _, _ => a
  end.

(** The loop [for (i = length - 1; i > 0; i--)] of the shuffle, from [i]
    downwards; [draws i] is the draw of the iteration at [i]. *)
Fixpoint shuffle_from (i : nat) (draws : nat -> unit_draw) (a : list string)
  : list string :=
  match i with
  | O => a
  | S i' => shuffle_from i' draws (swap a i (floor_random_times (draws i) (i + 1)))
  end.

Definition shuffle (draws : nat -> unit_draw) (a : list string) : list string :=
  shuffle_from (List.length a - 1) draws a.

(** [Math.min(Math.max(parseInt(v) || d, lo), hi)] on an integer [v]. *)
Definition clamp_setting (v d lo hi : Z) : Z :=
  Z.min (Z.max (or_default (Some v) d) lo) hi.

(** The block of [start_game] that applies the lobby settings. *)
Definition apply_settings (settings : option Settings.t) (room : Room) : Room :=
  match settings with
  | None => room
  | Some st =>
      let room :=
        match Settings.totalRounds st with
        | Some v =>
            if truthy (Some v) then set_totalRounds (clamp_setting v 10 3 30) room
            else room
        | None => room
        end in
      let room :=
        match Settings.timePerTurn st with
        | Some v =>
            if truthy (Some v) then set_timePerTurn (clamp_setting v 40 15 90) room
            else room
        | None => room
        end in
      match Settings.isChampionship st with
      | Some b => set_isChampionship b room
      | None => room
      end
  end.

(** The body of the [start_game] handler once the room is found. *)
Definition start_game_in (sid : string) (settings : option Settings.t)
    (draws : nat -> unit_draw) (room : Room) : Room * list emitted :=
  if negb (String.eqb sid (hostId room)) then (room, [])
  else if (JsMap.size (players room) <? 2)%nat then
    (room, [(to_socket sid, error_message "Need at least 2 players to start!")])
  else
    let room := apply_settings settings room in
    let room := set_state playing room in
    let room := set_playerOrder (shuffle draws (JsMap.keys (players room))) room in
    let room := set_currentDrawerIndex (-1) room in
    let room := set_roundNumber 0 room in
    let out :=
      both (code room) (game_started (getPlayerList room) (totalRounds room)) in
    (set_pending (pending room ++ [(first_turn, 2000%Z)])%list room, out).

Definition on_start_game (sid : string) (settings : option Settings.t)
    (draws : nat -> unit_draw) (s : Server) : Server * list emitted :=
  match room_of s sid with
  | Some room =>
      let (room, out) := start_game_in sid settings draws room in
      (put_room room s, out)
  | None => (s, [])
  end.

Definition on_draw (sid : string) (data : stroke) (s : Server)
  : Server * list emitted :=
  match room_of s sid with
  | Some room =>
      if negb (turnActive room) then (s, [])
      else if negb (is_id (currentDrawer room) sid) then (s, [])
      else
        (put_room (set_drawingData (drawingData room ++ [data])%list room) s,
         [(to_others sid (code room), draw_relay data)])
  | None => (s, [])
  end.

Definition on_clear_canvas (sid : string) (s : Server) : Server * list emitted :=
  match room_of s sid with
  | Some room =>
      if negb (turnActive room) then (s, [])
      else if negb (is_id (currentDrawer room) sid) then (s, [])
      else
        (put_room (set_drawingData [] room) s,
         [(to_others sid (code room), clear_canvas_relay)])
  | None => (s, [])
  end.

Definition on_guess (sid text : string) (s : Server) : Server * list emitted :=
  match room_of s sid with
  | Some room =>
      let (room, out) := handleGuess room sid text in (put_room room s, out)
  | None => (s, [])
  end.

Definition on_skip_word (sid : string) (s : Server) : Server * list emitted :=
  match room_of s sid with
  | Some room =>
      if negb (turnActive room) then (s, [])
      else if negb (is_id (currentDrawer room) sid) then (s, [])
      else let (room, out) := endTurn room false in (put_room room s, out)
  | None => (s, [])
  end.

(** The body of the [disconnect] handler once the room is found.  The
    third component tells whether [rooms.delete(currentRoom)] was run. *)
Definition disconnect_in (sid : string) (asSpectator : bool) (room : Room)
  : Room * list emitted * bool :=
  if asSpectator then
    let room := set_spectators (JsMap.delete (spectators room) sid) room in
    (room, [(to_room (code room), spectator_left (getSpectatorList room))], false)
  else
    match JsMap.get (players room) sid with
    | None => (room, [], false)
    | Some player =>
        let room := set_players (JsMap.delete (players room) sid) room in
        let room :=
          set_playerOrder
            (filter (fun id => negb (String.eqb id sid)) (playerOrder room))
            room in
        let out :=
          [(to_room (code room),
            player_left (Player.name player) (getPlayerList room))] in
        (* If current drawer left, end turn *)
        let (room, out1) :=
          if turnActive room && is_id (currentDrawer room) sid
          then endTurn room false else (room, []) in
        (* If only 1 player left during game, end it *)
        let (room, out2) :=
          if room_state_eqb (state room) playing
             && (JsMap.size (players room) <? 2)%nat
          then endGame room else (room, []) in
        (* If room is empty, delete it *)
        let (room, deleted) :=
          if (JsMap.size (players room) =? 0)%nat
             && (JsMap.size (spectators room) =? 0)%nat
          then (set_hintInterval None (set_timer false room), true)
          else (room, false) in
        (* If host left, assign new host *)
        let (room, out3) :=
          match JsMap.keys (players room) with
          | first :: _ =>
              if String.eqb sid (hostId room) then
                let room := set_hostId first room in
                (room, [(to_room (code room),
                         new_host (hostId room) (getPlayerList room))])
              else (room, [])
          | [] => (room, [])
          end in
        (room, (out ++ out1 ++ out2 ++ out3)%list, deleted)
    end.

Definition on_disconnect (sid : string) (s : Server) : Server * list emitted :=
  match JsMap.get (sockets s) sid with
  | None => (s, [])
  | Some c =>
      let gone := JsMap.delete (sockets s) sid in
      match currentRoom c with
      | None => (mkServer (rooms s) gone, [])
      | Some cd =>
          match JsMap.get (rooms s) cd with
          | None => (mkServer (rooms s) gone, [])
          | Some room =>
              let '(room, out, deleted) := disconnect_in sid (isSpectator c) room in
              (mkServer (if deleted then JsMap.delete (rooms s) cd
                         else JsMap.set (rooms s) cd room) gone,
               out)
          end
      end
  end.

(** What the server reacts to: the socket events, the two interval timers
    of a room, and a deferred callback of a room that comes due. *)
Inductive input : Type :=
  | connection (sid : string)
  | create_room (sid playerName : string) (arg_totalRounds arg_timePerTurn : option Z)
      (arg_isChampionship : option bool) (draws : nat -> unit_draw)
  | join_room (sid roomCode playerName : string) (asSpectator : bool)
  | start_game (sid : string) (settings : option Settings.t)
      (draws : nat -> unit_draw)
  | draw (sid : string) (data : stroke)
  | clear_canvas (sid : string)
  | guess (sid text : string)
  | skip_word (sid : string)
  | disconnect (sid : string)
  | countdown (c : string)
  | hint_check (c : string)
  | timeout (c : string) (i : nat) (u : unit_draw).

Definition step (ev : input) (s : Server) : Server * list emitted :=
  match ev with
  | connection sid => on_connection sid s
  | create_room sid nm tr tpt ch draws => on_create_room sid nm tr tpt ch draws s
  | join_room sid rc nm sp => on_join_room sid rc nm sp s
  | start_game sid st draws => on_start_game sid st draws s
  | draw sid data => on_draw sid data s
  | clear_canvas sid => on_clear_canvas sid s
  | guess sid text => on_guess sid text s
  | skip_word sid => on_skip_word sid s
  | disconnect sid => on_disconnect sid s
  | countdown c => in_room c timer_tick s
  | hint_check c => in_room c hint_tick s
  | timeout c i u => in_room c (fire i u) s
  end.

(** A run of the server, with everything it sent. *)
Fixpoint run (evs : list input) (s : Server) : Server * list emitted :=
  match evs with
  | [] => (s, [])
  | ev :: evs' =>
      let (s1, out1) := step ev s in
      let (s2, out2) := run evs' s1 in
      (s2, (out1 ++ out2)%list)
  end.

(* ================================================================== *)
(** ** Notions used in the statements *)

Unset Implicit Arguments.

(** The words that successive calls of [getRandomWord] return, one call
    per draw; nothing else writes [usedWords]. *)
Fixpoint draw_words (us : list unit_draw) (room : Room) : list string :=
  match us with
  | [] => []
  | u :: us' =>
      let (w, room') := getRandomWord u room in
      w :: draw_words us' room'
  end.

(** Every catalog word is in the used set. *)
Definition exhausted (room : Room) : Prop :=
  forall w, In w WORD_LIST -> JsSet.has (usedWords room) w = true.

(** What is known between the used set and the words drawn so far: they
    are the same words, or the whole catalog has been drawn. *)
Definition selection_inv (room : Room) (seen : list string) : Prop :=
  (forall w, In w seen <-> In w (usedWords room))
  \/ (forall c, In c WORD_LIST -> In c seen).

(** The draw [k / n], which [Math.floor(Math.random() * n)] turns into [k]. *)
Definition draw_for (k n : nat) : unit_draw := mkDraw k (n - k - 1).

Fixpoint nodupb (l : list string) : bool :=
  match l with
  | [] => true
  | x :: l' => negb (existsb (String.eqb x) l') && nodupb l'
  end.

(** A room as [createRoom] returns it, with the default settings. *)
Definition fresh_room : Room := createRoom "AAAA" "A" "Ann" Settings.empty.

(** The score stored for a player. *)
Definition score_of (room : Room) (id : string) : option Z :=
  option_map Player.score (JsMap.get (players room) id).

(** [+0] *)
Definition is_pos_zero (x : JsNumber.number) : bool :=
  match x with
  | S754_zero false => true
  | _ => false
  end.

(** The room stored under a code after a run from the empty server. *)
Definition room_after (evs : list input) (c : string) : option Room :=
  JsMap.get (rooms (fst (run evs empty_server))) c.

Definition first_draws : nat -> unit_draw := fun _ => mkDraw 0 0.

(** Ann creates a room with the default settings, Bob joins, Ann starts the
    game and the first turn begins: with these draws the code is AAAA, the
    order is Bob, Ann, and Bob draws "Queen". *)
Definition two_player_start : list input :=
  [ connection "A"; create_room "A" "Ann" None None None first_draws;
    connection "B"; join_room "B" "AAAA" "Bob" false;
    start_game "A" None first_draws;
    timeout "AAAA" 0 (mkDraw 0 0) ].

(** The same turn with 30 of its 40 seconds left. *)
Definition queen_at_30 : Room :=
  match room_after (two_player_start ++ repeat (countdown "AAAA") 10) "AAAA" with
  | Some room => room
  | None => fresh_room
  end.

(** [sub] occurs in [s]. *)
Definition occurs_in (sub s : string) : Prop :=
  exists pre post, s = (pre ++ sub ++ post)%string.

(** All characters of a list are white space. *)
Definition all_space (l : list ascii) : Prop :=
  Forall (fun c => JsString.is_space c = true) l.

(** [t] is [s] without its leading and trailing white space, the rest kept
    as it is. *)
Definition trimmed_of (s t : string) : Prop :=
  exists before after,
    JsString.chars s = (before ++ JsString.chars t ++ after)%list
    /\ all_space before /\ all_space after
    /\ (forall c rest, JsString.chars t = c :: rest -> JsString.is_space c = false)
    /\ (forall body c, JsString.chars t = (body ++ [c])%list ->
                       JsString.is_space c = false).

(** The number of thresholds of a word that are due at an elapsed time: the
    [shouldReveal] of the hint check. *)
Definition tiers_due (word : string) (tpt elapsed : Z) : nat :=
  List.length
    (filter (fun t => (tpt - t <=? elapsed)%Z) (hintTimes_of word tpt)).

(** The elapsed times at which the hint check sends a hint during [n]
    seconds of a room; each second the countdown's callback runs first, as
    its interval is created first. *)
Fixpoint hint_firings (n : nat) (room : Room) : list Z :=
  match n with
  | O => []
  | S n' =>
      let (r1, _) := timer_tick room in
      let (r2, sent) := hint_tick r1 in
      ((match sent with
        | [] => []
        | _ :: _ => [(timePerTurn r2 - timeRemaining r2)%Z]
        end) ++ hint_firings n' r2)%list
  end.

(** The first turn of the two-player game when the word is drawn with [u]. *)
Definition first_turn_with (u : unit_draw) : Room :=
  match room_after
          [ connection "A"; create_room "A" "Ann" None None None first_draws;
            connection "B"; join_room "B" "AAAA" "Bob" false;
            start_game "A" None first_draws;
            timeout "AAAA" 0 u ] "AAAA" with
  | Some room => room
  | None => fresh_room
  end.

(** [startTurn] up to the test of [roundNumber]: the index moves on
    circularly and the round is counted. *)
Definition advance (room : Room) : Room :=
  let room := set_currentDrawerIndex (currentDrawerIndex room + 1) room in
  let room :=
    if (Z.of_nat (List.length (playerOrder room)) <=? currentDrawerIndex room)%Z
    then set_currentDrawerIndex 0 room else room in
  set_roundNumber (roundNumber room + 1) room.

(** [startTurn] from the word selection on, for a drawer that is present. *)
Definition begin_turn (u : unit_draw) (room : Room) (drawerId : string)
    (drawer : Player.t) : Room * list emitted :=
  let (word, room) := getRandomWord u room in
  let room := set_currentWord word room in
  let room := set_drawingData [] room in
  let room := set_correctGuessers (JsSet.clear (correctGuessers room)) room in
  let room := set_turnActive true room in
  let room := set_timeRemaining (timePerTurn room) room in
  let room := set_hintsRevealed 0 room in
  let room := set_state playing room in
  let hint := generateHint (currentWord room) 0 in
  let start :=
    turn_start drawerId (Player.name drawer) hint (roundNumber room)
               (totalRounds room) (timeRemaining room) (getPlayerList room) in
  let out :=
    [ (to_room (code room), start);
      (to_socket drawerId, your_word (currentWord room));
      (to_spectators (code room), start) ] in
  let room := set_timer true room in
  let room :=
    set_hintInterval
      (Some (mkHintClosure drawerId
               (hintTimes_of (currentWord room) (timePerTurn room))))
      room in
  (room, out).

(** Ann creates a room asking for 100 rounds of 5 seconds, Bob joins, and
    Ann starts the game with a request that carries no settings. *)
Definition start_without_settings : list input :=
  [ connection "A";
    create_room "A" "Ann" (Some 100%Z) (Some 5%Z) None first_draws;
    connection "B"; join_room "B" "AAAA" "Bob" false;
    start_game "A" None first_draws ].

(** Ann creates a room with the default settings, Bob and Cid join, Ann
    starts the game and the first turn begins: with these draws the order is
    Bob, Cid, Ann, and Bob draws "Queen". *)
Definition three_player_start : list input :=
  [ connection "A"; create_room "A" "Ann" None None None first_draws;
    connection "B"; join_room "B" "AAAA" "Bob" false;
    connection "C"; join_room "C" "AAAA" "Cid" false;
    start_game "A" None first_draws;
    timeout "AAAA" 0 (mkDraw 0 0) ].

Definition is_turn_end (e : emitted) : bool :=
  match snd e with
  | turn_end _ _ _ _ _ => true
  | _ => false
  end.

Definition is_turn_start (e : emitted) : bool :=
  match snd e with
  | turn_start _ _ _ _ _ _ _ => true
  | _ => false
  end.

(** Ann creates a room, Sue joins it as a spectator, Ann leaves and then
    Sue leaves. *)
Definition spectator_leaves_last : list input :=
  [ connection "A"; create_room "A" "Ann" None None None first_draws;
    connection "S"; join_room "S" "AAAA" "Sue" true;
    disconnect "A"; disconnect "S" ].

(** Ann and Bob start a game and Bob leaves before the first turn's delay
    has passed; then the delay passes. *)
Definition leave_during_grace : list input :=
  [ connection "A"; create_room "A" "Ann" None None None first_draws;
    connection "B"; join_room "B" "AAAA" "Bob" false;
    start_game "A" None first_draws;
    disconnect "B" ].

(** An input is quiet when it is not a disconnect and, if it is a
    [start_game], the requester's room is in the lobby. *)
Definition quiet (ev : input) (s : Server) : bool :=
  match ev with
  | disconnect _ => false
  | start_game sid _ _ =>
      match room_of s sid with
      | Some room => room_state_eqb (state room) lobby
      | None => true
      end
  | _ => true
  end.

Fixpoint quiet_run (evs : list input) (s : Server) : bool :=
  match evs with
  | [] => true
  | ev :: evs' => quiet ev s && quiet_run evs' (fst (step ev s))
  end.

(** What holds of [correctGuessers] in a room between disconnects. *)
Definition room_inv (room : Room) : Prop :=
  NoDup (correctGuessers room)
  /\ incl (correctGuessers room) (JsMap.keys (players room))
  /\ NoDup (JsMap.keys (players room))
  /\ (state room = lobby ->
      correctGuessers room = [] /\ turnActive room = false)
  /\ (state room = playing ->
      (currentDrawer room = None /\ correctGuessers room = []
       /\ turnActive room = false /\ JsMap.keys (players room) <> [])
      \/ (exists d, currentDrawer room = Some d
                    /\ In d (JsMap.keys (players room))
                    /\ ~ In d (correctGuessers room))).

(** A property of every room of the registry. *)
Definition all_rooms (P : Room -> Prop) (s : Server) : Prop :=
  forall c room, JsMap.get (rooms s) c = Some room -> P room.

(** The inputs of a run that is looked at: [start_game] for a room that is
    [startable], and a disconnect when [leaving] holds. *)
Definition allowed (startable : Room -> Prop) (leaving : Prop)
    (ev : input) (s : Server) : Prop :=
  match ev with
  | disconnect _ => leaving
  | start_game sid _ _ =>
      forall room, room_of s sid = Some room -> startable room
  | _ => True
  end.

Fixpoint allowed_run (startable : Room -> Prop) (leaving : Prop)
    (evs : list input) (s : Server) : Prop :=
  match evs with
  | [] => True
  | ev :: evs' =>
      allowed startable leaving ev s
      /\ allowed_run startable leaving evs' (fst (step ev s))
  end.

(** What holds of [correctGuessers] in every room, whatever happens: its
    members and the players are among 10 ids. *)
Definition cap_inv (room : Room) : Prop :=
  NoDup (correctGuessers room)
  /\ NoDup (JsMap.keys (players room))
  /\ (exists ids,
         incl (JsMap.keys (players room)) ids
         /\ incl (correctGuessers room) ids
         /\ NoDup ids /\ List.length ids <= 10)
  /\ (state room = lobby ->
      correctGuessers room = [] /\ turnActive room = false).

(** In the game of three, Cid guesses the word and leaves, and then Ann
    guesses it. *)
Definition guesser_leaves : list input :=
  three_player_start
    ++ [ guess "C" "queen"; disconnect "C"; guess "A" "queen" ].

(** In the game of three, Bob skips his word, Cid's turn begins, Ann guesses
    the word and Bob leaves. *)
Definition earlier_player_leaves : list input :=
  three_player_start
    ++ [ skip_word "B"; timeout "AAAA" 0 (mkDraw 0 0);
         guess "A" "sales tax"; disconnect "B" ].

(** In the game of two, Ann issues [start_game] again during Bob's turn, and
    then both guess the word. *)
Definition restart_during_turn : list input :=
  two_player_start
    ++ [ start_game "A" None first_draws; guess "A" "queen"; guess "B" "queen" ].

(** The game of three after Cid's correct guess. *)
Definition after_one_guess : Room :=
  match room_after (three_player_start ++ [guess "C" "queen"]) "AAAA" with
  | Some room => room
  | None => fresh_room
  end.

(* ================================================================== *)
(** ** Notions used in the further properties *)

From Stdlib Require Sorted Permutation.

(** The number of spaces of a word. *)
Definition count_spaces (word : string) : nat :=
  List.length (filter (fun c => Ascii.eqb c " ") (JsString.chars word)).

(** The characters that are not allowed in a room code. *)
Definition ambiguous : list ascii := ["I"; "O"; "0"; "1"]%char.

(** The element of the standings made from an entry of [room.players]. *)
Definition entry_of (room : Room) (kv : string * Player.t) : Entry.t :=
  Entry.mk (fst kv) (Player.name (snd kv)) (Player.score (snd kv))
           (String.eqb (fst kv) (hostId room))
           (is_id (currentDrawer room) (fst kv)).

(** [a] comes before [b] in standings: its score is not lower. *)
Definition not_below (a b : Entry.t) : Prop :=
  (Entry.score b <= Entry.score a)%Z.

(** Ann's room in the lobby, after Bob has joined. *)
Definition lobby_of_two : Room :=
  match room_after [ connection "A"; create_room "A" "Ann" None None None first_draws;
                     connection "B"; join_room "B" "AAAA" "Bob" false ] "AAAA" with
  | Some room => room
  | None => fresh_room
  end.

(** The two deferred calls the server makes: the first turn 2000 ms after
    [start_game], and the next turn 3000 ms after a turn has ended. *)
Definition pending_ok (p : deferred) : Prop :=
  p = (first_turn, 2000%Z) \/ p = (next_turn, 3000%Z).

(** What holds of every room of the registry, whatever the clients send and
    whenever the timers fire. *)
Definition game_inv (room : Room) : Prop :=
  NoDup (JsMap.keys (players room))
  /\ List.length (JsMap.keys (players room)) <= 10
  /\ (state room = lobby ->
      playerOrder room = [] /\ pending room = [] /\ turnActive room = false)
  /\ (state room <> lobby ->
      Permutation.Permutation (playerOrder room) (JsMap.keys (players room)))
  /\ (timer room = true -> turnActive room = true /\ state room = playing)
  /\ (timer room = true <-> hintInterval room <> None)
  /\ Forall pending_ok (pending room)
  /\ incl (usedWords room) WORD_LIST
  /\ NoDup (usedWords room)
  /\ (turnActive room = true -> In (currentWord room) WORD_LIST).

(** The host a [disconnect] of the player [sid] gives the room: the first of
    the players that remain, when the host is the one who leaves. *)
Definition next_host (sid : string) (room : Room) : option string :=
  match JsMap.keys (JsMap.delete (players room) sid) with
  | first :: _ => if String.eqb sid (hostId room) then Some first else None
  | [] => None
  end.

(** [k] calls of the countdown interval's callback, with what they send. *)
Fixpoint ticks (k : nat) (room : Room) : Room * list emitted :=
  match k with
  | O => (room, [])
  | S k' =>
      let (room, out) := timer_tick room in
      let (room, out') := ticks k' room in
      (room, (out ++ out')%list)
  end.

(** The index [startTurn] moves to: the next one, and the first one after
    the last. *)
Definition next_index (room : Room) : Z :=
  if (Z.of_nat (List.length (playerOrder room)) <=? currentDrawerIndex room + 1)%Z
  then 0%Z else (currentDrawerIndex room + 1)%Z.

(** The first turn of the two-player game at half time: Bob draws "Queen"
    and 20 of the 40 seconds are left. *)
Definition queen_at_20 : Room := fst (ticks 20 (first_turn_with (mkDraw 0 0))).

(** Each element of a list is related to the next one. *)
Fixpoint chain {A : Type} (le : A -> A -> bool) (l : list A) : bool :=
  match l with
  | [] => true
  | a :: l' =>
      match l' with
      | [] => true
      | b :: _ => le a b
      end && chain le l'
  end.

(** The values of [orderBonus] for the ranks 1 to 11. *)
Definition bonuses : list number :=
  map (fun c => orderBonus (1 + Z.of_nat c)) (seq 0 11).

(** The points at one time of one turn: those of the drawer, and those of
    the guesser for each of the ranks. *)
Definition points_row (bs : list number) (tpt rem : Z) : Z * list Z :=
  let t := timeRatio_of rem tpt in
  let base := add (of_Z 200) (mul (of_Z 300) t) in
  (drawerPoints t, map (fun ob => Math_round (mul base ob)) bs).

Definition row_ok (row : Z * list Z) : bool :=
  (50 <=? fst row)%Z && (fst row <=? 150)%Z
  && forallb (fun g => (0 <=? g)%Z && (g <=? 500)%Z) (snd row)
  && chain (fun a b => (b <=? a)%Z) (snd row).

Definition row_le (a b : Z * list Z) : bool :=
  (fst a <=? fst b)%Z
  && forallb (fun c => (nth c (snd a) 0 <=? nth c (snd b) 0)%Z) (seq 0 11).

(** The bounds at every second of a turn of [15 + a] seconds: each row is
    within the bounds, and no row is above the row of the second before. *)
Definition rows_ok (bs : list number) (a : nat) : bool :=
  let rows :=
    map (fun b => points_row bs (15 + Z.of_nat a) (Z.of_nat b))
        (seq 0 (16 + a)) in
  forallb row_ok rows && chain row_le rows.

(** Ann's room, as [create_room] has made it. *)
Definition fresh_room_of_ann : Room :=
  match room_after [ connection "A";
                     create_room "A" "Ann" None None None first_draws ] "AAAA" with
  | Some room => room
  | None => fresh_room
  end.

(* ================================================================== *)
(** * Properties *)

(** Reads a field through the assignments made to a room. *)
Ltac room_simpl :=
  cbn [code hostId players state currentDrawerIndex currentWord roundNumber
       totalRounds timePerTurn timer timeRemaining usedWords drawingData
       correctGuessers turnActive playerOrder isChampionship spectators
       hintsRevealed hintInterval pending
       set_hostId set_players set_state set_currentDrawerIndex set_currentWord
       set_roundNumber set_totalRounds set_timePerTurn set_timer
       set_timeRemaining set_usedWords set_drawingData set_correctGuessers
       set_turnActive set_playerOrder set_isChampionship set_spectators
       set_hintsRevealed set_hintInterval set_pending fst snd].

Tactic Notation "room_simpl" "in" hyp(H) :=
  cbn [code hostId players state currentDrawerIndex currentWord roundNumber
       totalRounds timePerTurn timer timeRemaining usedWords drawingData
       correctGuessers turnActive playerOrder isChampionship spectators
       hintsRevealed hintInterval pending
       set_hostId set_players set_state set_currentDrawerIndex set_currentWord
       set_roundNumber set_totalRounds set_timePerTurn set_timer
       set_timeRemaining set_usedWords set_drawingData set_correctGuessers
       set_turnActive set_playerOrder set_isChampionship set_spectators
       set_hintsRevealed set_hintInterval set_pending fst snd] in H.

(** ** Sets, maps and draws *)

Lemma has_In (s : JsSet.t) (x : string) : JsSet.has s x = true <-> In x s.
Proof.
  unfold JsSet.has. rewrite existsb_exists. split.
  - intros [y [Hy He]]. apply String.eqb_eq in He. now subst.
  - intros H. exists x. split; [exact H | apply String.eqb_refl].
Qed.

Lemma has_false_not_In (s : JsSet.t) (x : string) :
  JsSet.has s x = false <-> ~ In x s.
Proof.
  rewrite <- has_In. destruct (JsSet.has s x); split; congruence.
Qed.

Lemma add_fresh (s : JsSet.t) (x : string) :
  JsSet.has s x = false -> JsSet.add s x = (s ++ [x])%list.
Proof. unfold JsSet.add. now intros ->. Qed.

Lemma add_present (s : JsSet.t) (x : string) :
  JsSet.has s x = true -> JsSet.add s x = s.
Proof. unfold JsSet.add. now intros ->. Qed.

Lemma nodupb_sound (l : list string) : nodupb l = true -> NoDup l.
Proof.
  induction l as [|x l IH]; simpl; intros H; constructor.
  - apply andb_prop in H as [H _]. apply negb_true_iff in H.
    now apply has_false_not_In in H.
  - apply IH. now apply andb_prop in H as [_ H].
Qed.

Lemma WORD_LIST_NoDup : NoDup WORD_LIST.
Proof. apply nodupb_sound. vm_compute. reflexivity. Qed.

Lemma WORD_LIST_length : List.length WORD_LIST = 51.
Proof. reflexivity. Qed.

Lemma floor_random_times_lt (u : unit_draw) (n : nat) :
  0 < n -> floor_random_times u n < n.
Proof.
  intros Hn. unfold floor_random_times, u_den.
  apply Nat.Div0.div_lt_upper_bound. nia.
Qed.

(** The draws that give the index [k] form the interval [k/n, (k+1)/n) of
    [0, 1): all indices below [n] are equally likely. *)
Lemma floor_random_times_interval (u : unit_draw) (n k : nat) :
  floor_random_times u n = k <->
  k * u_den u <= u_num u * n < (k + 1) * u_den u.
Proof.
  unfold floor_random_times.
  assert (Hd : u_den u <> 0) by (unfold u_den; lia).
  split.
  - intros <-. split.
    + rewrite Nat.mul_comm. now apply Nat.Div0.mul_div_le.
    + pose proof (Nat.mul_succ_div_gt (u_num u * n) (u_den u) Hd). lia.
  - intros [Hlo Hhi]. symmetry. apply Nat.div_unique with (u_num u * n - k * u_den u); lia.
Qed.

Lemma draw_for_index (k n : nat) : k < n -> floor_random_times (draw_for k n) n = k.
Proof.
  intros H. apply floor_random_times_interval.
  unfold draw_for, u_den. simpl. nia.
Qed.

Lemma filter_nil_all {A : Type} (f : A -> bool) (l : list A) :
  filter f l = [] <-> (forall x, In x l -> f x = false).
Proof.
  induction l as [|a l IH]; simpl.
  - split; [intros _ x [] | reflexivity].
  - destruct (f a) eqn:Ha; split.
    + discriminate.
    + intros H. specialize (H a (or_introl eq_refl)). congruence.
    + intros H x [<-|Hx]; [exact Ha | now apply IH].
    + intros H. apply IH. intros x Hx. apply H. now right.
Qed.

Lemma available_nil_exhausted (room : Room) :
  available room = [] <-> exhausted room.
Proof.
  unfold available, exhausted. rewrite filter_nil_all.
  split; intros H w Hw; specialize (H w Hw).
  - now apply negb_false_iff in H.
  - now rewrite H.
Qed.

Lemma available_In (room : Room) (w : string) :
  In w (available room) <-> In w WORD_LIST /\ JsSet.has (usedWords room) w = false.
Proof.
  unfold available. rewrite filter_In. now rewrite negb_true_iff.
Qed.

Lemma available_NoDup (room : Room) : NoDup (available room).
Proof. apply NoDup_filter, WORD_LIST_NoDup. Qed.

Lemma length_zero_nil {A : Type} (l : list A) :
  (List.length l =? 0)%nat = true <-> l = [].
Proof. destruct l; simpl; split; congruence. Qed.

(** The two branches of [getRandomWord]. *)
Lemma getRandomWord_fresh (u : unit_draw) (room : Room) :
  available room <> [] ->
  exists w,
    getRandomWord u room = (w, set_usedWords (usedWords room ++ [w])%list room)
    /\ nth_error (available room)
         (floor_random_times u (List.length (available room))) = Some w
    /\ In w WORD_LIST
    /\ JsSet.has (usedWords room) w = false.
Proof.
  intros Hne. unfold getRandomWord.
  destruct (List.length (available room) =? 0)%nat eqn:E.
  { apply length_zero_nil in E. contradiction. }
  set (k := floor_random_times u (List.length (available room))).
  assert (Hk : k < List.length (available room)).
  { apply floor_random_times_lt. destruct (available room); simpl; [congruence | lia]. }
  exists (nth k (available room) "").
  assert (Hin : In (nth k (available room) "") (available room)) by now apply nth_In.
  apply available_In in Hin as [Hw Hu].
  repeat split; trivial.
  - now rewrite add_fresh.
  - now apply nth_error_nth'.
Qed.

Lemma getRandomWord_exhausted (u : unit_draw) (room : Room) :
  available room = [] ->
  exists w,
    getRandomWord u room = (w, set_usedWords [] room)
    /\ nth_error WORD_LIST (floor_random_times u (List.length WORD_LIST)) = Some w.
Proof.
  intros He. unfold getRandomWord. rewrite He. simpl Nat.eqb. cbv iota.
  eexists. split; [reflexivity|].
  apply nth_error_nth'. apply floor_random_times_lt. rewrite WORD_LIST_length. lia.
Qed.

Lemma NoDup_unique_index {A : Type} (l : list A) (x : A) :
  NoDup l -> In x l -> exists! k, nth_error l k = Some x.
Proof.
  intros Hnd Hin. apply In_nth_error in Hin as [k Hk].
  exists k. split; [exact Hk|].
  intros k' Hk'. rewrite NoDup_nth_error in Hnd. apply Hnd.
  - apply nth_error_Some. congruence.
  - congruence.
Qed.

(** ** Word selection *)

Lemma draw_words_cons (u : unit_draw) (us : list unit_draw) (room : Room) :
  draw_words (u :: us) room
  = fst (getRandomWord u room) :: draw_words us (snd (getRandomWord u room)).
Proof. cbn [draw_words]. now destruct (getRandomWord u room). Qed.

Lemma selection_inv_next (u : unit_draw) (room : Room) (seen : list string) :
  selection_inv room seen ->
  selection_inv (snd (getRandomWord u room)) (seen ++ [fst (getRandomWord u room)])
  /\ (In (fst (getRandomWord u room)) seen ->
      forall c, In c WORD_LIST -> In c seen).
Proof.
  intros Hinv.
  destruct (list_eq_dec string_dec (available room) []) as [He|Hne].
  - (* every word is used: the set is cleared *)
    destruct (getRandomWord_exhausted u room He) as [w0 [E _]].
    rewrite E. cbn [fst snd].
    assert (Hall : forall c, In c WORD_LIST -> In c seen).
    { destruct Hinv as [Hsame|Hall]; [|exact Hall].
      intros c Hc. apply Hsame. apply has_In.
      now apply available_nil_exhausted. }
    split; [|intros _; exact Hall].
    right. intros c Hc. apply in_or_app. left. now apply Hall.
  - (* a word that is not used yet *)
    destruct (getRandomWord_fresh u room Hne) as [w0 [E [_ [_ Hfresh]]]].
    rewrite E. cbn [fst snd].
    apply has_false_not_In in Hfresh.
    destruct Hinv as [Hsame|Hall].
    + split.
      * left. intros w. cbn [usedWords set_usedWords].
        rewrite !in_app_iff, Hsame. tauto.
      * intros Hin. apply Hsame in Hin. contradiction.
    + split; [|intros _; exact Hall].
      right. intros c Hc. apply in_or_app. left. now apply Hall.
Qed.

Lemma draw_words_repeat (us : list unit_draw) :
  forall room seen,
    selection_inv room seen ->
    forall j w,
      nth_error (draw_words us room) j = Some w ->
      In w (seen ++ firstn j (draw_words us room)) ->
      forall c, In c WORD_LIST -> In c (seen ++ firstn j (draw_words us room)).
Proof.
  induction us as [|u us IH]; intros room seen Hinv j w Hj Hw c Hc.
  - destruct j; discriminate.
  - rewrite draw_words_cons in *.
    destruct (selection_inv_next u room seen Hinv) as [Hnext Hrep].
    destruct j as [|j].
    + cbn [nth_error firstn] in *. injection Hj as <-.
      rewrite app_nil_r in *. now apply Hrep.
    + cbn [nth_error firstn] in *.
      rewrite (app_assoc seen [_] _ : (seen ++ _ :: _ = (seen ++ [_]) ++ _)%list) in *.
      eapply IH; eauto.
Qed.



(** C10.  With every catalog word in the used set, [getRandomWord] clears
    the set and returns the catalog word at the drawn index without adding
    it to the cleared set, so that the same draw makes the next call return
    the same word. *)
Theorem getRandomWord_repeat_after_exhaustion :
  forall u room,
    exhausted room ->
    exists w room',
      getRandomWord u room = (w, room')
      /\ nth_error WORD_LIST (floor_random_times u (List.length WORD_LIST)) = Some w
      /\ usedWords room' = []
      /\ JsSet.has (usedWords room') w = false
      /\ fst (getRandomWord u room') = w.
Proof.
  intros u room He.
  apply available_nil_exhausted in He.
  destruct (getRandomWord_exhausted u room He) as [w [E Hw]].
  exists w, (set_usedWords [] room). repeat split; trivial.
  unfold getRandomWord.
  change (available (set_usedWords [] room)) with WORD_LIST.
  simpl Nat.eqb. cbv iota. cbn [fst].
  apply nth_error_nth with (d := "") in Hw. exact Hw.
Qed.

Lemma getRandomWord_repeat_after_exhaustion_witness :
  exists w room',
    getRandomWord (mkDraw 0 0) (set_usedWords WORD_LIST fresh_room) = (w, room')
    /\ nth_error WORD_LIST (floor_random_times (mkDraw 0 0) (List.length WORD_LIST))
       = Some w
    /\ usedWords room' = []
    /\ JsSet.has (usedWords room') w = false
    /\ fst (getRandomWord (mkDraw 0 0) room') = w.
Proof.
  apply (getRandomWord_repeat_after_exhaustion (mkDraw 0 0)
           (set_usedWords WORD_LIST fresh_room)).
  intros w Hw. apply has_In. exact Hw.
Defined.

(** ** Maps *)

Lemma get_set_same {V : Type} (m : JsMap.t V) (k : string) (v : V) :
  JsMap.get (JsMap.set m k v) k = Some v.
Proof.
  induction m as [|[k' v'] m IH]; simpl.
  - now rewrite String.eqb_refl.
  - destruct (String.eqb k k') eqn:E; simpl.
    + now rewrite String.eqb_refl.
    + now rewrite E.
Qed.

Lemma get_set_other {V : Type} (m : JsMap.t V) (k k' : string) (v : V) :
  k <> k' -> JsMap.get (JsMap.set m k v) k' = JsMap.get m k'.
Proof.
  intros Hne. induction m as [|[k0 v0] m IH]; simpl.
  - apply String.eqb_neq in Hne. rewrite String.eqb_sym. now rewrite Hne.
  - destruct (String.eqb k k0) eqn:E; simpl.
    + apply String.eqb_eq in E. subst k0.
      assert (H : String.eqb k' k = false) by (apply String.eqb_neq; congruence).
      now rewrite H.
    + destruct (String.eqb k' k0); [reflexivity | exact IH].
Qed.

Lemma keys_set_present {V : Type} (m : JsMap.t V) (k : string) (v v0 : V) :
  JsMap.get m k = Some v0 -> JsMap.keys (JsMap.set m k v) = JsMap.keys m.
Proof.
  unfold JsMap.keys. induction m as [|[k' v'] m IH]; simpl; [discriminate|].
  rewrite (String.eqb_sym k k').
  destruct (String.eqb k' k) eqn:E; simpl.
  - apply String.eqb_eq in E. now subst.
  - intros H. now rewrite IH.
Qed.

Lemma get_In_keys {V : Type} (m : JsMap.t V) (k : string) (v : V) :
  JsMap.get m k = Some v -> In k (JsMap.keys m).
Proof.
  unfold JsMap.keys. induction m as [|[k' v'] m IH]; simpl; [discriminate|].
  destruct (String.eqb k k') eqn:E.
  - apply String.eqb_eq in E. now left.
  - intros H. right. now apply IH.
Qed.

Lemma In_keys_get {V : Type} (m : JsMap.t V) (k : string) :
  In k (JsMap.keys m) -> exists v, JsMap.get m k = Some v.
Proof.
  unfold JsMap.keys. induction m as [|[k' v'] m IH]; simpl; [intros []|].
  destruct (String.eqb k k') eqn:E; [now eexists|].
  intros [H|H]; [apply String.eqb_neq in E; congruence | now apply IH].
Qed.

(** ** Scores *)

Lemma score_of_add_score_same (room : Room) (id : string) (p : Player.t) (pts : Z) :
  JsMap.get (players room) id = Some p ->
  score_of (add_score id pts room) id = Some (Player.score p + pts)%Z.
Proof.
  intros H. unfold add_score, score_of. rewrite H.
  cbn [players set_players]. now rewrite get_set_same.
Qed.

Lemma get_add_score_other (room : Room) (id q : string) (pts : Z) :
  id <> q ->
  JsMap.get (players (add_score id pts room)) q = JsMap.get (players room) q.
Proof.
  intros H. unfold add_score.
  destruct (JsMap.get (players room) id); [|reflexivity].
  cbn [players set_players]. now apply get_set_other.
Qed.

Lemma score_of_add_score_other (room : Room) (id q : string) (pts : Z) :
  id <> q -> score_of (add_score id pts room) q = score_of room q.
Proof. intros H. unfold score_of. now rewrite get_add_score_other. Qed.

Lemma add_score_frame (room : Room) (id : string) (pts : Z) :
  correctGuessers (add_score id pts room) = correctGuessers room
  /\ code (add_score id pts room) = code room
  /\ playerOrder (add_score id pts room) = playerOrder room
  /\ currentDrawerIndex (add_score id pts room) = currentDrawerIndex room
  /\ turnActive (add_score id pts room) = turnActive room
  /\ state (add_score id pts room) = state room
  /\ JsMap.keys (players (add_score id pts room)) = JsMap.keys (players room).
Proof.
  unfold add_score. destruct (JsMap.get (players room) id) eqn:E;
    cbn [correctGuessers code playerOrder currentDrawerIndex turnActive state
         players set_players]; repeat split.
  now apply keys_set_present with t.
Qed.

Lemma endTurn_frame (room : Room) (b : bool) :
  players (fst (endTurn room b)) = players room
  /\ correctGuessers (fst (endTurn room b)) = correctGuessers room
  /\ playerOrder (fst (endTurn room b)) = playerOrder room
  /\ currentDrawerIndex (fst (endTurn room b)) = currentDrawerIndex room
  /\ state (fst (endTurn room b)) = state room
  /\ turnActive (fst (endTurn room b)) = false
  /\ timer (fst (endTurn room b)) = false
  /\ hintInterval (fst (endTurn room b)) = None.
Proof. repeat split. Qed.

(** [handleGuess] on a correct guess of a player who may guess. *)
Lemma handleGuess_correct (room : Room) (playerId text : string) (player : Player.t) :
  turnActive room = true ->
  is_id (currentDrawer room) playerId = false ->
  JsSet.has (correctGuessers room) playerId = false ->
  JsMap.get (players room) playerId = Some player ->
  JsString.toLowerCase (JsString.trim text)
    = JsString.toLowerCase (JsString.trim (currentWord room)) ->
  let t := timeRatio_of (timeRemaining room) (timePerTurn room) in
  let r := Z.of_nat (S (JsSet.size (correctGuessers room))) in
  let room1 :=
    add_score playerId (guesserPoints t r)
      (set_correctGuessers (correctGuessers room ++ [playerId])%list room) in
  let room2 :=
    match currentDrawer room with
    | Some d => add_score d (drawerPoints t) room1
    | None => room1
    end in
  let out :=
    (both (code room)
       (correct_guess playerId (Player.name player) (guesserPoints t r)
                      (drawerPoints t) (getPlayerList room2)) ++
     [(to_socket playerId, you_guessed_correctly (currentWord room))])%list in
  handleGuess room playerId text
  = if (nonDrawerCount room2 <=? JsSet.size (correctGuessers room2))%nat
    then (fst (endTurn room2 true), (out ++ snd (endTurn room2 true))%list)
    else (room2, out).
Proof.
  intros Ha Hd Hg Hp Heq t r room1 room2 out.
  unfold handleGuess. rewrite Ha, Hd, Hg, Hp. cbn [negb].
  rewrite Heq, String.eqb_refl.
  rewrite (add_fresh _ _ Hg).
  cbn [correctGuessers set_correctGuessers timeRemaining timePerTurn].
  replace (Z.of_nat (JsSet.size (correctGuessers room ++ [playerId])%list)) with r.
  2:{ unfold r, JsSet.size. rewrite length_app. simpl. f_equal. lia. }
  fold t.
  change (currentDrawer (set_correctGuessers (correctGuessers room ++ [playerId])%list room))
    with (currentDrawer room).
  fold room1. fold room2.
  assert (Hc : code room2 = code room).
  { unfold room2, room1. destruct (currentDrawer room);
      repeat (rewrite (proj1 (proj2 (add_score_frame _ _ _)))); reflexivity. }
  assert (Hw : currentWord room2 = currentWord room).
  { unfold room2, room1, add_score.
    destruct (currentDrawer room); repeat (destruct (JsMap.get _ _)); reflexivity. }
  rewrite Hc, Hw. fold out.
  destruct (nonDrawerCount room2 <=? JsSet.size (correctGuessers room2))%nat;
    reflexivity.
Qed.

Lemma orderBonus_zero (r : Z) :
  (8 <= r <= 1000)%Z -> orderBonus r = S754_zero false.
Proof.
  intros Hr.
  assert (Hall : forallb (fun k => is_pos_zero (orderBonus (8 + Z.of_nat k)))
                         (seq 0 993) = true) by (vm_compute; reflexivity).
  rewrite forallb_forall in Hall.
  specialize (Hall (Z.to_nat (r - 8))).
  replace (8 + Z.of_nat (Z.to_nat (r - 8)))%Z with r in Hall by lia.
  assert (Hin : In (Z.to_nat (r - 8)) (seq 0 993)) by (apply in_seq; lia).
  specialize (Hall Hin).
  destruct (orderBonus r) as [[|]| | |]; simpl in Hall; congruence.
Qed.

Lemma guesserPoints_zero (t : JsNumber.number) (r : Z) :
  JsNumber.is_finite (JsNumber.add (JsNumber.of_Z 200)
                        (JsNumber.mul (JsNumber.of_Z 300) t)) = true ->
  (8 <= r <= 1000)%Z ->
  guesserPoints t r = 0%Z.
Proof.
  intros Hf Hr. unfold guesserPoints. rewrite (orderBonus_zero r Hr).
  destruct (JsNumber.add _ _); try discriminate; reflexivity.
Qed.

(** ** Strings *)

Lemma prefix_spec (sub s : string) :
  String.prefix sub s = true <-> exists post, s = (sub ++ post)%string.
Proof.
  revert s. induction sub as [|a sub IH]; intros s.
  - split; [intros _; now exists s | now destruct s].
  - destruct s as [|b s]; simpl.
    + split; [discriminate | intros [post H]; discriminate].
    + destruct (ascii_dec a b) as [->|Hne].
      * rewrite IH. split; intros [post H]; exists post; [now rewrite H | congruence].
      * split; [discriminate | intros [post H]; congruence].
Qed.

Lemma includes_spec (s sub : string) :
  JsString.includes s sub = true <-> occurs_in sub s.
Proof.
  unfold occurs_in. split.
  - induction s as [|c s IH]; cbn [JsString.includes].
    + destruct (String.prefix sub "") eqn:E; [|intros H; discriminate H].
      intros _. apply prefix_spec in E as [post E]. now exists "", post.
    + destruct (String.prefix sub (String c s)) eqn:E.
      * intros _. apply prefix_spec in E as [post E]. now exists "", post.
      * intros H. destruct (IH H) as [pre [post ->]].
        now exists (String c pre), post.
  - intros [pre [post ->]]. induction pre as [|c pre IH].
    + assert (E : String.prefix sub ("" ++ sub ++ post) = true)
        by (apply prefix_spec; now exists post).
      destruct ("" ++ sub ++ post)%string; cbn [JsString.includes]; now rewrite E.
    + change (String c pre ++ sub ++ post)%string
        with (String c (pre ++ sub ++ post)).
      cbn [JsString.includes]. rewrite IH.
      now destruct (String.prefix sub (String c (pre ++ sub ++ post))).
Qed.

Lemma chars_of_chars (l : list ascii) : JsString.chars (JsString.of_chars l) = l.
Proof. apply list_ascii_of_string_of_list_ascii. Qed.

Lemma drop_space_spec (l : list ascii) :
  exists ws,
    l = (ws ++ JsString.drop_space l)%list /\ all_space ws
    /\ (forall c rest, JsString.drop_space l = c :: rest ->
                       JsString.is_space c = false).
Proof.
  induction l as [|a l [ws [E [Hws Hhd]]]]; simpl.
  - exists []. repeat split; [constructor | discriminate].
  - destruct (JsString.is_space a) eqn:Ha.
    + exists (a :: ws). repeat split.
      * simpl. now f_equal.
      * now constructor.
      * exact Hhd.
    + exists []. repeat split; [constructor|].
      intros c rest H. now injection H as <- _.
Qed.

Lemma trim_spec (s : string) : trimmed_of s (JsString.trim s).
Proof.
  unfold trimmed_of, JsString.trim. rewrite chars_of_chars.
  destruct (drop_space_spec (JsString.chars s)) as [ws1 [E1 [H1 Hhd1]]].
  set (m := JsString.drop_space (JsString.chars s)) in *.
  destruct (drop_space_spec (rev m)) as [ws2 [E2 [H2 Hhd2]]].
  set (n := JsString.drop_space (rev m)) in *.
  assert (Em : m = (rev n ++ rev ws2)%list).
  { rewrite <- (rev_involutive m), E2. now rewrite rev_app_distr. }
  exists ws1, (rev ws2). repeat split.
  - now rewrite <- Em.
  - exact H1.
  - now apply Forall_rev.
  - intros c rest H. apply (Hhd1 c (rest ++ rev ws2)%list).
    now rewrite Em, H.
  - intros body c H. apply (Hhd2 c (rev body)).
    rewrite <- (rev_involutive n), H, rev_app_distr. reflexivity.
Qed.

(** ** Guesses that are not the word *)



(** ** The equations of [startTurn] *)

Lemma startTurn_from_eq (n : nat) (u : unit_draw) (room : Room) :
  startTurn_from n u room
  = let retry :=
      if (roundNumber (advance room) <=? totalRounds (advance room))%Z then
        match n with
        | S n' => startTurn_from n' u (advance room)
        | O => (advance room, [])
        end
      else (advance room, []) in
    if (totalRounds (advance room) <? roundNumber (advance room))%Z
    then endGame (advance room)
    else
      match currentDrawer (advance room) with
      | Some d =>
          match JsMap.get (players (advance room)) d with
          | Some drawer => begin_turn u (advance room) d drawer
          | None => retry
          end
      | None => retry
      end.
Proof.
  destruct n; cbv beta iota zeta delta [startTurn_from advance begin_turn players_get];
    reflexivity.
Qed.

Lemma advance_frame (room : Room) :
  exists i,
    advance room
    = set_roundNumber (roundNumber room + 1) (set_currentDrawerIndex i room).
Proof.
  unfold advance. cbn [playerOrder currentDrawerIndex set_currentDrawerIndex].
  destruct (Z.of_nat (List.length (playerOrder room)) <=? currentDrawerIndex room + 1)%Z;
    eexists; reflexivity.
Qed.

(** The recursion of the source: with the rounds that are left as the
    measure, [startTurn] ends the game, begins a turn, or tries the next
    index. *)
Lemma startTurn_eq (u : unit_draw) (room : Room) :
  startTurn u room
  = if (totalRounds (advance room) <? roundNumber (advance room))%Z
    then endGame (advance room)
    else
      match currentDrawer (advance room) with
      | Some d =>
          match JsMap.get (players (advance room)) d with
          | Some drawer => begin_turn u (advance room) d drawer
          | None => startTurn u (advance room)
          end
      | None => startTurn u (advance room)
      end.
Proof.
  unfold startTurn at 1. rewrite startTurn_from_eq. cbv zeta.
  destruct (advance_frame room) as [i Ei].
  assert (Hr : roundNumber (advance room) = (roundNumber room + 1)%Z)
    by (now rewrite Ei).
  assert (Ht : totalRounds (advance room) = totalRounds room)
    by (now rewrite Ei).
  destruct (totalRounds (advance room) <? roundNumber (advance room))%Z eqn:E;
    [reflexivity|].
  apply Z.ltb_ge in E.
  assert (Hle : (roundNumber (advance room) <=? totalRounds (advance room))%Z = true)
    by (now apply Z.leb_le).
  rewrite Hle.
  assert (Hn : rounds_left room = S (rounds_left (advance room))).
  { unfold rounds_left. rewrite Hr, Ht in *. lia. }
  rewrite Hn. reflexivity.
Qed.

(** ** Hints *)

(** The thresholds as JavaScript computes them, on binary64 numbers, are the
    integer quotients used in [hintTimes_of]. *)
Lemma hint_thresholds_exact (tpt : Z) :
  (-1000 <= tpt <= 1000)%Z ->
  JsNumber.Math_floor (JsNumber.mul (JsNumber.of_Z tpt) JsNumber.lit_0_5)
  = (tpt / 2)%Z
  /\ JsNumber.Math_floor (JsNumber.mul (JsNumber.of_Z tpt) JsNumber.lit_0_25)
     = (tpt / 4)%Z.
Proof.
  intros Ht.
  assert (Hall :
    forallb
      (fun k =>
         let t := (Z.of_nat k - 1000)%Z in
         (JsNumber.Math_floor (JsNumber.mul (JsNumber.of_Z t) JsNumber.lit_0_5)
          =? t / 2)%Z
         && (JsNumber.Math_floor (JsNumber.mul (JsNumber.of_Z t) JsNumber.lit_0_25)
             =? t / 4)%Z)
      (seq 0 2001) = true) by (vm_compute; reflexivity).
  rewrite forallb_forall in Hall.
  specialize (Hall (Z.to_nat (tpt + 1000))).
  cbv zeta in Hall.
  replace (Z.of_nat (Z.to_nat (tpt + 1000)) - 1000)%Z with tpt in Hall by lia.
  assert (Hin : In (Z.to_nat (tpt + 1000)) (seq 0 2001)) by (apply in_seq; lia).
  apply Hall in Hin. apply andb_prop in Hin as [H2 H4].
  split; now apply Z.eqb_eq.
Qed.

Lemma getRandomWord_frame (u : unit_draw) (room : Room) :
  exists used, snd (getRandomWord u room) = set_usedWords used room.
Proof.
  unfold getRandomWord.
  destruct (List.length (available room) =? 0)%nat; eexists; reflexivity.
Qed.

Lemma begin_turn_hints (u : unit_draw) (room : Room) (d : string) (dr : Player.t) :
  let room' := fst (begin_turn u room d dr) in
  hintInterval room'
  = Some (mkHintClosure d (hintTimes_of (currentWord room') (timePerTurn room')))
  /\ turnActive room' = true
  /\ hintsRevealed room' = 0%Z
  /\ timeRemaining room' = timePerTurn room'
  /\ timePerTurn room' = timePerTurn room
  /\ timer room' = true.
Proof.
  unfold begin_turn.
  destruct (getRandomWord_frame u room) as [used E].
  destruct (getRandomWord u room) as [w r]. cbn [snd] in E. subst r.
  cbv zeta. room_simpl. repeat split.
Qed.

Lemma tiers_due_schedule (word : string) (tpt elapsed : Z) :
  let n := String.length (JsString.remove_spaces word) in
  (n <= 3 -> tiers_due word tpt elapsed = 0)
  /\ (3 < n <= 5 ->
      tiers_due word tpt elapsed = if (tpt <=? 2 * elapsed)%Z then 1 else 0)
  /\ (5 < n ->
      tiers_due word tpt elapsed
      = (if (tpt <=? 2 * elapsed)%Z then 1 else 0)
        + (if (3 * tpt <=? 4 * elapsed)%Z then 1 else 0)).
Proof.
  intros n. unfold tiers_due, hintTimes_of. fold n.
  assert (H2 : (tpt - tpt / 2 <=? elapsed)%Z = (tpt <=? 2 * elapsed)%Z).
  { apply eq_true_iff_eq. rewrite !Z.leb_le. Z.div_mod_to_equations. lia. }
  assert (H4 : (tpt - tpt / 4 <=? elapsed)%Z = (3 * tpt <=? 4 * elapsed)%Z).
  { apply eq_true_iff_eq. rewrite !Z.leb_le. Z.div_mod_to_equations. lia. }
  repeat split; intros Hn.
  - assert (E3 : (3 <? n)%nat = false) by (apply Nat.ltb_ge; lia).
    assert (E5 : (5 <? n)%nat = false) by (apply Nat.ltb_ge; lia).
    now rewrite E3, E5.
  - assert (E3 : (3 <? n)%nat = true) by (apply Nat.ltb_lt; lia).
    assert (E5 : (5 <? n)%nat = false) by (apply Nat.ltb_ge; lia).
    rewrite E3, E5. cbn [app filter]. rewrite H2.
    now destruct (tpt <=? 2 * elapsed)%Z.
  - assert (E3 : (3 <? n)%nat = true) by (apply Nat.ltb_lt; lia).
    assert (E5 : (5 <? n)%nat = true) by (apply Nat.ltb_lt; lia).
    rewrite E3, E5. cbn [app filter]. rewrite H2, H4.
    now destruct (tpt <=? 2 * elapsed)%Z, (3 * tpt <=? 4 * elapsed)%Z.
Qed.

Lemma hint_tick_reveals (room : Room) (hc : hint_closure) :
  turnActive room = true ->
  hintInterval room = Some hc ->
  hc_hintTimes hc = hintTimes_of (currentWord room) (timePerTurn room) ->
  let due :=
    Z.of_nat (tiers_due (currentWord room) (timePerTurn room)
                        (timePerTurn room - timeRemaining room)) in
  ((hintsRevealed room < due)%Z ->
   hintsRevealed (fst (hint_tick room)) = due
   /\ In (to_spectators (code room),
          hint_update (generateHint (currentWord room) due))
         (snd (hint_tick room)))
  /\ ((due <= hintsRevealed room)%Z -> hint_tick room = (room, [])).
Proof.
  intros Ha Hi Ht due. unfold hint_tick. rewrite Hi, Ha, Ht. cbn [negb].
  fold (tiers_due (currentWord room) (timePerTurn room)
                  (timePerTurn room - timeRemaining room)).
  fold due. split; intros H.
  - apply Z.ltb_lt in H. rewrite H. cbn [fst snd]. split; [reflexivity|].
    apply in_or_app. right. left. reflexivity.
  - apply Z.ltb_ge in H. now rewrite H.
Qed.



(** ** Settings *)

Lemma clamp_setting_bounds (v d lo hi : Z) :
  (lo <= hi)%Z -> (lo <= clamp_setting v d lo hi <= hi)%Z.
Proof. unfold clamp_setting. lia. Qed.

(** A room created with 100 rounds of 5 seconds and started by a request
    without settings plays with 100 rounds of 5 seconds. *)
Lemma start_game_unclamped :
  exists room',
    room_after start_without_settings "AAAA" = Some room'
    /\ state room' = playing
    /\ totalRounds room' = 100%Z /\ ~ (3 <= totalRounds room' <= 30)%Z
    /\ timePerTurn room' = 5%Z /\ ~ (15 <= timePerTurn room' <= 90)%Z.
Proof.
  eexists. split; [vm_compute; reflexivity|].
  cbn [state totalRounds timePerTurn]. repeat split; lia.
Qed.

(** C4, amended.  After a successful [start_game] (the requester is the
    host and the room has 2 players or more) the room is [playing];
    [totalRounds] is within 3 and 30 when the request carries a
    [totalRounds] other than 0, and [timePerTurn] is within 15 and 90 when
    it carries a [timePerTurn] other than 0.  A setting that the request
    does not carry, as in a request without settings, keeps the room's
    value, which [createRoom] stored as supplied (10 and 40 by default),
    without bounds. *)
Theorem start_game_settings :
  forall sid settings draws room,
    String.eqb sid (hostId room) = true ->
    2 <= JsMap.size (players room) ->
    let room' := fst (start_game_in sid settings draws room) in
    state room' = playing
    /\ (forall st v,
           settings = Some st -> Settings.totalRounds st = Some v -> v <> 0%Z ->
           (3 <= totalRounds room' <= 30)%Z)
    /\ (forall st v,
           settings = Some st -> Settings.timePerTurn st = Some v -> v <> 0%Z ->
           (15 <= timePerTurn room' <= 90)%Z)
    /\ ((settings = None
         \/ exists st, settings = Some st
                       /\ truthy (Settings.totalRounds st) = false) ->
        totalRounds room' = totalRounds room)
    /\ ((settings = None
         \/ exists st, settings = Some st
                       /\ truthy (Settings.timePerTurn st) = false) ->
        timePerTurn room' = timePerTurn room)
    /\ (forall c host hostName st,
           totalRounds (createRoom c host hostName st)
           = or_default (Settings.totalRounds st) 10
           /\ timePerTurn (createRoom c host hostName st)
              = or_default (Settings.timePerTurn st) 40).
Proof.
  intros sid settings draws room Hhost Hsize room'.
  assert (E : state room' = playing
              /\ totalRounds room' = totalRounds (apply_settings settings room)
              /\ timePerTurn room' = timePerTurn (apply_settings settings room)).
  { unfold room', start_game_in. rewrite Hhost. cbn [negb].
    assert (Hlt : (JsMap.size (players room) <? 2)%nat = false)
      by (apply Nat.ltb_ge; lia).
    rewrite Hlt. room_simpl. repeat split. }
  destruct E as [Es [Et Ep]]. rewrite Es, Et, Ep.
  split; [reflexivity|].
  split.
  { intros st v -> Hv Hnz. unfold apply_settings. rewrite Hv.
    assert (Ht : truthy (Some v) = true)
      by (simpl; apply negb_true_iff; now apply Z.eqb_neq).
    rewrite Ht.
    assert (B := clamp_setting_bounds v 10 3 30 ltac:(lia)).
    destruct (Settings.timePerTurn st) as [w|];
      [destruct (truthy (Some w))|];
      destruct (Settings.isChampionship st); exact B. }
  split.
  { intros st v -> Hv Hnz. unfold apply_settings. rewrite Hv.
    assert (Ht : truthy (Some v) = true)
      by (simpl; apply negb_true_iff; now apply Z.eqb_neq).
    rewrite Ht.
    assert (B := clamp_setting_bounds v 40 15 90 ltac:(lia)).
    destruct (Settings.totalRounds st) as [w|];
      [destruct (truthy (Some w))|];
      destruct (Settings.isChampionship st); exact B. }
  split.
  { intros [->|[st [-> Hf]]]; [reflexivity|]. unfold apply_settings.
    destruct (Settings.totalRounds st) as [w|]; [rewrite Hf|];
      (destruct (Settings.timePerTurn st) as [w'|];
       [destruct (truthy (Some w'))|]);
      destruct (Settings.isChampionship st); reflexivity. }
  split.
  { intros [->|[st [-> Hf]]]; [reflexivity|]. unfold apply_settings.
    destruct (Settings.timePerTurn st) as [w|]; [rewrite Hf|];
      (destruct (Settings.totalRounds st) as [w'|];
       [destruct (truthy (Some w'))|]);
      destruct (Settings.isChampionship st); reflexivity. }
  intros c host hostName st. split; reflexivity.
Qed.

Lemma start_game_settings_witness :
  (3 <= totalRounds
          (fst (start_game_in "A" (Some (Settings.mk (Some 100%Z) None None))
                  first_draws
                  (set_players [("A", Player.mk "Ann" 0); ("B", Player.mk "Bob" 0)]
                               fresh_room))) <= 30)%Z
  /\ timePerTurn
       (fst (start_game_in "A" (Some (Settings.mk (Some 100%Z) None None))
               first_draws
               (set_players [("A", Player.mk "Ann" 0); ("B", Player.mk "Bob" 0)]
                            fresh_room))) = 40%Z.
Proof.
  pose proof (start_game_settings "A" (Some (Settings.mk (Some 100%Z) None None))
                first_draws
                (set_players [("A", Player.mk "Ann" 0); ("B", Player.mk "Bob" 0)]
                             fresh_room)
                eq_refl (le_n 2)) as [_ [Hr [_ [_ [Ht _]]]]].
  split.
  - apply (Hr (Settings.mk (Some 100%Z) None None) 100%Z eq_refl eq_refl).
    discriminate.
  - rewrite Ht; [reflexivity|]. right.
    exists (Settings.mk (Some 100%Z) None None). split; reflexivity.
Defined.

(** ** Disconnects *)

Lemma array_get_In (a : list string) (i : Z) (x : string) :
  array_get a i = Some x -> In x a.
Proof.
  unfold array_get. destruct (i <? 0)%Z; [discriminate|]. apply nth_error_In.
Qed.

(** Once the leaving player is filtered out of [playerOrder], no index of
    [playerOrder] holds its id. *)
Lemma filtered_order_not_id (order : list string) (i : Z) (sid : string) :
  is_id (array_get (filter (fun id => negb (String.eqb id sid)) order) i) sid
  = false.
Proof.
  destruct (array_get _ i) as [x|] eqn:E; [|reflexivity].
  apply array_get_In, filter_In in E as [_ E].
  cbn [is_id]. now apply negb_true_iff in E.
Qed.

Lemma endGame_frame (room : Room) :
  players (fst (endGame room)) = players room
  /\ spectators (fst (endGame room)) = spectators room
  /\ correctGuessers (fst (endGame room)) = correctGuessers room
  /\ turnActive (fst (endGame room)) = turnActive room
  /\ state (fst (endGame room)) = finished
  /\ timer (fst (endGame room)) = false
  /\ hintInterval (fst (endGame room)) = None
  /\ pending (fst (endGame room)) = pending room
  /\ forall e, In e (snd (endGame room)) ->
               is_turn_end e = false /\ is_turn_start e = false.
Proof.
  repeat split; destruct H as [<-|[<-|[]]]; reflexivity.
Qed.

(** The [disconnect] handler on a player of the room, with the test of the
    drawer resolved: [endTurn] is not called. *)
Lemma disconnect_in_player (sid : string) (room : Room) (player : Player.t) :
  JsMap.get (players room) sid = Some player ->
  let r1 :=
    set_playerOrder
      (filter (fun id => negb (String.eqb id sid)) (playerOrder room))
      (set_players (JsMap.delete (players room) sid) room) in
  let ends :=
    room_state_eqb (state room) playing
    && (JsMap.size (JsMap.delete (players room) sid) <? 2)%nat in
  let r2 := if ends then fst (endGame r1) else r1 in
  let empty :=
    (JsMap.size (JsMap.delete (players room) sid) =? 0)%nat
    && (JsMap.size (spectators room) =? 0)%nat in
  let r3 := if empty then set_hintInterval None (set_timer false r2) else r2 in
  exists r4 out,
    disconnect_in sid false room = (r4, out, empty)
    /\ (r4 = r3 \/ exists h, r4 = set_hostId h r3)
    /\ forall e, In e out -> is_turn_end e = false /\ is_turn_start e = false.
Proof.
  intros Hp r1 ends r2 empty r3.
  unfold disconnect_in. rewrite Hp. room_simpl.
  unfold currentDrawer. room_simpl. rewrite filtered_order_not_id.
  rewrite andb_false_r. fold r1.
  change (state r1) with (state room).
  change (players r1) with (JsMap.delete (players room) sid).
  fold ends.
  assert (E2 : (if ends then endGame r1 else (r1, []))
               = (r2, if ends then snd (endGame r1) else [])).
  { unfold r2. destruct ends; [apply surjective_pairing | reflexivity]. }
  rewrite E2.
  assert (Hp2 : players r2 = JsMap.delete (players room) sid
                /\ spectators r2 = spectators room).
  { unfold r2. destruct ends; split; reflexivity. }
  destruct Hp2 as [Hp2 Hs2]. rewrite Hp2, Hs2. fold empty.
  assert (E3 : (if empty then (set_hintInterval None (set_timer false r2), true)
                else (r2, false)) = (r3, empty)).
  { unfold r3. now destruct empty. }
  rewrite E3.
  assert (Hout2 : forall e, In e (if ends then snd (endGame r1) else []) ->
                            is_turn_end e = false /\ is_turn_start e = false).
  { destruct ends; [apply endGame_frame | intros e []]. }
  destruct (JsMap.keys (players r3)) as [|first rest].
  - exists r3, ([(to_room (code r1),
                  player_left (Player.name player) (getPlayerList r1))]
                ++ [] ++ (if ends then snd (endGame r1) else []) ++ [])%list.
    split; [reflexivity|]. split; [now left|].
    intros e He. cbn [app] in He. destruct He as [<-|He]; [now split|].
    rewrite app_nil_r in He. now apply Hout2.
  - destruct (String.eqb sid (hostId r3)).
    + eexists. eexists. split; [reflexivity|]. split; [right; now eexists|].
      intros e He. cbn [app] in He. destruct He as [<-|He]; [now split|].
      apply in_app_or in He as [He|[<-|[]]]; [now apply Hout2 | now split].
    + eexists. eexists. split; [reflexivity|]. split; [now left|].
      intros e He. cbn [app] in He. destruct He as [<-|He]; [now split|].
      rewrite app_nil_r in He. now apply Hout2.
Qed.

Lemma get_delete_same {V : Type} (m : JsMap.t V) (k : string) :
  JsMap.get (JsMap.delete m k) k = None.
Proof.
  unfold JsMap.delete. induction m as [|[k' v] m IH]; simpl; [reflexivity|].
  destruct (String.eqb k k') eqn:E; simpl; [exact IH | now rewrite E].
Qed.

Lemma disconnect_in_turnActive (sid : string) (room : Room) (player : Player.t) :
  JsMap.get (players room) sid = Some player ->
  turnActive (fst (fst (disconnect_in sid false room))) = turnActive room
  /\ forall e, In e (snd (fst (disconnect_in sid false room))) ->
               is_turn_end e = false.
Proof.
  intros Hp.
  destruct (disconnect_in_player sid room player Hp) as [r4 [out [E [Hr Hout]]]].
  cbv zeta in E, Hr. rewrite E. cbn [fst snd]. split.
  - destruct Hr as [->|[h ->]]; room_simpl;
      repeat match goal with
             | |- context [if ?b then _ else _] => destruct b
             end; reflexivity.
  - intros e He. now apply Hout.
Qed.

(** C1 (not met by the code).  The [disconnect] handler removes the leaving
    player from [playerOrder] before it compares
    [playerOrder[currentDrawerIndex]] with the leaving player's id, so the
    comparison never holds: for no player does the handler call [endTurn].
    When Bob, who is drawing in a game of three, disconnects, the turn stays
    active, both intervals keep running and no [turn_end] is sent. *)
Theorem drawer_disconnect_turn_goes_on :
  (forall sid room player,
      JsMap.get (players room) sid = Some player ->
      turnActive (fst (fst (disconnect_in sid false room))) = turnActive room
      /\ forall e, In e (snd (fst (disconnect_in sid false room))) ->
                   is_turn_end e = false)
  /\ exists before after,
       room_after three_player_start "AAAA" = Some before
       /\ state before = playing
       /\ turnActive before = true
       /\ currentDrawer before = Some "B"
       /\ room_after (three_player_start ++ [disconnect "B"]) "AAAA" = Some after
       /\ state after = playing
       /\ turnActive after = true
       /\ timer after = true
       /\ hintInterval after = hintInterval before
       /\ hintInterval after <> None
       /\ existsb is_turn_end
            (snd (step (disconnect "B") (fst (run three_player_start empty_server))))
          = false.
Proof.
  split; [exact disconnect_in_turnActive|].
  eexists. eexists.
  split; [vm_compute; reflexivity|].
  split; [reflexivity|]. split; [reflexivity|]. split; [reflexivity|].
  split; [vm_compute; reflexivity|].
  split; [reflexivity|]. split; [reflexivity|]. split; [reflexivity|].
  split; [reflexivity|]. split; [discriminate|].
  vm_compute. reflexivity.
Qed.

(** C3 (not met by the code).  When a player leaves and the room is left
    with no player and no spectator, the handler cancels both intervals and
    removes the room from the registry.  When a spectator leaves, the
    handler returns after updating the spectators and never removes the
    room: a room whose last participant was a spectator stays in the
    registry with no player and no spectator. *)
Theorem spectator_disconnect_keeps_empty_room :
  (forall sid room player,
      JsMap.get (players room) sid = Some player ->
      JsMap.size (JsMap.delete (players room) sid) = 0 ->
      JsMap.size (spectators room) = 0 ->
      snd (disconnect_in sid false room) = true
      /\ timer (fst (fst (disconnect_in sid false room))) = false
      /\ hintInterval (fst (fst (disconnect_in sid false room))) = None)
  /\ (forall sid s c cd room player,
         JsMap.get (sockets s) sid = Some c ->
         currentRoom c = Some cd ->
         isSpectator c = false ->
         JsMap.get (rooms s) cd = Some room ->
         JsMap.get (players room) sid = Some player ->
         JsMap.size (JsMap.delete (players room) sid) = 0 ->
         JsMap.size (spectators room) = 0 ->
         JsMap.get (rooms (fst (on_disconnect sid s))) cd = None)
  /\ (forall sid room, snd (disconnect_in sid true room) = false)
  /\ exists before after,
       room_after [ connection "A";
                    create_room "A" "Ann" None None None first_draws;
                    connection "S"; join_room "S" "AAAA" "Sue" true;
                    disconnect "A" ] "AAAA" = Some before
       /\ players before = []
       /\ JsMap.keys (spectators before) = ["S"]
       /\ room_after spectator_leaves_last "AAAA" = Some after
       /\ players after = []
       /\ spectators after = [].
Proof.
  assert (H1 : forall sid room player,
             JsMap.get (players room) sid = Some player ->
             JsMap.size (JsMap.delete (players room) sid) = 0 ->
             JsMap.size (spectators room) = 0 ->
             snd (disconnect_in sid false room) = true
             /\ timer (fst (fst (disconnect_in sid false room))) = false
             /\ hintInterval (fst (fst (disconnect_in sid false room))) = None).
  { intros sid room player Hp Hn Hs.
    destruct (disconnect_in_player sid room player Hp) as [r4 [out [E [Hr _]]]].
    cbv zeta in E, Hr. rewrite Hn, Hs in E, Hr. cbn [Nat.eqb andb] in E, Hr.
    rewrite E. cbn [fst snd]. split; [reflexivity|].
    destruct Hr as [->|[h ->]]; split; reflexivity. }
  split; [exact H1|].
  split.
  { intros sid s c cd room player Hc Hcd Hsp Hr Hp Hn Hs.
    unfold on_disconnect. rewrite Hc, Hcd, Hr, Hsp.
    destruct (H1 sid room player Hp Hn Hs) as [Hd _].
    destruct (disconnect_in sid false room) as [[r out] deleted].
    cbn [snd] in Hd. subst deleted. cbn [fst rooms].
    apply get_delete_same. }
  split; [reflexivity|].
  eexists. eexists.
  split; [vm_compute; reflexivity|].
  split; [reflexivity|]. split; [reflexivity|].
  split; [vm_compute; reflexivity|].
  split; reflexivity.
Qed.

Lemma disconnect_in_finishes (sid : string) (room : Room) (player : Player.t) :
  JsMap.get (players room) sid = Some player ->
  state room = playing ->
  JsMap.size (JsMap.delete (players room) sid) < 2 ->
  state (fst (fst (disconnect_in sid false room))) = finished.
Proof.
  intros Hp Hs Hn.
  destruct (disconnect_in_player sid room player Hp) as [r4 [out [E [Hr _]]]].
  cbv zeta in E, Hr. rewrite E. cbn [fst].
  apply Nat.ltb_lt in Hn. rewrite Hs, Hn in Hr. cbn [room_state_eqb andb] in Hr.
  destruct Hr as [->|[h ->]]; room_simpl;
    repeat match goal with
           | |- context [if ?b then _ else _] => destruct b
           end; reflexivity.
Qed.

(** C9 (not met by the code).  A disconnect that leaves a playing room with
    fewer than 2 players makes it [finished] in the same step, and the
    callback that [endTurn] defers does nothing on a finished room.  The
    callback that [start_game] defers calls [startTurn] without looking at
    the state: when Bob leaves during the delay before the first turn, the
    room is finished, and once the delay has passed a turn starts in it
    with Ann alone. *)
Theorem first_turn_starts_after_game_over :
  (forall sid room player,
      JsMap.get (players room) sid = Some player ->
      state room = playing ->
      JsMap.size (JsMap.delete (players room) sid) < 2 ->
      state (fst (fst (disconnect_in sid false room))) = finished)
  /\ (forall u room,
         state room = finished -> run_callback next_turn u room = (room, []))
  /\ exists over again out,
       room_after leave_during_grace "AAAA" = Some over
       /\ state over = finished
       /\ JsMap.keys (players over) = ["A"]
       /\ pending over = [(first_turn, 2000%Z)]
       /\ fire 0 (mkDraw 0 0) over = (again, out)
       /\ state again = playing
       /\ turnActive again = true
       /\ timer again = true
       /\ currentDrawer again = Some "A"
       /\ existsb is_turn_start out = true.
Proof.
  split; [exact disconnect_in_finishes|].
  split.
  { intros u room Hs. unfold run_callback. now rewrite Hs. }
  eexists. eexists. eexists.
  split; [vm_compute; reflexivity|].
  split; [reflexivity|]. split; [reflexivity|]. split; [reflexivity|].
  split; [vm_compute; reflexivity|].
  repeat split.
Qed.

(** ** The members of [correctGuessers] between disconnects *)

Lemma keys_set_absent {V : Type} (m : JsMap.t V) (k : string) (v : V) :
  JsMap.get m k = None -> JsMap.keys (JsMap.set m k v) = (JsMap.keys m ++ [k])%list.
Proof.
  unfold JsMap.keys. induction m as [|[k' v'] m IH]; simpl; [reflexivity|].
  destruct (String.eqb k k'); [discriminate|].
  intros H. simpl. now rewrite IH.
Qed.

Lemma keys_set_incl {V : Type} (m : JsMap.t V) (k : string) (v : V) :
  incl (JsMap.keys m) (JsMap.keys (JsMap.set m k v)).
Proof.
  destruct (JsMap.get m k) as [v0|] eqn:E.
  - rewrite (keys_set_present m k v v0 E). apply incl_refl.
  - rewrite (keys_set_absent m k v E). now apply incl_appl, incl_refl.
Qed.

Lemma keys_set_NoDup {V : Type} (m : JsMap.t V) (k : string) (v : V) :
  NoDup (JsMap.keys m) -> NoDup (JsMap.keys (JsMap.set m k v)).
Proof.
  intros H. destruct (JsMap.get m k) as [v0|] eqn:E.
  - now rewrite (keys_set_present m k v v0 E).
  - rewrite (keys_set_absent m k v E).
    apply NoDup_rev in H. rewrite <- (rev_involutive (JsMap.keys m ++ [k])).
    apply NoDup_rev. rewrite rev_app_distr. cbn [rev app]. constructor; [|exact H].
    rewrite <- in_rev. intros Hin.
    apply In_keys_get in Hin as [v0 Hv]. congruence.
Qed.

Lemma get_set_cases {V : Type} (m : JsMap.t V) (k c : string) (v r : V) :
  JsMap.get (JsMap.set m k v) c = Some r -> r = v \/ JsMap.get m c = Some r.
Proof.
  destruct (string_dec k c) as [->|Hne].
  - rewrite get_set_same. intros H. left. congruence.
  - rewrite get_set_other by exact Hne. now right.
Qed.

(** A room that differs from one with the invariant in other fields only. *)
Lemma room_inv_same (room room' : Room) :
  correctGuessers room' = correctGuessers room ->
  JsMap.keys (players room') = JsMap.keys (players room) ->
  state room' = state room ->
  turnActive room' = turnActive room ->
  currentDrawer room' = currentDrawer room ->
  room_inv room -> room_inv room'.
Proof.
  unfold room_inv. intros -> -> -> -> ->. trivial.
Qed.

Lemma room_inv_endTurn (room : Room) (b : bool) :
  room_inv room -> room_inv (fst (endTurn room b)).
Proof.
  unfold room_inv. intros [H1 [H2 [H3 [H4 H5]]]].
  change (correctGuessers (fst (endTurn room b))) with (correctGuessers room).
  change (players (fst (endTurn room b))) with (players room).
  change (state (fst (endTurn room b))) with (state room).
  change (turnActive (fst (endTurn room b))) with false.
  change (currentDrawer (fst (endTurn room b))) with (currentDrawer room).
  split; [exact H1|]. split; [exact H2|]. split; [exact H3|]. split.
  - intros Hs. split; [now apply H4 | reflexivity].
  - intros Hs. destruct (H5 Hs) as [[Hd [Hc [_ Hk]]]|Hturn]; [left | right]; tauto.
Qed.

Lemma room_inv_endGame (room : Room) (i k : Z) :
  room_inv room ->
  room_inv (fst (endGame (set_roundNumber k (set_currentDrawerIndex i room)))).
Proof.
  unfold room_inv. intros [H1 [H2 [H3 _]]].
  split; [exact H1|]. split; [exact H2|]. split; [exact H3|].
  split; room_simpl; discriminate.
Qed.

Lemma begin_turn_frame (u : unit_draw) (room : Room) (d : string) (dr : Player.t) :
  let room' := fst (begin_turn u room d dr) in
  players room' = players room
  /\ correctGuessers room' = []
  /\ state room' = playing
  /\ turnActive room' = true
  /\ currentDrawer room' = currentDrawer room
  /\ forall e, In e (snd (begin_turn u room d dr)) -> is_turn_end e = false.
Proof.
  unfold begin_turn.
  destruct (getRandomWord_frame u room) as [used E].
  destruct (getRandomWord u room) as [w r]. cbn [snd] in E. subst r.
  cbv zeta. room_simpl. repeat split.
  intros e [<-|[<-|[<-|[]]]]; reflexivity.
Qed.

Lemma room_inv_begin_turn (u : unit_draw) (room : Room) (i k : Z)
      (d : string) (dr : Player.t) :
  room_inv room ->
  currentDrawer (set_roundNumber k (set_currentDrawerIndex i room)) = Some d ->
  JsMap.get (players room) d = Some dr ->
  room_inv (fst (begin_turn u (set_roundNumber k (set_currentDrawerIndex i room)) d dr)).
Proof.
  intros [_ [_ [H3 _]]] Hd Hp.
  destruct (begin_turn_frame u (set_roundNumber k (set_currentDrawerIndex i room)) d dr)
    as [Ep [Ec [Es [Ea [Ed _]]]]].
  cbv zeta in *. unfold room_inv. rewrite Ep, Ec, Es, Ea, Ed. room_simpl.
  split; [constructor|]. split; [intros x []|]. split; [exact H3|].
  split; [discriminate|].
  intros _. right. exists d. split; [exact Hd|]. split.
  - now apply get_In_keys with dr.
  - intros [].
Qed.

(** [startTurn] ends the game or begins a turn for a drawer who is in the
    room; the index and the round are all it changed before. *)
Lemma startTurn_result (u : unit_draw) (n : nat) :
  forall room,
    rounds_left room <= n ->
    exists i k,
      startTurn u room
      = endGame (set_roundNumber k (set_currentDrawerIndex i room))
      \/ exists d dr,
           currentDrawer (set_roundNumber k (set_currentDrawerIndex i room)) = Some d
           /\ JsMap.get (players room) d = Some dr
           /\ startTurn u room
              = begin_turn u (set_roundNumber k (set_currentDrawerIndex i room)) d dr.
Proof.
  induction n as [|n IH]; intros room Hn; rewrite startTurn_eq;
    destruct (advance_frame room) as [i Ei]; rewrite Ei.
  - exists i, (roundNumber room + 1)%Z. left.
    assert (E : (totalRounds (set_roundNumber (roundNumber room + 1)
                                (set_currentDrawerIndex i room))
                 <? roundNumber (set_roundNumber (roundNumber room + 1)
                                   (set_currentDrawerIndex i room)))%Z = true).
    { room_simpl. apply Z.ltb_lt. unfold rounds_left in Hn. lia. }
    now rewrite E.
  - set (r1 := set_roundNumber (roundNumber room + 1) (set_currentDrawerIndex i room)).
    destruct (totalRounds r1 <? roundNumber r1)%Z eqn:E.
    { exists i, (roundNumber room + 1)%Z. now left. }
    assert (Hr1 : rounds_left r1 <= n).
    { apply Z.ltb_ge in E. unfold rounds_left in *. unfold r1 in *.
      room_simpl. room_simpl in E. lia. }
    destruct (IH r1 Hr1) as [i' [k' Hrec]].
    change (set_roundNumber k' (set_currentDrawerIndex i' r1))
      with (set_roundNumber k' (set_currentDrawerIndex i' room)) in Hrec.
    change (players r1) with (players room) in Hrec.
    destruct (currentDrawer r1) as [d|] eqn:Ed.
    + change (players r1) with (players room).
      destruct (JsMap.get (players room) d) as [dr|] eqn:Ep.
      * exists i, (roundNumber room + 1)%Z. right. exists d, dr. now repeat split.
      * exists i', k'. exact Hrec.
    + exists i', k'. exact Hrec.
Qed.

Lemma room_inv_startTurn (u : unit_draw) (room : Room) :
  room_inv room -> room_inv (fst (startTurn u room)).
Proof.
  intros H.
  destruct (startTurn_result u (rounds_left room) room (le_n _))
    as [i [k [E|[d [dr [Hd [Hp E]]]]]]]; rewrite E.
  - now apply room_inv_endGame.
  - now apply room_inv_begin_turn.
Qed.

(** [handleGuess] leaves the room as it is, or the guess is a correct one
    of a player who may guess. *)
Lemma handleGuess_cases (room : Room) (playerId text : string) :
  fst (handleGuess room playerId text) = room
  \/ exists player,
       turnActive room = true
       /\ is_id (currentDrawer room) playerId = false
       /\ JsSet.has (correctGuessers room) playerId = false
       /\ JsMap.get (players room) playerId = Some player
       /\ JsString.toLowerCase (JsString.trim text)
          = JsString.toLowerCase (JsString.trim (currentWord room)).
Proof.
  unfold handleGuess.
  destruct (turnActive room) eqn:Ha; [|now left]. cbn [negb].
  destruct (is_id (currentDrawer room) playerId) eqn:Hd; [now left|].
  destruct (JsSet.has (correctGuessers room) playerId) eqn:Hg; [now left|].
  destruct (JsMap.get (players room) playerId) as [player|] eqn:Hp; [|now left].
  destruct (String.eqb _ _) eqn:He; [|now left].
  right. exists player. apply String.eqb_eq in He. now repeat split.
Qed.

(** The fields of the room after a correct guess. *)
Lemma handleGuess_correct_fields (room : Room) (playerId text : string)
      (player : Player.t) :
  turnActive room = true ->
  is_id (currentDrawer room) playerId = false ->
  JsSet.has (correctGuessers room) playerId = false ->
  JsMap.get (players room) playerId = Some player ->
  JsString.toLowerCase (JsString.trim text)
    = JsString.toLowerCase (JsString.trim (currentWord room)) ->
  let room' := fst (handleGuess room playerId text) in
  correctGuessers room' = (correctGuessers room ++ [playerId])%list
  /\ JsMap.keys (players room') = JsMap.keys (players room)
  /\ state room' = state room
  /\ currentDrawer room' = currentDrawer room.
Proof.
  intros Ha Hd Hg Hp He room'.
  pose proof (handleGuess_correct room playerId text player Ha Hd Hg Hp He) as E.
  cbv zeta in E.
  set (t := timeRatio_of (timeRemaining room) (timePerTurn room)) in *.
  set (r := Z.of_nat (S (JsSet.size (correctGuessers room)))) in *.
  set (room1 := add_score playerId (guesserPoints t r)
                  (set_correctGuessers (correctGuessers room ++ [playerId])%list room)) in *.
  set (room2 := match currentDrawer room with
                | Some d => add_score d (drawerPoints t) room1
                | None => room1
                end) in *.
  assert (F1 : correctGuessers room1 = (correctGuessers room ++ [playerId])%list
               /\ JsMap.keys (players room1) = JsMap.keys (players room)
               /\ state room1 = state room
               /\ currentDrawer room1 = currentDrawer room).
  { unfold room1.
    destruct (add_score_frame
                (set_correctGuessers (correctGuessers room ++ [playerId])%list room)
                playerId (guesserPoints t r))
      as [A1 [_ [A3 [A4 [_ [A6 A7]]]]]].
    unfold currentDrawer. rewrite A1, A3, A4, A6, A7. room_simpl.
    now repeat split. }
  assert (F2 : correctGuessers room2 = (correctGuessers room ++ [playerId])%list
               /\ JsMap.keys (players room2) = JsMap.keys (players room)
               /\ state room2 = state room
               /\ currentDrawer room2 = currentDrawer room).
  { unfold room2. destruct (currentDrawer room) as [d|] eqn:Hcd; [|exact F1].
    destruct (add_score_frame room1 d (drawerPoints t))
      as [A1 [_ [A3 [A4 [_ [A6 A7]]]]]].
    unfold currentDrawer. rewrite A1, A3, A4, A6, A7.
    fold (currentDrawer room1). exact F1. }
  unfold room'. rewrite E.
  destruct (nonDrawerCount room2 <=? JsSet.size (correctGuessers room2))%nat;
    exact F2.
Qed.

Lemma NoDup_snoc (l : list string) (x : string) :
  NoDup l -> ~ In x l -> NoDup (l ++ [x]).
Proof.
  intros Hl Hx. apply NoDup_rev in Hl. rewrite <- (rev_involutive (l ++ [x])).
  apply NoDup_rev. rewrite rev_app_distr. cbn [rev app].
  constructor; [now rewrite <- in_rev | exact Hl].
Qed.

Lemma room_inv_handleGuess (room : Room) (playerId text : string) :
  room_inv room -> room_inv (fst (handleGuess room playerId text)).
Proof.
  intros Hinv.
  destruct (handleGuess_cases room playerId text)
    as [->|[player [Ha [Hd [Hg [Hp He]]]]]]; [exact Hinv|].
  destruct (handleGuess_correct_fields room playerId text player Ha Hd Hg Hp He)
    as [G1 [G2 [G3 G5]]].
  destruct Hinv as [H1 [H2 [H3 [H4 H5]]]].
  assert (Hin : In playerId (JsMap.keys (players room)))
    by (now apply get_In_keys with player).
  apply has_false_not_In in Hg.
  unfold room_inv. rewrite G1, G2, G3, G5.
  split; [now apply NoDup_snoc|].
  split.
  { intros x Hx. apply in_app_or in Hx as [Hx|[<-|[]]]; [now apply H2 | exact Hin]. }
  split; [exact H3|].
  split.
  { intros Hs. destruct (H4 Hs) as [_ Hf]. congruence. }
  intros Hs. destruct (H5 Hs) as [[_ [_ [Hf _]]]|[d [Hcd [Hdk Hdc]]]]; [congruence|].
  right. exists d. split; [exact Hcd|]. split; [exact Hdk|].
  intros Hx. apply in_app_or in Hx as [Hx|[Hx|[]]]; [contradiction|].
  subst d. rewrite Hcd in Hd. cbn [is_id] in Hd.
  now rewrite String.eqb_refl in Hd.
Qed.

Lemma room_inv_timer_tick (room : Room) :
  room_inv room -> room_inv (fst (timer_tick room)).
Proof.
  intros H. unfold timer_tick. destruct (timer room); [|exact H].
  room_simpl.
  assert (H' : room_inv (set_timeRemaining (timeRemaining room - 1) room))
    by (now apply room_inv_same with room).
  destruct (timeRemaining room - 1 <=? 0)%Z; [|exact H'].
  pose proof (room_inv_endTurn (set_timeRemaining (timeRemaining room - 1) room) false H') as H2.
  destruct (endTurn _ false). exact H2.
Qed.

Lemma room_inv_hint_tick (room : Room) :
  room_inv room -> room_inv (fst (hint_tick room)).
Proof.
  intros H. unfold hint_tick.
  destruct (hintInterval room); [|exact H].
  destruct (negb (turnActive room)); [exact H|].
  match goal with |- context [if ?b then _ else _] => destruct b end; [|exact H].
  cbn [fst]. now apply room_inv_same with room.
Qed.

Lemma room_inv_fire (i : nat) (u : unit_draw) (room : Room) :
  room_inv room -> room_inv (fst (fire i u room)).
Proof.
  intros H. unfold fire.
  destruct (nth_error (pending room) i) as [[cb delay]|]; [|exact H].
  assert (H' : room_inv (set_pending (remove_nth i (pending room)) room))
    by (now apply room_inv_same with room).
  unfold run_callback. destruct cb.
  - now apply room_inv_startTurn.
  - match goal with |- context [if ?b then _ else _] => destruct b end;
      [now apply room_inv_startTurn | exact H'].
Qed.

Lemma apply_settings_frame (settings : option Settings.t) (room : Room) :
  correctGuessers (apply_settings settings room) = correctGuessers room
  /\ players (apply_settings settings room) = players room
  /\ turnActive (apply_settings settings room) = turnActive room.
Proof.
  unfold apply_settings. destruct settings as [st|]; [|now repeat split].
  destruct (Settings.totalRounds st) as [v|]; [destruct (truthy (Some v))|];
    (destruct (Settings.timePerTurn st) as [w|]; [destruct (truthy (Some w))|]);
    destruct (Settings.isChampionship st); now repeat split.
Qed.

Lemma room_inv_start_game_in (sid : string) (settings : option Settings.t)
      (draws : nat -> unit_draw) (room : Room) :
  room_inv room -> state room = lobby ->
  room_inv (fst (start_game_in sid settings draws room)).
Proof.
  intros H Hs. unfold start_game_in.
  destruct (negb (String.eqb sid (hostId room))); [exact H|].
  destruct (JsMap.size (players room) <? 2)%nat eqn:Hn; [exact H|].
  cbn [fst]. destruct H as [H1 [H2 [H3 [H4 H5]]]].
  destruct (H4 Hs) as [Hc Ha].
  destruct (apply_settings_frame settings room) as [Ec [Ep Et]].
  unfold room_inv, currentDrawer. room_simpl. rewrite Ec, Ep, Et.
  split; [exact H1|]. split; [exact H2|]. split; [exact H3|].
  split; [discriminate|].
  intros _. left. split; [reflexivity|]. split; [exact Hc|]. split; [exact Ha|].
  apply Nat.ltb_ge in Hn. unfold JsMap.size, JsMap.keys in *.
  destruct (players room); [simpl in Hn; lia | discriminate].
Qed.

Lemma room_inv_join (sid : string) (p : Player.t) (room : Room) :
  room_inv room -> state room = lobby ->
  room_inv (set_players (JsMap.set (players room) sid p) room).
Proof.
  intros [H1 [H2 [H3 [H4 H5]]]] Hs. unfold room_inv, currentDrawer. room_simpl.
  split; [exact H1|].
  split; [eapply incl_tran; [exact H2 | apply keys_set_incl]|].
  split; [now apply keys_set_NoDup|].
  split; [exact H4|].
  intros Hp. congruence.
Qed.

Lemma room_inv_created (c sid nm : string) (st : Settings.t) (p : Player.t) :
  room_inv (set_players (JsMap.set (players (createRoom c sid nm st)) sid p)
                        (createRoom c sid nm st)).
Proof.
  unfold room_inv, currentDrawer. room_simpl. cbn.
  split; [constructor|]. split; [intros x []|].
  split; [repeat constructor; intros []|].
  split; [now split | discriminate].
Qed.

Lemma get_delete_some {V : Type} (m : JsMap.t V) (k c : string) (r : V) :
  JsMap.get (JsMap.delete m k) c = Some r -> JsMap.get m c = Some r.
Proof.
  unfold JsMap.delete. induction m as [|[k' v] m IH]; cbn [filter fst JsMap.get];
    [discriminate|].
  destruct (String.eqb k k') eqn:E; cbn [negb JsMap.get].
  - intros H. destruct (String.eqb c k') eqn:E'; [|now apply IH].
    apply String.eqb_eq in E, E'. subst k' c.
    change (JsMap.get (JsMap.delete m k) k = Some r) in H.
    now rewrite get_delete_same in H.
  - destruct (String.eqb c k'); [trivial | exact IH].
Qed.

Lemma run_cons_fst (ev : input) (evs : list input) (s : Server) :
  fst (run (ev :: evs) s) = fst (run evs (fst (step ev s))).
Proof.
  cbn [run]. destruct (step ev s) as [s1 o1]. cbn [fst].
  now destruct (run evs s1).
Qed.

(** *** Properties of rooms kept by the server

    A property of rooms that every operation on a room keeps is kept for
    every room of the registry by every step of the server. *)

Section RoomsOfTheRegistry.

Variable P : Room -> Prop.
Variable startable : Room -> Prop.
Variable leaving : Prop.

Hypothesis P_created :
  forall c sid nm st p,
    P (set_players (JsMap.set (players (createRoom c sid nm st)) sid p)
                   (createRoom c sid nm st)).
Hypothesis P_spectators :
  forall room sp, P room -> P (set_spectators sp room).
Hypothesis P_join :
  forall room sid p,
    P room -> state room = lobby -> JsMap.size (players room) < 10 ->
    P (set_players (JsMap.set (players room) sid p) room).
Hypothesis P_start_game :
  forall sid settings draws room,
    P room -> startable room -> P (fst (start_game_in sid settings draws room)).
Hypothesis P_drawing :
  forall room data, P room -> P (set_drawingData data room).
Hypothesis P_handleGuess :
  forall room sid text, P room -> P (fst (handleGuess room sid text)).
Hypothesis P_endTurn :
  forall room b, P room -> P (fst (endTurn room b)).
Hypothesis P_timer_tick : forall room, P room -> P (fst (timer_tick room)).
Hypothesis P_hint_tick : forall room, P room -> P (fst (hint_tick room)).
Hypothesis P_fire : forall i u room, P room -> P (fst (fire i u room)).
Hypothesis P_disconnect :
  leaving ->
  forall sid sp room, P room -> P (fst (fst (disconnect_in sid sp room))).

Lemma all_rooms_set (s : Server) (k : string) (room : Room)
      (conns : JsMap.t conn) :
  all_rooms P s -> P room ->
  all_rooms P (mkServer (JsMap.set (rooms s) k room) conns).
Proof.
  intros Hs Hr c r Hg. cbn [rooms] in Hg.
  apply get_set_cases in Hg as [->|Hg]; [exact Hr | now apply (Hs c)].
Qed.

Lemma all_rooms_put (s : Server) (room : Room) :
  all_rooms P s -> P room -> all_rooms P (put_room room s).
Proof. apply all_rooms_set. Qed.

Lemma all_rooms_conns (s : Server) (conns : JsMap.t conn) :
  all_rooms P s -> all_rooms P (mkServer (rooms s) conns).
Proof. intros Hs c r Hg. now apply (Hs c). Qed.

Lemma all_rooms_delete (s : Server) (k : string) (conns : JsMap.t conn) :
  all_rooms P s -> all_rooms P (mkServer (JsMap.delete (rooms s) k) conns).
Proof.
  intros Hs c r Hg. cbn [rooms] in Hg.
  apply (Hs c). now apply get_delete_some with k.
Qed.

Lemma room_of_all_rooms (s : Server) (sid : string) (room : Room) :
  all_rooms P s -> room_of s sid = Some room -> P room.
Proof.
  intros Hs. unfold room_of.
  destruct (JsMap.get (sockets s) sid) as [c|]; [|discriminate].
  destruct (currentRoom c) as [cd|]; [|discriminate].
  apply Hs.
Qed.

Lemma all_rooms_in_room (c : string) (f : Room -> Room * list emitted) (s : Server) :
  (forall room, P room -> P (fst (f room))) ->
  all_rooms P s -> all_rooms P (fst (in_room c f s)).
Proof.
  intros Hf Hs. unfold in_room.
  destruct (JsMap.get (rooms s) c) as [room|] eqn:E; [|exact Hs].
  pose proof (Hf room (Hs c room E)) as H.
  destruct (f room) as [r o]. now apply all_rooms_put.
Qed.

Lemma all_rooms_step (ev : input) (s : Server) :
  all_rooms P s -> allowed startable leaving ev s ->
  all_rooms P (fst (step ev s)).
Proof.
  intros Hs Hq. destruct ev; cbn [step].
  - (* connection *) now apply all_rooms_conns.
  - (* create_room *)
    unfold on_create_room. destruct (JsMap.get (sockets s) sid); [|exact Hs].
    cbn [fst]. apply all_rooms_conns. apply all_rooms_put; [exact Hs|].
    apply P_created.
  - (* join_room *)
    unfold on_join_room. destruct (JsMap.get (sockets s) sid); [|exact Hs].
    destruct (JsMap.get (rooms s) (JsString.toUpperCase roomCode)) as [room|] eqn:E;
      [|exact Hs].
    pose proof (Hs _ room E) as Hr.
    destruct asSpectator.
    { cbn [fst]. apply all_rooms_conns. apply all_rooms_set; [exact Hs|].
      now apply P_spectators. }
    destruct (room_state_eqb (state room) lobby) eqn:El; [|exact Hs].
    cbn [negb].
    destruct (10 <=? JsMap.size (players room))%nat eqn:Ec; [exact Hs|].
    cbn [fst]. apply all_rooms_conns. apply all_rooms_set; [exact Hs|].
    apply P_join; [exact Hr | now destruct (state room) | now apply Nat.leb_gt].
  - (* start_game *)
    unfold on_start_game. cbn [allowed] in Hq.
    destruct (room_of s sid) as [room|] eqn:E; [|exact Hs].
    pose proof (P_start_game sid settings draws room
                  (room_of_all_rooms s sid room Hs E) (Hq room eq_refl)) as H.
    destruct (start_game_in sid settings draws room) as [r o].
    now apply all_rooms_put.
  - (* draw *)
    unfold on_draw. destruct (room_of s sid) as [room|] eqn:E; [|exact Hs].
    destruct (negb (turnActive room)); [exact Hs|].
    destruct (negb (is_id (currentDrawer room) sid)); [exact Hs|].
    cbn [fst]. apply all_rooms_put; [exact Hs|].
    apply P_drawing. now apply room_of_all_rooms with s sid.
  - (* clear_canvas *)
    unfold on_clear_canvas. destruct (room_of s sid) as [room|] eqn:E; [|exact Hs].
    destruct (negb (turnActive room)); [exact Hs|].
    destruct (negb (is_id (currentDrawer room) sid)); [exact Hs|].
    cbn [fst]. apply all_rooms_put; [exact Hs|].
    apply P_drawing. now apply room_of_all_rooms with s sid.
  - (* guess *)
    unfold on_guess. destruct (room_of s sid) as [room|] eqn:E; [|exact Hs].
    pose proof (P_handleGuess room sid text (room_of_all_rooms s sid room Hs E)) as H.
    destruct (handleGuess room sid text) as [r o].
    now apply all_rooms_put.
  - (* skip_word *)
    unfold on_skip_word. destruct (room_of s sid) as [room|] eqn:E; [|exact Hs].
    destruct (negb (turnActive room)); [exact Hs|].
    destruct (negb (is_id (currentDrawer room) sid)); [exact Hs|].
    pose proof (P_endTurn room false (room_of_all_rooms s sid room Hs E)) as H.
    destruct (endTurn room false) as [r o].
    now apply all_rooms_put.
  - (* disconnect *)
    unfold on_disconnect. cbn [allowed] in Hq.
    destruct (JsMap.get (sockets s) sid) as [c|]; [|exact Hs].
    destruct (currentRoom c) as [cd|]; [|now apply all_rooms_conns].
    destruct (JsMap.get (rooms s) cd) as [room|] eqn:E; [|now apply all_rooms_conns].
    pose proof (P_disconnect Hq sid (isSpectator c) room (Hs cd room E)) as H.
    destruct (disconnect_in sid (isSpectator c) room) as [[r o] deleted].
    cbn [fst] in *. destruct deleted.
    + now apply all_rooms_delete.
    + now apply all_rooms_set.
  - (* countdown *) apply all_rooms_in_room; [exact P_timer_tick | exact Hs].
  - (* hint_check *) apply all_rooms_in_room; [exact P_hint_tick | exact Hs].
  - (* timeout *) apply all_rooms_in_room; [apply P_fire | exact Hs].
Qed.

Lemma all_rooms_run (evs : list input) :
  forall s,
    all_rooms P s -> allowed_run startable leaving evs s ->
    all_rooms P (fst (run evs s)).
Proof.
  induction evs as [|ev evs IH]; intros s Hs Hq; [exact Hs|].
  rewrite run_cons_fst. destruct Hq as [Hq1 Hq2].
  apply IH; [now apply all_rooms_step | exact Hq2].
Qed.

End RoomsOfTheRegistry.

Lemma all_rooms_empty (P : Room -> Prop) : all_rooms P empty_server.
Proof. intros c room H. discriminate H. Qed.

(** A quiet run has no disconnect, and its [start_game]s find their room in
    the lobby. *)
Lemma quiet_run_allowed (evs : list input) :
  forall s,
    quiet_run evs s = true ->
    allowed_run (fun room => state room = lobby) False evs s.
Proof.
  induction evs as [|ev evs IH]; intros s Hq; [exact I|].
  cbn [quiet_run] in Hq. apply andb_prop in Hq as [Hq1 Hq2].
  split; [|now apply IH].
  destruct ev; cbn [allowed quiet] in *; trivial; [|discriminate].
  intros room Hr. rewrite Hr in Hq1. now destruct (state room).
Qed.

Lemma room_inv_kept (evs : list input) :
  quiet_run evs empty_server = true ->
  all_rooms room_inv (fst (run evs empty_server)).
Proof.
  intros Hq.
  apply (all_rooms_run room_inv (fun room => state room = lobby) False).
  - exact room_inv_created.
  - intros room sp H. now apply room_inv_same with room.
  - intros room sid p H Hs _. now apply room_inv_join.
  - intros sid settings draws room H Hs. now apply room_inv_start_game_in.
  - intros room data H. now apply room_inv_same with room.
  - intros room sid text. apply room_inv_handleGuess.
  - intros room b. apply room_inv_endTurn.
  - exact room_inv_timer_tick.
  - exact room_inv_hint_tick.
  - intros i u room. apply room_inv_fire.
  - intros [].
  - apply all_rooms_empty.
  - now apply quiet_run_allowed.
Qed.

Lemma room_inv_bound (room : Room) :
  room_inv room -> state room = playing ->
  (forall d, currentDrawer room = Some d -> ~ In d (correctGuessers room))
  /\ JsSet.size (correctGuessers room) + 1 <= JsMap.size (players room).
Proof.
  intros [H1 [H2 [H3 [_ H5]]]] Hs.
  assert (Hlen : JsMap.size (players room) = List.length (JsMap.keys (players room))).
  { unfold JsMap.size, JsMap.keys. now rewrite length_map. }
  rewrite Hlen. unfold JsSet.size.
  destruct (H5 Hs) as [[Hd [Hc [_ Hk]]]|[d [Hd [Hk Hn]]]].
  - split; [intros d Hd'; congruence|].
    rewrite Hc. destruct (JsMap.keys (players room)); [congruence | simpl; lia].
  - split; [intros d' Hd'; congruence|].
    assert (Hnd : NoDup (d :: correctGuessers room)) by (now constructor).
    assert (Hincl : incl (d :: correctGuessers room) (JsMap.keys (players room))).
    { intros x [<-|Hx]; [exact Hk | now apply H2]. }
    pose proof (NoDup_incl_length Hnd Hincl) as Hle. simpl in Hle. lia.
Qed.




(** ** The size of [correctGuessers] *)

Lemma keys_delete {V : Type} (m : JsMap.t V) (k : string) :
  JsMap.keys (JsMap.delete m k)
  = filter (fun x => negb (String.eqb k x)) (JsMap.keys m).
Proof.
  unfold JsMap.keys, JsMap.delete.
  induction m as [|[k' v] m IH]; cbn [filter map fst]; [reflexivity|].
  destruct (negb (String.eqb k k')); cbn [map fst]; now rewrite IH.
Qed.

(** A room whose [correctGuessers] are those of a room with the invariant,
    and whose players are among that room's. *)
Lemma cap_inv_mono (room room' : Room) :
  cap_inv room ->
  correctGuessers room' = correctGuessers room ->
  NoDup (JsMap.keys (players room')) ->
  incl (JsMap.keys (players room')) (JsMap.keys (players room)) ->
  (state room' = lobby -> state room = lobby) ->
  (turnActive room' = turnActive room \/ turnActive room' = false) ->
  cap_inv room'.
Proof.
  intros [H1 [H2 [[ids [I1 [I2 [I3 I4]]]] H4]]] Ec Hnd Hincl Hs Ha.
  unfold cap_inv. rewrite Ec.
  split; [exact H1|]. split; [exact Hnd|].
  split.
  { exists ids. split; [now apply incl_tran with (JsMap.keys (players room))|].
    now repeat split. }
  intros Hl. destruct (H4 (Hs Hl)) as [Hc Ht]. split; [exact Hc|].
  destruct Ha as [Ha|Ha]; congruence.
Qed.

Lemma cap_inv_same (room room' : Room) :
  correctGuessers room' = correctGuessers room ->
  JsMap.keys (players room') = JsMap.keys (players room) ->
  (state room' = lobby -> state room = lobby) ->
  turnActive room' = turnActive room \/ turnActive room' = false ->
  cap_inv room -> cap_inv room'.
Proof.
  intros Ec Ek Hs Ha H. apply cap_inv_mono with room; trivial.
  - rewrite Ek. apply H.
  - rewrite Ek. apply incl_refl.
Qed.

Lemma cap_inv_created (c sid nm : string) (st : Settings.t) (p : Player.t) :
  cap_inv (set_players (JsMap.set (players (createRoom c sid nm st)) sid p)
                       (createRoom c sid nm st)).
Proof.
  unfold cap_inv. room_simpl. cbn.
  split; [constructor|].
  split; [repeat constructor; intros []|].
  split; [|now split].
  exists [sid]. split; [apply incl_refl|]. split; [intros x []|].
  split; [repeat constructor; intros [] | simpl; lia].
Qed.

Lemma cap_inv_join (room : Room) (sid : string) (p : Player.t) :
  cap_inv room -> state room = lobby -> JsMap.size (players room) < 10 ->
  cap_inv (set_players (JsMap.set (players room) sid p) room).
Proof.
  intros [H1 [H2 [_ H4]]] Hs Hn. destruct (H4 Hs) as [Hc Ha].
  unfold cap_inv. room_simpl. rewrite Hc.
  split; [constructor|].
  split; [now apply keys_set_NoDup|].
  split; [|intros _; now split].
  exists (JsMap.keys (JsMap.set (players room) sid p)).
  split; [apply incl_refl|]. split; [intros x []|].
  split; [now apply keys_set_NoDup|].
  assert (Hlen : List.length (JsMap.keys (players room)) = JsMap.size (players room)).
  { unfold JsMap.size, JsMap.keys. now rewrite length_map. }
  destruct (JsMap.get (players room) sid) as [v0|] eqn:E.
  - rewrite (keys_set_present _ _ p v0 E). lia.
  - rewrite (keys_set_absent _ _ p E), length_app. simpl. lia.
Qed.

Lemma cap_inv_start_game_in (sid : string) (settings : option Settings.t)
      (draws : nat -> unit_draw) (room : Room) :
  cap_inv room -> cap_inv (fst (start_game_in sid settings draws room)).
Proof.
  intros H. unfold start_game_in.
  destruct (negb (String.eqb sid (hostId room))); [exact H|].
  destruct (JsMap.size (players room) <? 2)%nat; [exact H|].
  cbn [fst]. destruct (apply_settings_frame settings room) as [Ec [Ep Et]].
  apply cap_inv_same with room; room_simpl; rewrite ?Ec, ?Ep, ?Et; trivial.
  - discriminate.
  - now left.
Qed.

Lemma cap_inv_handleGuess (room : Room) (playerId text : string) :
  cap_inv room -> cap_inv (fst (handleGuess room playerId text)).
Proof.
  intros Hinv.
  destruct (handleGuess_cases room playerId text)
    as [->|[player [Ha [Hd [Hg [Hp He]]]]]]; [exact Hinv|].
  destruct (handleGuess_correct_fields room playerId text player Ha Hd Hg Hp He)
    as [G1 [G2 [G3 _]]].
  destruct Hinv as [H1 [H2 [[ids [I1 [I2 [I3 I4]]]] H4]]].
  assert (Hin : In playerId (JsMap.keys (players room)))
    by (now apply get_In_keys with player).
  apply has_false_not_In in Hg.
  unfold cap_inv. rewrite G1, G2, G3.
  split; [now apply NoDup_snoc|].
  split; [exact H2|].
  split.
  { exists ids. split; [exact I1|]. split; [|now split].
    intros x Hx. apply in_app_or in Hx as [Hx|[<-|[]]]; [now apply I2 | now apply I1]. }
  intros Hs. destruct (H4 Hs) as [_ Hf]. congruence.
Qed.

Lemma cap_inv_endTurn (room : Room) (b : bool) :
  cap_inv room -> cap_inv (fst (endTurn room b)).
Proof.
  intros H. apply cap_inv_same with room; trivial. now right.
Qed.

Lemma cap_inv_begin_turn (u : unit_draw) (room : Room) (i k : Z)
      (d : string) (dr : Player.t) :
  cap_inv room ->
  cap_inv (fst (begin_turn u (set_roundNumber k (set_currentDrawerIndex i room)) d dr)).
Proof.
  intros [_ [H2 [[ids [I1 [_ [I3 I4]]]] _]]].
  destruct (begin_turn_frame u (set_roundNumber k (set_currentDrawerIndex i room)) d dr)
    as [Ep [Ec [Es _]]].
  cbv zeta in *. unfold cap_inv. rewrite Ep, Ec, Es. room_simpl.
  split; [constructor|]. split; [exact H2|].
  split; [|discriminate].
  exists ids. split; [exact I1|]. split; [intros x []|]. now split.
Qed.

Lemma cap_inv_startTurn (u : unit_draw) (room : Room) :
  cap_inv room -> cap_inv (fst (startTurn u room)).
Proof.
  intros H.
  destruct (startTurn_result u (rounds_left room) room (le_n _))
    as [i [k [E|[d [dr [Hd [Hp E]]]]]]]; rewrite E.
  - apply cap_inv_same with room; trivial; [discriminate | now left].
  - now apply cap_inv_begin_turn.
Qed.

Lemma cap_inv_timer_tick (room : Room) :
  cap_inv room -> cap_inv (fst (timer_tick room)).
Proof.
  intros H. unfold timer_tick. destruct (timer room); [|exact H].
  room_simpl.
  assert (H' : cap_inv (set_timeRemaining (timeRemaining room - 1) room))
    by (apply cap_inv_same with room; trivial; now left).
  destruct (timeRemaining room - 1 <=? 0)%Z; [|exact H'].
  pose proof (cap_inv_endTurn (set_timeRemaining (timeRemaining room - 1) room) false H') as H2.
  destruct (endTurn _ false). exact H2.
Qed.

Lemma cap_inv_hint_tick (room : Room) :
  cap_inv room -> cap_inv (fst (hint_tick room)).
Proof.
  intros H. unfold hint_tick.
  destruct (hintInterval room); [|exact H].
  destruct (negb (turnActive room)); [exact H|].
  match goal with |- context [if ?b then _ else _] => destruct b end; [|exact H].
  cbn [fst]. apply cap_inv_same with room; trivial. now left.
Qed.

Lemma cap_inv_fire (i : nat) (u : unit_draw) (room : Room) :
  cap_inv room -> cap_inv (fst (fire i u room)).
Proof.
  intros H. unfold fire.
  destruct (nth_error (pending room) i) as [[cb delay]|]; [|exact H].
  assert (H' : cap_inv (set_pending (remove_nth i (pending room)) room))
    by (apply cap_inv_same with room; trivial; now left).
  unfold run_callback. destruct cb.
  - now apply cap_inv_startTurn.
  - match goal with |- context [if ?b then _ else _] => destruct b end;
      [now apply cap_inv_startTurn | exact H'].
Qed.

Lemma cap_inv_disconnect_in (sid : string) (sp : bool) (room : Room) :
  cap_inv room -> cap_inv (fst (fst (disconnect_in sid sp room))).
Proof.
  intros H. destruct sp.
  { cbn [disconnect_in fst]. apply cap_inv_same with room; trivial. now left. }
  destruct (JsMap.get (players room) sid) as [player|] eqn:Hp.
  2:{ unfold disconnect_in. now rewrite Hp. }
  destruct (disconnect_in_player sid room player Hp) as [r4 [out [E [Hr _]]]].
  cbv zeta in E, Hr. rewrite E. cbn [fst].
  assert (Hk : NoDup (JsMap.keys (JsMap.delete (players room) sid))
               /\ incl (JsMap.keys (JsMap.delete (players room) sid))
                       (JsMap.keys (players room))).
  { rewrite keys_delete. split; [apply NoDup_filter, H | apply incl_filter]. }
  destruct Hk as [Hnd Hincl].
  apply cap_inv_mono with room; trivial;
    destruct Hr as [->|[h ->]]; room_simpl;
    repeat match goal with
           | |- context [if ?b then _ else _] => destruct b
           end; room_simpl; trivial; try discriminate; now left.
Qed.

(** In every run of the server, no room has more than 10 members in
    [correctGuessers]. *)
Lemma correctGuessers_at_most_10 (evs : list input) (c : string) (room : Room) :
  room_after evs c = Some room ->
  JsSet.size (correctGuessers room) <= 10.
Proof.
  intros Hr.
  assert (Hall : all_rooms cap_inv (fst (run evs empty_server))).
  { apply (all_rooms_run cap_inv (fun _ => True) True).
    - exact cap_inv_created.
    - intros r sp H. apply cap_inv_same with r; trivial. now left.
    - exact cap_inv_join.
    - intros sid settings draws r H _. now apply cap_inv_start_game_in.
    - intros r data H. apply cap_inv_same with r; trivial. now left.
    - exact cap_inv_handleGuess.
    - exact cap_inv_endTurn.
    - exact cap_inv_timer_tick.
    - exact cap_inv_hint_tick.
    - exact cap_inv_fire.
    - intros _. exact cap_inv_disconnect_in.
    - apply all_rooms_empty.
    - clear. generalize empty_server.
      induction evs as [|ev evs IH]; intros s; [exact I|].
      split; [destruct ev; cbn [allowed]; trivial | apply IH]. }
  destruct (Hall c room Hr) as [H1 [_ [[ids [_ [I2 [_ I4]]]] _]]].
  pose proof (NoDup_incl_length H1 I2). unfold JsSet.size. lia.
Qed.

(** ** Points *)

(** The formula is evaluated on binary64 numbers, in the order written.
    With 18 of 40 seconds left the third guesser gets 234: the real value
    of [(200 + 300 * 0.45) * 0.7] is the tie 234.5, and the binary64 product
    lies just below it. *)
Lemma guesserPoints_binary64_tie : guesserPoints (timeRatio_of 18 40) 3 = 234%Z.
Proof. vm_compute. reflexivity. Qed.




(* ================================================================== *)
(** * Further properties *)

(** ** Room codes *)

Lemma string_get_nth_error (s : string) :
  forall k, String.get k s = nth_error (JsString.chars s) k.
Proof.
  unfold JsString.chars. induction s as [|c s IH]; intros [|k]; simpl; trivial.
Qed.

Lemma chars_length (s : string) : List.length (JsString.chars s) = String.length s.
Proof.
  unfold JsString.chars. induction s as [|c s IH]; simpl; congruence.
Qed.

Lemma of_chars_chars (s : string) : JsString.of_chars (JsString.chars s) = s.
Proof. apply string_of_list_ascii_of_string. Qed.

Lemma chars_app (a b : string) :
  JsString.chars (a ++ b) = (JsString.chars a ++ JsString.chars b)%list.
Proof.
  unfold JsString.chars. induction a as [|c a IH]; simpl; congruence.
Qed.

(** One character of a code: the draw picks a character of the alphabet. *)
Lemma code_char_picked (u : unit_draw) :
  exists c,
    String.get (floor_random_times u (String.length code_chars)) code_chars = Some c
    /\ In c (JsString.chars code_chars).
Proof.
  rewrite string_get_nth_error.
  destruct (nth_error (JsString.chars code_chars)
              (floor_random_times u (String.length code_chars))) as [c|] eqn:E.
  - exists c. split; [reflexivity | now apply nth_error_In in E].
  - apply nth_error_None in E. rewrite chars_length in E.
    pose proof (floor_random_times_lt u (String.length code_chars)) as H.
    cbn in H, E. lia.
Qed.

(** The four characters of a code are characters of the alphabet. *)
Lemma generateRoomCode_chars (draws : nat -> unit_draw) :
  String.length (generateRoomCode draws) = 4
  /\ forall c,
       In c (JsString.chars (generateRoomCode draws)) ->
       In c (JsString.chars code_chars).
Proof.
  unfold generateRoomCode.
  destruct (code_char_picked (draws 0)) as [c0 [E0 H0]].
  destruct (code_char_picked (draws 1)) as [c1 [E1 H1]].
  destruct (code_char_picked (draws 2)) as [c2 [E2 H2]].
  destruct (code_char_picked (draws 3)) as [c3 [E3 H3]].
  rewrite E0, E1, E2, E3. split; [reflexivity|].
  intros c Hc. cbn in Hc.
  destruct Hc as [<-|[<-|[<-|[<-|[]]]]]; assumption.
Qed.

(** X1.  Whatever the draws, a generated code has 4 characters, each of
    them of the alphabet, which has none of I, O, 0 and 1. *)
Theorem generateRoomCode_shape :
  forall draws,
    String.length (generateRoomCode draws) = 4
    /\ forall c,
         In c (JsString.chars (generateRoomCode draws)) ->
         In c (JsString.chars code_chars) /\ ~ In c ambiguous.
Proof.
  intros draws. destruct (generateRoomCode_chars draws) as [Hlen Hin].
  split; [exact Hlen|].
  assert (Hall : forallb (fun c => negb (existsb (Ascii.eqb c) ambiguous))
                         (JsString.chars code_chars) = true)
    by (vm_compute; reflexivity).
  rewrite forallb_forall in Hall.
  intros c Hc. apply Hin in Hc. split; [exact Hc|]. intros Ha.
  specialize (Hall c Hc). apply negb_true_iff in Hall.
  assert (Hex : existsb (Ascii.eqb c) ambiguous = true).
  { apply existsb_exists. exists c. split; [exact Ha | apply Ascii.eqb_refl]. }
  congruence.
Qed.

(** A code read in lower case and put back in upper case is the code. *)
Lemma code_upper_of_lower (draws : nat -> unit_draw) :
  JsString.toUpperCase (JsString.toLowerCase (generateRoomCode draws))
  = generateRoomCode draws.
Proof.
  unfold JsString.toUpperCase, JsString.toLowerCase.
  rewrite chars_of_chars, map_map.
  rewrite <- (of_chars_chars (generateRoomCode draws)) at 2. f_equal.
  rewrite <- (map_id (JsString.chars (generateRoomCode draws))) at 2.
  apply map_ext_in. intros c Hc.
  apply (generateRoomCode_chars draws) in Hc.
  assert (Hall : forallb (fun c => Ascii.eqb (JsString.upper (JsString.lower c)) c)
                         (JsString.chars code_chars) = true)
    by (vm_compute; reflexivity).
  rewrite forallb_forall in Hall. now apply Ascii.eqb_eq, Hall.
Qed.

(** X2.  [create_room] from a connected socket registers the new room under
    its generated code, replacing a room that was registered under that code,
    and leaves the other codes alone.  The room is in the lobby, its only
    player is the creator, with score 0, who is the host; it is the room of
    the creator's connection, and looking the code up as [join_room] does,
    from the code typed in lower case, finds it. *)
Theorem create_room_registered :
  forall sid nm tr tpt ch draws s c0,
    JsMap.get (sockets s) sid = Some c0 ->
    let s' := fst (on_create_room sid nm tr tpt ch draws s) in
    exists room,
      JsMap.get (rooms s') (generateRoomCode draws) = Some room
      /\ JsMap.get (rooms s')
           (JsString.toUpperCase (JsString.toLowerCase (generateRoomCode draws)))
         = Some room
      /\ code room = generateRoomCode draws
      /\ players room = [(sid, Player.mk nm 0)]
      /\ hostId room = sid
      /\ state room = lobby
      /\ spectators room = []
      /\ room_of s' sid = Some room
      /\ forall other,
           other <> generateRoomCode draws ->
           JsMap.get (rooms s') other = JsMap.get (rooms s) other.
Proof.
  intros sid nm tr tpt ch draws s c0 Hc s'.
  unfold s', on_create_room. rewrite Hc. cbn [fst].
  eexists. rewrite code_upper_of_lower.
  unfold put_conn, put_room, room_of. cbn [rooms sockets].
  room_simpl. cbn [createRoom code].
  rewrite !get_set_same. cbn [currentRoom]. rewrite get_set_same.
  repeat split.
  intros other Hne. now apply get_set_other.
Qed.

Lemma create_room_registered_witness :
  exists room,
    JsMap.get
      (rooms (fst (on_create_room "A" "Ann" None None None first_draws
                     (fst (on_connection "A" empty_server)))))
      "aaaa" = None
    /\ JsMap.get
         (rooms (fst (on_create_room "A" "Ann" None None None first_draws
                        (fst (on_connection "A" empty_server)))))
         (JsString.toUpperCase "aaaa") = Some room
    /\ players room = [("A", Player.mk "Ann" 0)].
Proof.
  destruct (create_room_registered "A" "Ann" None None None first_draws
              (fst (on_connection "A" empty_server)) (mkConn None false) eq_refl)
    as [room [_ [H2 [_ [H4 _]]]]].
  exists room. split; [vm_compute; reflexivity|]. split; [exact H2 | exact H4].
Defined.

(** ** Hints *)

Lemma string_length_app (a b : string) :
  String.length (a ++ b) = String.length a + String.length b.
Proof. induction a as [|c a IH]; simpl; congruence. Qed.

Lemma list_sum_cons (a : nat) (l : list nat) : list_sum (a :: l) = a + list_sum l.
Proof. reflexivity. Qed.

Lemma join_length (sep : string) (parts : list string) :
  String.length (JsString.join sep parts)
  = list_sum (map String.length parts)
    + String.length sep * (List.length parts - 1).
Proof.
  induction parts as [|p [|q rest] IH].
  - cbn. lia.
  - cbn. lia.
  - change (JsString.join sep (p :: q :: rest))
      with (p ++ sep ++ JsString.join sep (q :: rest)).
    rewrite !string_length_app, IH. cbn [map List.length]. rewrite !list_sum_cons.
    replace (S (S (List.length rest)) - 1) with (S (S (List.length rest) - 1)) by lia.
    rewrite Nat.mul_succ_r. lia.
Qed.

Lemma join_chars (sep : string) (parts : list string) (c : ascii) :
  In c (JsString.chars (JsString.join sep parts)) ->
  In c (JsString.chars sep)
  \/ exists p, In p parts /\ In c (JsString.chars p).
Proof.
  induction parts as [|p [|q rest] IH].
  - intros [].
  - intros H. right. exists p. split; [now left | exact H].
  - change (JsString.join sep (p :: q :: rest))
      with (p ++ sep ++ JsString.join sep (q :: rest)).
    rewrite !chars_app, !in_app_iff. intros [H|[H|H]].
    + right. exists p. split; [now left | exact H].
    + now left.
    + destruct (IH H) as [Hs|[p' [Hp Hc]]]; [now left|].
      right. exists p'. split; [now right | exact Hc].
Qed.

(** The parts of a hint, for the characters from an index on. *)
Lemma hint_parts (revealCount : Z) (before rest : list ascii) :
  let parts :=
    mapi_from (Z.of_nat (List.length before))
      (fun ch i =>
         if Ascii.eqb ch " " then "  "
         else if (i <? revealCount)%Z then String ch ""
         else "_")
      rest in
  List.length parts = List.length rest
  /\ list_sum (map String.length parts)
     = List.length rest
       + List.length (filter (fun c => Ascii.eqb c " ") rest)
  /\ forall p c,
       In p parts -> In c (JsString.chars p) ->
       c = "_"%char \/ c = " "%char
       \/ In c (firstn (Z.to_nat revealCount) (before ++ rest)%list).
Proof.
  revert before. induction rest as [|ch rest IH]; intros before parts.
  - cbn. repeat split. intros p c [].
  - specialize (IH (before ++ [ch])%list).
    cbv zeta in IH. rewrite length_app in IH. cbn [List.length] in IH.
    replace (Z.of_nat (List.length before + 1))
      with (Z.of_nat (List.length before) + 1)%Z in IH by lia.
    rewrite <- app_assoc in IH. cbn [app] in IH.
    destruct IH as [IH1 [IH2 IH3]].
    unfold parts. cbn [mapi_from List.length map filter]. rewrite list_sum_cons.
    split; [now rewrite IH1|].
    split.
    { rewrite IH2. destruct (Ascii.eqb ch " "); [cbn; lia|].
      destruct (Z.of_nat (List.length before) <? revealCount)%Z; cbn; lia. }
    intros p c [<-|Hp] Hc; [|now apply (IH3 p c)].
    destruct (Ascii.eqb ch " ").
    { cbn in Hc. right. left. destruct Hc as [<-|[<-|[]]]; reflexivity. }
    destruct (Z.of_nat (List.length before) <? revealCount)%Z eqn:E.
    + cbn in Hc. destruct Hc as [<-|[]]. right. right.
      apply Z.ltb_lt in E.
      apply nth_error_In with (List.length before).
      rewrite nth_error_firstn.
      assert (Hlt : (List.length before <? Z.to_nat revealCount)%nat = true)
        by (apply Nat.ltb_lt; lia).
      rewrite Hlt. rewrite nth_error_app2 by lia.
      now rewrite Nat.sub_diag.
    + cbn in Hc. left. destruct Hc as [<-|[]]. reflexivity.
Qed.

(** X3.  A hint has one part per character of the word, a space counting
    for two characters, and one separator between two parts: its length is
    twice the length of the word, plus the number of spaces of the word,
    minus 1 (and 0 for the empty word). *)
Theorem generateHint_length :
  forall word revealCount,
    String.length (generateHint word revealCount)
    = 2 * String.length word + count_spaces word - 1.
Proof.
  intros word k. unfold generateHint. rewrite join_length.
  destruct (hint_parts k [] (JsString.chars word)) as [H1 [H2 _]].
  cbv zeta in H1, H2. cbn [List.length Z.of_nat] in H1, H2.
  rewrite H1, H2, chars_length. unfold count_spaces. cbn [String.length].
  pose proof (filter_length_le (fun c => Ascii.eqb c " ") (JsString.chars word)) as Hle.
  rewrite chars_length in Hle. lia.
Qed.



(** ** Standings *)

Lemma insert_by_score_perm (x : Entry.t) (l : list Entry.t) :
  Permutation.Permutation (insert_by_score x l) (x :: l).
Proof.
  induction l as [|y l IH]; cbn [insert_by_score]; [apply Permutation.Permutation_refl|].
  destruct (Entry.score x <? Entry.score y)%Z; [|apply Permutation.Permutation_refl].
  eapply Permutation.perm_trans; [apply Permutation.perm_skip, IH|].
  apply Permutation.perm_swap.
Qed.

Lemma sort_by_score_perm (l : list Entry.t) :
  Permutation.Permutation (sort_by_score l) l.
Proof.
  induction l as [|x l IH]; cbn [sort_by_score fold_right];
    [apply Permutation.Permutation_refl|].
  eapply Permutation.perm_trans; [apply insert_by_score_perm|].
  now apply Permutation.perm_skip.
Qed.

Lemma insert_by_score_sorted (x : Entry.t) (l : list Entry.t) :
  Sorted.StronglySorted not_below l ->
  Sorted.StronglySorted not_below (insert_by_score x l).
Proof.
  induction 1 as [|y l Hs IH Hy]; cbn [insert_by_score].
  - repeat constructor.
  - destruct (Entry.score x <? Entry.score y)%Z eqn:E.
    + apply Z.ltb_lt in E. constructor; [exact IH|].
      apply Forall_forall. intros z Hz.
      apply (Permutation.Permutation_in _ (insert_by_score_perm x l)) in Hz.
      destruct Hz as [<-|Hz]; [unfold not_below; lia|].
      rewrite Forall_forall in Hy. now apply Hy.
    + apply Z.ltb_ge in E. constructor; [now constructor|].
      constructor; [exact E|].
      apply Forall_forall. intros z Hz. rewrite Forall_forall in Hy.
      specialize (Hy z Hz). unfold not_below in *. lia.
Qed.

Lemma sort_by_score_sorted (l : list Entry.t) :
  Sorted.StronglySorted not_below (sort_by_score l).
Proof.
  induction l as [|x l IH]; cbn [sort_by_score fold_right]; [constructor|].
  now apply insert_by_score_sorted.
Qed.

(** The first of the sorted list is the first entry with the highest
    score. *)
Lemma sort_by_score_head (l : list Entry.t) (w : Entry.t) :
  hd_error (sort_by_score l) = Some w ->
  exists before after,
    l = (before ++ w :: after)%list
    /\ Forall (fun e => (Entry.score e < Entry.score w)%Z) before
    /\ Forall (fun e => (Entry.score e <= Entry.score w)%Z) after.
Proof.
  revert w. induction l as [|x l IH]; intros w; cbn [sort_by_score fold_right];
    [discriminate|].
  fold (sort_by_score l).
  destruct (sort_by_score l) as [|y sorted] eqn:Es.
  - cbn. intros [= <-].
    assert (El : l = []).
    { pose proof (sort_by_score_perm l) as Hp. rewrite Es in Hp.
      now apply Permutation.Permutation_nil in Hp. }
    subst l. exists [], []. now repeat split.
  - destruct (IH y eq_refl) as [before [after [El [Hb Ha]]]].
    cbn [insert_by_score].
    destruct (Entry.score x <? Entry.score y)%Z eqn:E; cbn [hd_error]; intros [= <-].
    + apply Z.ltb_lt in E. exists (x :: before), after. subst l.
      repeat split; [now constructor | exact Ha].
    + apply Z.ltb_ge in E. exists [], l. split; [reflexivity|].
      split; [constructor|]. subst l.
      apply Forall_app. split.
      * eapply Forall_impl; [|exact Hb]. cbn. intros; lia.
      * constructor; [exact E|].
        eapply Forall_impl; [|exact Ha]. cbn. intros; lia.
Qed.

(** X5.  The standings hold every player of the room once, with its name
    and score, the host and the drawer marked, in the order of the scores,
    the highest first. *)
Theorem getPlayerList_sorted :
  forall room,
    Permutation.Permutation (getPlayerList room)
                            (map (entry_of room) (players room))
    /\ Sorted.StronglySorted not_below (getPlayerList room)
    /\ List.length (getPlayerList room) = JsMap.size (players room)
    /\ map Entry.id (map (entry_of room) (players room))
       = JsMap.keys (players room).
Proof.
  intros room.
  change (getPlayerList room)
    with (sort_by_score (map (entry_of room) (players room))).
  split; [apply sort_by_score_perm|].
  split; [apply sort_by_score_sorted|].
  split.
  - rewrite (Permutation.Permutation_length (sort_by_score_perm _)).
    apply length_map.
  - rewrite map_map. reflexivity.
Qed.

(** X6.  [endGame] makes the room finished, stops both intervals, leaves the
    players and their scores, and announces to the room and to the
    spectators the standings and the winner: nobody when the room has no
    player, and else the first player, in the order of [room.players], among
    those with the highest score. *)
Theorem endGame_winner :
  forall room,
    state (fst (endGame room)) = finished
    /\ timer (fst (endGame room)) = false
    /\ hintInterval (fst (endGame room)) = None
    /\ players (fst (endGame room)) = players room
    /\ exists winner,
         snd (endGame room)
         = [ (to_room (code room),
              game_over (getPlayerList room) winner (isChampionship room));
             (to_spectators (code room),
              game_over (getPlayerList room) winner (isChampionship room)) ]
         /\ (winner = None <-> players room = [])
         /\ forall w,
              winner = Some w ->
              exists before after,
                map (entry_of room) (players room) = (before ++ w :: after)%list
                /\ Forall (fun e => (Entry.score e < Entry.score w)%Z) before
                /\ Forall (fun e => (Entry.score e <= Entry.score w)%Z) after.
Proof.
  intros room. repeat split.
  exists (hd_error (getPlayerList room)).
  split.
  { unfold endGame, both. cbn [snd]. room_simpl.
    change (getPlayerList (set_hintInterval None (set_timer false (set_state finished room))))
      with (getPlayerList room).
    now destruct (getPlayerList room). }
  split.
  { assert (Hlen : List.length (getPlayerList room)
                   = List.length (players room)).
    { change (getPlayerList room)
        with (sort_by_score (map (entry_of room) (players room))).
      rewrite (Permutation.Permutation_length (sort_by_score_perm _)).
      apply length_map. }
    split; intros H.
    - destruct (getPlayerList room); [|discriminate].
      destruct (players room); [reflexivity | discriminate].
    - rewrite H in Hlen. now destruct (getPlayerList room). }
  intros w Hw. now apply sort_by_score_head.
Qed.

(** ** The drawing order *)

Lemma set_nth_perm (i : nat) (x y : string) (a : list string) :
  nth_error a i = Some x ->
  Permutation.Permutation (x :: set_nth i y a) (y :: a).
Proof.
  revert i. induction a as [|z a IH]; intros [|i]; cbn [nth_error set_nth];
    try discriminate.
  - intros [= ->]. apply Permutation.perm_swap.
  - intros H. specialize (IH i H).
    eapply Permutation.perm_trans; [apply Permutation.perm_swap|].
    eapply Permutation.perm_trans; [apply Permutation.perm_skip, IH|].
    apply Permutation.perm_swap.
Qed.

Lemma set_nth_read (i j : nat) (x y : string) (a : list string) :
  nth_error a i = Some x -> nth_error a j = Some y ->
  nth_error (set_nth j x a) i = Some x.
Proof.
  revert i j. induction a as [|z a IH]; intros [|i] [|j];
    cbn [nth_error set_nth]; try discriminate; try trivial.
  apply IH.
Qed.

Lemma swap_perm (a : list string) (i j : nat) :
  Permutation.Permutation (swap a i j) a.
Proof.
  unfold swap.
  destruct (nth_error a i) as [x|] eqn:Ei; [|apply Permutation.Permutation_refl].
  destruct (nth_error a j) as [y|] eqn:Ej; [|apply Permutation.Permutation_refl].
  apply (Permutation.Permutation_cons_inv (a := x)).
  eapply Permutation.perm_trans.
  - apply set_nth_perm. now apply (set_nth_read i j x y).
  - now apply set_nth_perm.
Qed.

Lemma shuffle_from_perm (i : nat) (draws : nat -> unit_draw) (a : list string) :
  Permutation.Permutation (shuffle_from i draws a) a.
Proof.
  revert a. induction i as [|i IH]; intros a; cbn [shuffle_from];
    [apply Permutation.Permutation_refl|].
  eapply Permutation.perm_trans; [apply IH | apply swap_perm].
Qed.

Lemma apply_settings_rest (settings : option Settings.t) (room : Room) :
  code (apply_settings settings room) = code room
  /\ hostId (apply_settings settings room) = hostId room
  /\ pending (apply_settings settings room) = pending room
  /\ spectators (apply_settings settings room) = spectators room
  /\ usedWords (apply_settings settings room) = usedWords room
  /\ timer (apply_settings settings room) = timer room
  /\ hintInterval (apply_settings settings room) = hintInterval room
  /\ currentWord (apply_settings settings room) = currentWord room
  /\ playerOrder (apply_settings settings room) = playerOrder room
  /\ state (apply_settings settings room) = state room.
Proof.
  unfold apply_settings. destruct settings as [st|]; [|now repeat split].
  destruct (Settings.totalRounds st) as [v|]; [destruct (truthy (Some v))|];
    (destruct (Settings.timePerTurn st) as [w|]; [destruct (truthy (Some w))|]);
    destruct (Settings.isChampionship st); now repeat split.
Qed.

(** X7.  The shuffle of [start_game] only reorders: whatever the draws, the
    result holds the same ids, each as often as before. *)
Theorem shuffle_permutation :
  forall draws a,
    Permutation.Permutation (shuffle draws a) a
    /\ List.length (shuffle draws a) = List.length a
    /\ (NoDup a -> NoDup (shuffle draws a)).
Proof.
  intros draws a.
  assert (Hp : Permutation.Permutation (shuffle draws a) a)
    by apply shuffle_from_perm.
  split; [exact Hp|]. split; [now apply Permutation.Permutation_length|].
  intros Hn. eapply Permutation.Permutation_NoDup; [|exact Hn].
  now apply Permutation.Permutation_sym.
Qed.

Lemma start_game_in_host (sid : string) (settings : option Settings.t)
      (draws : nat -> unit_draw) (room : Room) :
  sid = hostId room ->
  (2 <= JsMap.size (players room))%nat ->
  start_game_in sid settings draws room
  = (set_pending (pending room ++ [(first_turn, 2000%Z)])%list
       (set_roundNumber 0
          (set_currentDrawerIndex (-1)
             (set_playerOrder
                (shuffle draws (JsMap.keys (players room)))
                (set_state playing (apply_settings settings room))))),
     both (code room)
       (game_started
          (getPlayerList
             (set_roundNumber 0
                (set_currentDrawerIndex (-1)
                   (set_playerOrder
                      (shuffle draws (JsMap.keys (players room)))
                      (set_state playing
                         (apply_settings settings room))))))
          (totalRounds (apply_settings settings room)))).
Proof.
  intros Hs Hn.
  destruct (apply_settings_frame settings room) as [_ [Hpl _]].
  destruct (apply_settings_rest settings room) as [Hc [_ [Hpe _]]].
  unfold start_game_in. rewrite Hs, String.eqb_refl. cbn [negb].
  destruct (JsMap.size (players room) <? 2)%nat eqn:El;
    [apply Nat.ltb_lt in El; lia|].
  room_simpl. rewrite Hpl, Hc, Hpe. reflexivity.
Qed.

(** X8.  When the host starts the game in a room of two players or more, the
    room becomes playing, the drawing order is a reordering of the players
    of the room, no turn has been played (index -1, round 0), the scores are
    as before, the room and the spectators are told the standings and the
    number of rounds, and the first turn is set to start 2000 ms later. *)
Theorem start_game_begins :
  forall sid settings draws room,
    sid = hostId room ->
    (2 <= JsMap.size (players room))%nat ->
    let room' := fst (start_game_in sid settings draws room) in
    state room' = playing
    /\ Permutation.Permutation (playerOrder room') (JsMap.keys (players room))
    /\ currentDrawerIndex room' = (-1)%Z
    /\ roundNumber room' = 0%Z
    /\ players room' = players room
    /\ hostId room' = hostId room
    /\ pending room' = (pending room ++ [(first_turn, 2000%Z)])%list
    /\ snd (start_game_in sid settings draws room)
       = [ (to_room (code room),
            game_started (getPlayerList room') (totalRounds room'));
           (to_spectators (code room),
            game_started (getPlayerList room') (totalRounds room')) ].
Proof.
  intros sid settings draws room Hs Hn room'.
  destruct (apply_settings_frame settings room) as [_ [Hpl _]].
  destruct (apply_settings_rest settings room) as [_ [Hh _]].
  subst room'. rewrite (start_game_in_host sid settings draws room Hs Hn).
  cbn [fst snd]. room_simpl.
  rewrite Hpl, Hh.
  repeat (split; [reflexivity|]).
  split; [apply shuffle_from_perm|].
  repeat (split; [reflexivity|]).
  reflexivity.
Qed.

Lemma start_game_begins_witness :
  state (fst (start_game_in "A" None first_draws lobby_of_two)) = playing
  /\ playerOrder (fst (start_game_in "A" None first_draws lobby_of_two))
     = ["B"; "A"]
  /\ pending (fst (start_game_in "A" None first_draws lobby_of_two))
     = [(first_turn, 2000%Z)].
Proof.
  assert (Hh : "A" = hostId lobby_of_two) by (vm_compute; reflexivity).
  assert (Hn : (2 <= JsMap.size (players lobby_of_two))%nat)
    by (vm_compute; lia).
  destruct (start_game_begins "A" None first_draws lobby_of_two Hh Hn)
    as [H1 [_ [_ [_ [_ [_ [H7 _]]]]]]].
  split; [exact H1|]. split; [vm_compute; reflexivity|].
  rewrite H7. vm_compute. reflexivity.
Defined.

(** ** Guesses *)

Lemma add_score_shape (room : Room) (id : string) (pts : Z) :
  exists pl,
    add_score id pts room = set_players pl room
    /\ JsMap.keys pl = JsMap.keys (players room).
Proof.
  unfold add_score. destruct (JsMap.get (players room) id) as [p|] eqn:E.
  - eexists. split; [reflexivity|]. now apply keys_set_present with p.
  - exists (players room). split; [now destruct room | reflexivity].
Qed.

Lemma nonDrawerCount_players (pl : JsMap.t Player.t) (room : Room) :
  JsMap.keys pl = JsMap.keys (players room) ->
  nonDrawerCount (set_players pl room) = nonDrawerCount room.
Proof.
  intros E. unfold nonDrawerCount, currentDrawer. room_simpl. now rewrite E.
Qed.

Lemma endTurn_false (room : Room) :
  endTurn room false
  = (set_pending (pending room ++ [(next_turn, 3000%Z)])%list
       (set_hintInterval None (set_timer false (set_turnActive false room))),
     both (code room)
       (turn_end (currentWord room) false (getPlayerList room)
                 (roundNumber room) (totalRounds room))).
Proof.
  unfold endTurn. cbn [negb]. rewrite orb_true_r. reflexivity.
Qed.

Lemma endTurn_all_guessed (room : Room) :
  (nonDrawerCount room <=? JsSet.size (correctGuessers room))%nat = true ->
  endTurn room true
  = (set_pending (pending room ++ [(next_turn, 3000%Z)])%list
       (set_hintInterval None (set_timer false (set_turnActive false room))),
     both (code room)
       (turn_end (currentWord room) true (getPlayerList room)
                 (roundNumber room) (totalRounds room))).
Proof.
  intros H. unfold endTurn.
  change (nonDrawerCount
            (set_hintInterval None (set_timer false (set_turnActive false room))))
    with (nonDrawerCount room).
  room_simpl. rewrite H. reflexivity.
Qed.

(** A correct guess of a player who may guess: the guesser is recorded, the
    scores of the guesser and of the drawer change, and the turn ends when
    the guessers are as many as the players other than the drawer. *)
Lemma handleGuess_credit (room : Room) (playerId text : string)
      (player : Player.t) :
  turnActive room = true ->
  is_id (currentDrawer room) playerId = false ->
  JsSet.has (correctGuessers room) playerId = false ->
  JsMap.get (players room) playerId = Some player ->
  JsString.toLowerCase (JsString.trim text)
    = JsString.toLowerCase (JsString.trim (currentWord room)) ->
  exists pl out,
    JsMap.keys pl = JsMap.keys (players room)
    /\ (forall e, In e out -> is_turn_end e = false)
    /\ handleGuess room playerId text
       = let room2 :=
           set_players pl
             (set_correctGuessers (correctGuessers room ++ [playerId])%list room) in
         if (nonDrawerCount room <=? S (JsSet.size (correctGuessers room)))%nat
         then
           (set_pending (pending room ++ [(next_turn, 3000%Z)])%list
              (set_hintInterval None
                 (set_timer false (set_turnActive false room2))),
            (out ++ both (code room)
                      (turn_end (currentWord room) true (getPlayerList room2)
                                (roundNumber room) (totalRounds room)))%list)
         else (room2, out).
Proof.
  intros Ha Hd Hg Hp He.
  pose proof (handleGuess_correct room playerId text player Ha Hd Hg Hp He) as E.
  cbv zeta in E.
  set (t := timeRatio_of (timeRemaining room) (timePerTurn room)) in *.
  set (r := Z.of_nat (S (JsSet.size (correctGuessers room)))) in *.
  set (room0 := set_correctGuessers (correctGuessers room ++ [playerId])%list room) in *.
  destruct (add_score_shape room0 playerId (guesserPoints t r)) as [pl1 [E1 K1]].
  rewrite E1 in E.
  assert (E2 : exists pl2,
             match currentDrawer room with
             | Some d => add_score d (drawerPoints t) (set_players pl1 room0)
             | None => set_players pl1 room0
             end = set_players pl2 room0
             /\ JsMap.keys pl2 = JsMap.keys (players room)).
  { destruct (currentDrawer room) as [d|].
    - destruct (add_score_shape (set_players pl1 room0) d (drawerPoints t))
        as [pl2 [E2 K2]].
      exists pl2. rewrite E2. split; [reflexivity|].
      rewrite K2. room_simpl. exact K1.
    - exists pl1. split; [reflexivity | exact K1]. }
  destruct E2 as [pl2 [E2 K2]]. rewrite E2 in E.
  rewrite (nonDrawerCount_players pl2 room0) in E by exact K2.
  change (nonDrawerCount room0) with (nonDrawerCount room) in E.
  change (correctGuessers (set_players pl2 room0))
    with (correctGuessers room ++ [playerId])%list in E.
  assert (Hsz : JsSet.size (correctGuessers room ++ [playerId])%list
                = S (JsSet.size (correctGuessers room))).
  { unfold JsSet.size. rewrite length_app. cbn [List.length]. lia. }
  rewrite Hsz in E.
  exists pl2.
  eexists. split; [exact K2|]. split; [|rewrite E; cbv zeta].
  2:{ destruct (nonDrawerCount room <=? S (JsSet.size (correctGuessers room)))%nat
        eqn:En; [|reflexivity].
      rewrite endTurn_all_guessed.
      - cbn [fst snd]. room_simpl. reflexivity.
      - rewrite (nonDrawerCount_players pl2 room0) by exact K2.
        change (nonDrawerCount room0) with (nonDrawerCount room).
        change (correctGuessers (set_players pl2 room0))
          with (correctGuessers room ++ [playerId])%list.
        now rewrite Hsz. }
  intros e He'. room_simpl in He'.
  apply in_app_or in He' as [He'|[<-|[]]]; [|reflexivity].
  destruct He' as [<-|[<-|[]]]; reflexivity.
Qed.

(** X9.  A player is credited once in a turn: after a correct guess of a
    player, any further guess of that player, right or wrong, changes
    nothing and sends nothing. *)
Theorem handleGuess_once_per_turn :
  forall room playerId text player again,
    turnActive room = true ->
    is_id (currentDrawer room) playerId = false ->
    JsSet.has (correctGuessers room) playerId = false ->
    JsMap.get (players room) playerId = Some player ->
    JsString.toLowerCase (JsString.trim text)
      = JsString.toLowerCase (JsString.trim (currentWord room)) ->
    handleGuess (fst (handleGuess room playerId text)) playerId again
    = (fst (handleGuess room playerId text), []).
Proof.
  intros room playerId text player again Ha Hd Hg Hp He.
  destruct (handleGuess_correct_fields room playerId text player Ha Hd Hg Hp He)
    as [Hc _].
  cbv zeta in Hc.
  generalize dependent (fst (handleGuess room playerId text)).
  intros room' Hc. unfold handleGuess.
  destruct (turnActive room'); [|reflexivity]. cbn [negb].
  destruct (is_id (currentDrawer room') playerId); [reflexivity|].
  assert (Hin : JsSet.has (correctGuessers room') playerId = true).
  { apply has_In. rewrite Hc. apply in_or_app. right. now left. }
  now rewrite Hin.
Qed.

Lemma handleGuess_once_per_turn_witness :
  handleGuess (fst (handleGuess queen_at_30 "A" "queen")) "A" "queen"
  = (fst (handleGuess queen_at_30 "A" "queen"), []).
Proof.
  apply (handleGuess_once_per_turn queen_at_30 "A" "queen" (Player.mk "Ann" 0));
    vm_compute; reflexivity.
Defined.

(** X10.  A correct guess ends the turn exactly when, with it, the guessers
    are as many as the players other than the drawer: then the turn is over,
    both intervals are stopped, the room is told the word with
    [wasGuessed] true, and the next turn is set to start 3000 ms later.
    Otherwise the turn goes on, and nothing is deferred. *)
Theorem handleGuess_last_guesser :
  forall room playerId text player,
    turnActive room = true ->
    is_id (currentDrawer room) playerId = false ->
    JsSet.has (correctGuessers room) playerId = false ->
    JsMap.get (players room) playerId = Some player ->
    JsString.toLowerCase (JsString.trim text)
      = JsString.toLowerCase (JsString.trim (currentWord room)) ->
    let room' := fst (handleGuess room playerId text) in
    let out := snd (handleGuess room playerId text) in
    (nonDrawerCount room <= S (JsSet.size (correctGuessers room)) ->
     turnActive room' = false
     /\ timer room' = false
     /\ hintInterval room' = None
     /\ pending room' = (pending room ++ [(next_turn, 3000%Z)])%list
     /\ In (to_room (code room),
            turn_end (currentWord room) true (getPlayerList room')
                     (roundNumber room) (totalRounds room)) out)
    /\ (S (JsSet.size (correctGuessers room)) < nonDrawerCount room ->
        turnActive room' = true
        /\ timer room' = timer room
        /\ hintInterval room' = hintInterval room
        /\ pending room' = pending room
        /\ forall e, In e out -> is_turn_end e = false).
Proof.
  intros room playerId text player Ha Hd Hg Hp He room' out.
  destruct (handleGuess_credit room playerId text player Ha Hd Hg Hp He)
    as [pl [o [K [Ho E]]]].
  cbv zeta in E. subst room' out. rewrite E. split; intros Hn.
  - apply Nat.leb_le in Hn. rewrite Hn. cbn [fst snd]. room_simpl.
    repeat (split; [reflexivity|]).
    apply in_or_app. right. left. reflexivity.
  - apply Nat.leb_gt in Hn. rewrite Hn. cbn [fst snd]. room_simpl.
    split; [exact Ha|]. repeat (split; [reflexivity|]). exact Ho.
Qed.

Lemma handleGuess_last_guesser_witness :
  turnActive (fst (handleGuess queen_at_30 "A" "queen")) = false
  /\ pending (fst (handleGuess queen_at_30 "A" "queen"))
     = [(next_turn, 3000%Z)].
Proof.
  assert (Ha : turnActive queen_at_30 = true) by (vm_compute; reflexivity).
  assert (Hd : is_id (currentDrawer queen_at_30) "A" = false)
    by (vm_compute; reflexivity).
  assert (Hg : JsSet.has (correctGuessers queen_at_30) "A" = false)
    by (vm_compute; reflexivity).
  assert (Hp : JsMap.get (players queen_at_30) "A" = Some (Player.mk "Ann" 0))
    by (vm_compute; reflexivity).
  assert (He : JsString.toLowerCase (JsString.trim "queen")
               = JsString.toLowerCase (JsString.trim (currentWord queen_at_30)))
    by (vm_compute; reflexivity).
  assert (Hn : nonDrawerCount queen_at_30
               <= S (JsSet.size (correctGuessers queen_at_30)))
    by (vm_compute; lia).
  destruct (handleGuess_last_guesser queen_at_30 "A" "queen" (Player.mk "Ann" 0)
              Ha Hd Hg Hp He) as [H _].
  destruct (H Hn) as [H1 [_ [_ [H4 _]]]].
  split; [exact H1|]. rewrite H4. vm_compute. reflexivity.
Defined.

(** ** What holds of every room in every run *)

Lemma filter_perm (f : string -> bool) (l l' : list string) :
  Permutation.Permutation l l' ->
  Permutation.Permutation (filter f l) (filter f l').
Proof.
  induction 1 as [|x l l' _ IH|x y l|l l' l'' _ IH1 _ IH2]; cbn [filter].
  - constructor.
  - destruct (f x); [now constructor | exact IH].
  - destruct (f x), (f y); try apply Permutation.Permutation_refl.
    apply Permutation.perm_swap.
  - now apply Permutation.perm_trans with (filter f l').
Qed.

Lemma remove_nth_Forall {A : Type} (Q : A -> Prop) (i : nat) (l : list A) :
  Forall Q l -> Forall Q (remove_nth i l).
Proof.
  intros H. revert i. induction H as [|x l Hx Hl IH]; intros [|i];
    cbn [remove_nth]; try constructor; trivial.
Qed.

Lemma game_inv_same (room room' : Room) :
  game_inv room ->
  JsMap.keys (players room') = JsMap.keys (players room) ->
  state room' = state room ->
  playerOrder room' = playerOrder room ->
  pending room' = pending room ->
  turnActive room' = turnActive room ->
  timer room' = timer room ->
  hintInterval room' = hintInterval room ->
  usedWords room' = usedWords room ->
  currentWord room' = currentWord room ->
  game_inv room'.
Proof.
  unfold game_inv. intros H E1 E2 E3 E4 E5 E6 E7 E8 E9.
  rewrite E1, E2, E3, E4, E5, E6, E7, E8, E9. exact H.
Qed.

Lemma game_inv_created (c sid nm : string) (st : Settings.t) (p : Player.t) :
  game_inv (set_players (JsMap.set (players (createRoom c sid nm st)) sid p)
                        (createRoom c sid nm st)).
Proof.
  unfold game_inv, createRoom. room_simpl.
  cbn [JsMap.set JsMap.keys map fst List.length].
  split; [repeat constructor; intros []|]. split; [lia|].
  split; [now intros _|]. split; [now intros H|].
  split; [discriminate|]. split; [split; [discriminate | now intros H]|].
  split; [constructor|]. split; [intros x []|]. split; [constructor|].
  discriminate.
Qed.

Lemma game_inv_join (room : Room) (sid : string) (p : Player.t) :
  game_inv room -> state room = lobby -> JsMap.size (players room) < 10 ->
  game_inv (set_players (JsMap.set (players room) sid p) room).
Proof.
  intros [H1 [H2 H]] Hs Hn. unfold game_inv. room_simpl.
  split; [now apply keys_set_NoDup|]. split.
  - destruct (JsMap.get (players room) sid) as [v0|] eqn:E.
    + now rewrite (keys_set_present _ _ _ v0 E).
    + rewrite (keys_set_absent _ _ _ E), length_app. cbn [List.length].
      unfold JsMap.size in Hn. unfold JsMap.keys. rewrite length_map. lia.
  - destruct H as [H3 [_ H]]. split; [exact H3|]. split; [|exact H].
    intros Hne. contradiction.
Qed.

(** The end of a turn: the turn is over, the intervals are stopped and the
    next turn is deferred by 3000 ms. *)
Lemma game_inv_turn_over (room : Room) :
  game_inv room -> state room <> lobby ->
  game_inv (set_pending (pending room ++ [(next_turn, 3000%Z)])%list
              (set_hintInterval None
                 (set_timer false (set_turnActive false room)))).
Proof.
  intros [H1 [H2 [H3 [H4 [H5 [H6 [H7 [H8 [H9 H10]]]]]]]]] Hs.
  unfold game_inv. room_simpl.
  split; [exact H1|]. split; [exact H2|]. split; [now intros Hl|].
  split; [exact H4|]. split; [discriminate|].
  split; [split; [discriminate | now intros H]|].
  split; [apply Forall_app; split; [exact H7 | repeat constructor; now right]|].
  split; [exact H8|]. split; [exact H9 | discriminate].
Qed.

Lemma game_inv_active (room : Room) :
  game_inv room -> turnActive room = true -> state room <> lobby.
Proof.
  intros [_ [_ [H3 _]]] Ha Hs. destruct (H3 Hs) as [_ [_ H]]. congruence.
Qed.

Lemma game_inv_skip (room : Room) :
  game_inv room -> turnActive room = true ->
  game_inv (fst (endTurn room false)).
Proof.
  intros H Ha. rewrite endTurn_false. cbn [fst].
  apply game_inv_turn_over; [exact H | now apply game_inv_active].
Qed.

Lemma game_inv_start_game_in (sid : string) (settings : option Settings.t)
      (draws : nat -> unit_draw) (room : Room) :
  game_inv room -> game_inv (fst (start_game_in sid settings draws room)).
Proof.
  intros H.
  destruct (String.eqb sid (hostId room)) eqn:Eh.
  2:{ unfold start_game_in. now rewrite Eh. }
  destruct (JsMap.size (players room) <? 2)%nat eqn:En.
  { unfold start_game_in. now rewrite Eh, En. }
  apply String.eqb_eq in Eh. apply Nat.ltb_ge in En.
  rewrite (start_game_in_host sid settings draws room Eh En). cbn [fst].
  destruct (apply_settings_frame settings room) as [_ [Hpl Hta]].
  destruct (apply_settings_rest settings room)
    as [_ [_ [_ [_ [Hu [Hti [Hhi [Hcw _]]]]]]]].
  destruct H as [H1 [H2 [H3 [H4 [H5 [H6 [H7 [H8 [H9 H10]]]]]]]]].
  unfold game_inv. room_simpl. rewrite Hpl, Hta, Hu, Hti, Hhi, Hcw.
  split; [exact H1|]. split; [exact H2|]. split; [discriminate|].
  split; [intros _; apply shuffle_from_perm|].
  split; [intros Ht; split; [now apply H5 | reflexivity]|]. split; [exact H6|].
  split; [apply Forall_app; split; [exact H7 | repeat constructor; now left]|].
  split; [exact H8|]. split; [exact H9 | exact H10].
Qed.

Lemma game_inv_handleGuess (room : Room) (sid text : string) :
  game_inv room -> game_inv (fst (handleGuess room sid text)).
Proof.
  intros H.
  destruct (handleGuess_cases room sid text) as [E|[player [Ha [Hd [Hg [Hp He]]]]]];
    [now rewrite E|].
  destruct (handleGuess_credit room sid text player Ha Hd Hg Hp He)
    as [pl [o [K [_ E]]]].
  cbv zeta in E. rewrite E.
  assert (H2 : game_inv
                 (set_players pl
                    (set_correctGuessers (correctGuessers room ++ [sid])%list room)))
    by (apply game_inv_same with room; trivial).
  destruct (nonDrawerCount room <=? S (JsSet.size (correctGuessers room)))%nat;
    cbn [fst]; [|exact H2].
  apply (game_inv_turn_over _ H2). room_simpl. now apply game_inv_active.
Qed.

Lemma game_inv_timer_tick (room : Room) :
  game_inv room -> game_inv (fst (timer_tick room)).
Proof.
  intros H. unfold timer_tick. destruct (timer room) eqn:Et; [|exact H].
  room_simpl.
  assert (H2 : game_inv (set_timeRemaining (timeRemaining room - 1) room))
    by (apply game_inv_same with room; trivial).
  destruct (timeRemaining room - 1 <=? 0)%Z; [|exact H2].
  rewrite endTurn_false. cbn [fst].
  apply (game_inv_turn_over _ H2). room_simpl.
  apply game_inv_active; [exact H|].
  destruct H as [_ [_ [_ [_ [H5 _]]]]]. now destruct (H5 Et).
Qed.

Lemma game_inv_hint_tick (room : Room) :
  game_inv room -> game_inv (fst (hint_tick room)).
Proof.
  intros H. unfold hint_tick.
  destruct (hintInterval room) as [hc|]; [|exact H].
  destruct (negb (turnActive room)); [exact H|].
  match goal with |- context [if ?b then _ else _] => destruct b end;
    [|exact H].
  cbn [fst]. apply game_inv_same with room; trivial.
Qed.

Lemma game_inv_endGame (room : Room) :
  game_inv room -> state room <> lobby -> game_inv (fst (endGame room)).
Proof.
  intros [H1 [H2 [H3 [H4 [H5 [H6 [H7 [H8 [H9 H10]]]]]]]]] Hs.
  unfold endGame, game_inv. room_simpl.
  split; [exact H1|]. split; [exact H2|]. split; [discriminate|].
  split; [intros _; now apply H4|]. split; [discriminate|].
  split; [split; [discriminate | now intros H]|].
  split; [exact H7|]. split; [exact H8|]. split; [exact H9 | exact H10].
Qed.

Lemma game_inv_stopped (room : Room) :
  game_inv room -> game_inv (set_hintInterval None (set_timer false room)).
Proof.
  intros [H1 [H2 [H3 [H4 [H5 [H6 [H7 [H8 [H9 H10]]]]]]]]].
  unfold game_inv. room_simpl.
  split; [exact H1|]. split; [exact H2|]. split; [exact H3|].
  split; [exact H4|]. split; [discriminate|].
  split; [split; [discriminate | now intros H]|].
  split; [exact H7|]. split; [exact H8|]. split; [exact H9 | exact H10].
Qed.

Lemma getRandomWord_words (u : unit_draw) (room : Room) :
  incl (usedWords room) WORD_LIST -> NoDup (usedWords room) ->
  exists w used,
    getRandomWord u room = (w, set_usedWords used room)
    /\ In w WORD_LIST /\ incl used WORD_LIST /\ NoDup used.
Proof.
  intros Hi Hn. destruct (available room) as [|a l] eqn:Ea.
  - destruct (getRandomWord_exhausted u room Ea) as [w [E Hw]].
    exists w, []. split; [exact E|]. split; [now apply nth_error_In in Hw|].
    split; [intros x [] | constructor].
  - assert (Hne : available room <> []) by (rewrite Ea; discriminate).
    destruct (getRandomWord_fresh u room Hne) as [w [E [_ [Hw Hu]]]].
    exists w, (usedWords room ++ [w])%list. split; [exact E|].
    split; [exact Hw|]. split.
    + intros x Hx. apply in_app_or in Hx as [Hx|[<-|[]]]; [now apply Hi | exact Hw].
    + apply NoDup_snoc; [exact Hn | now apply has_false_not_In].
Qed.

Lemma game_inv_begin_turn (u : unit_draw) (room : Room) (d : string)
      (dr : Player.t) :
  game_inv room -> state room <> lobby ->
  game_inv (fst (begin_turn u room d dr)).
Proof.
  intros [H1 [H2 [H3 [H4 [H5 [H6 [H7 [H8 [H9 H10]]]]]]]]] Hs.
  destruct (getRandomWord_words u room H8 H9) as [w [used [E [Hw [Hi Hn]]]]].
  unfold begin_turn. rewrite E. cbv zeta. unfold game_inv. room_simpl.
  split; [exact H1|]. split; [exact H2|]. split; [discriminate|].
  split; [intros _; now apply H4|]. split; [now split|].
  split; [split; [discriminate | reflexivity]|].
  split; [exact H7|]. split; [exact Hi|]. split; [exact Hn | now intros _].
Qed.

Lemma game_inv_startTurn (u : unit_draw) (room : Room) :
  game_inv room -> state room <> lobby -> game_inv (fst (startTurn u room)).
Proof.
  intros H Hs.
  destruct (startTurn_result u (rounds_left room) room (le_n _))
    as [i [k [E|[d [dr [_ [_ E]]]]]]]; rewrite E;
    [apply game_inv_endGame | apply game_inv_begin_turn]; trivial;
    apply game_inv_same with room; trivial.
Qed.

Lemma game_inv_fire (i : nat) (u : unit_draw) (room : Room) :
  game_inv room -> game_inv (fst (fire i u room)).
Proof.
  intros H. unfold fire.
  destruct (nth_error (pending room) i) as [[cb delay]|] eqn:E; [|exact H].
  assert (Hs : state room <> lobby).
  { intros Hl. destruct H as [_ [_ [H3 _]]]. destruct (H3 Hl) as [_ [Hp _]].
    rewrite Hp in E. now destruct i. }
  assert (H2 : game_inv (set_pending (remove_nth i (pending room)) room)).
  { destruct H as [H1 [H2 [H3 [H4 [H5 [H6 [H7 [H8 [H9 H10]]]]]]]]].
    unfold game_inv. room_simpl.
    split; [exact H1|]. split; [exact H2|]. split; [now intros Hl|].
    split; [exact H4|]. split; [exact H5|]. split; [exact H6|].
    split; [now apply remove_nth_Forall|].
    split; [exact H8|]. split; [exact H9 | exact H10]. }
  destruct cb; cbn [run_callback].
  - now apply game_inv_startTurn.
  - room_simpl.
    destruct (negb (room_state_eqb (state room) finished)
              && negb (room_state_eqb (state room) lobby)); [|exact H2].
    now apply game_inv_startTurn.
Qed.

Lemma game_inv_left (sid : string) (room : Room) :
  game_inv room ->
  game_inv (set_playerOrder
              (filter (fun id => negb (String.eqb id sid)) (playerOrder room))
              (set_players (JsMap.delete (players room) sid) room)).
Proof.
  intros [H1 [H2 [H3 [H4 [H5 [H6 [H7 [H8 [H9 H10]]]]]]]]].
  unfold game_inv. room_simpl. rewrite keys_delete.
  split; [now apply NoDup_filter|].
  split; [pose proof (filter_length_le (fun x => negb (String.eqb sid x))
                        (JsMap.keys (players room))); lia|].
  split.
  { intros Hl. destruct (H3 Hl) as [Ho [Hp Ha]]. rewrite Ho. now repeat split. }
  split.
  { intros Hs.
    rewrite (filter_ext (fun x => negb (String.eqb sid x))
                        (fun id => negb (String.eqb id sid)))
      by (intros a; now rewrite String.eqb_sym).
    apply filter_perm. now apply H4. }
  split; [exact H5|]. split; [exact H6|]. split; [exact H7|].
  split; [exact H8|]. split; [exact H9 | exact H10].
Qed.

Lemma game_inv_disconnect_in (sid : string) (sp : bool) (room : Room) :
  game_inv room -> game_inv (fst (fst (disconnect_in sid sp room))).
Proof.
  intros H. destruct sp.
  { unfold disconnect_in. cbn [fst]. apply game_inv_same with room; trivial. }
  destruct (JsMap.get (players room) sid) as [player|] eqn:Hp.
  2:{ unfold disconnect_in. now rewrite Hp. }
  destruct (disconnect_in_player sid room player Hp) as [r4 [out [E [Hr _]]]].
  cbv zeta in E, Hr. rewrite E. cbn [fst].
  set (r1 := set_playerOrder
               (filter (fun id => negb (String.eqb id sid)) (playerOrder room))
               (set_players (JsMap.delete (players room) sid) room)) in *.
  assert (G1 : game_inv r1) by now apply game_inv_left.
  set (ends := room_state_eqb (state room) playing
               && (JsMap.size (JsMap.delete (players room) sid) <? 2)%nat) in *.
  assert (G2 : game_inv (if ends then fst (endGame r1) else r1)).
  { destruct ends eqn:Ee; [|exact G1]. apply game_inv_endGame; [exact G1|].
    unfold r1. room_simpl. unfold ends in Ee. apply andb_prop in Ee as [Ee _].
    intros Hl. rewrite Hl in Ee. discriminate. }
  set (r2 := if ends then fst (endGame r1) else r1) in *.
  assert (G3 : game_inv
                 (if (JsMap.size (JsMap.delete (players room) sid) =? 0)%nat
                     && (JsMap.size (spectators room) =? 0)%nat
                  then set_hintInterval None (set_timer false r2) else r2)).
  { destruct (_ && _); [now apply game_inv_stopped | exact G2]. }
  destruct Hr as [->|[h ->]]; [exact G3|].
  eapply game_inv_same; [exact G3| | | | | | | | |]; reflexivity.
Qed.

Section EveryRun.

Variable P : Room -> Prop.

Hypothesis P_created :
  forall c sid nm st p,
    P (set_players (JsMap.set (players (createRoom c sid nm st)) sid p)
                   (createRoom c sid nm st)).
Hypothesis P_spectators :
  forall room sp, P room -> P (set_spectators sp room).
Hypothesis P_join :
  forall room sid p,
    P room -> state room = lobby -> JsMap.size (players room) < 10 ->
    P (set_players (JsMap.set (players room) sid p) room).
Hypothesis P_start_game :
  forall sid settings draws room,
    P room -> P (fst (start_game_in sid settings draws room)).
Hypothesis P_drawing :
  forall room data, P room -> P (set_drawingData data room).
Hypothesis P_handleGuess :
  forall room sid text, P room -> P (fst (handleGuess room sid text)).
Hypothesis P_skip :
  forall room, P room -> turnActive room = true -> P (fst (endTurn room false)).
Hypothesis P_timer_tick : forall room, P room -> P (fst (timer_tick room)).
Hypothesis P_hint_tick : forall room, P room -> P (fst (hint_tick room)).
Hypothesis P_fire : forall i u room, P room -> P (fst (fire i u room)).
Hypothesis P_disconnect :
  forall sid sp room, P room -> P (fst (fst (disconnect_in sid sp room))).

Lemma every_room_step (ev : input) (s : Server) :
  all_rooms P s -> all_rooms P (fst (step ev s)).
Proof.
  intros Hs. destruct ev; cbn [step].
  - (* connection *) now apply all_rooms_conns.
  - (* create_room *)
    unfold on_create_room. destruct (JsMap.get (sockets s) sid); [|exact Hs].
    cbn [fst]. apply all_rooms_conns. apply all_rooms_put; [exact Hs|].
    apply P_created.
  - (* join_room *)
    unfold on_join_room. destruct (JsMap.get (sockets s) sid); [|exact Hs].
    destruct (JsMap.get (rooms s) (JsString.toUpperCase roomCode)) as [room|] eqn:E;
      [|exact Hs].
    pose proof (Hs _ room E) as Hr.
    destruct asSpectator.
    { cbn [fst]. apply all_rooms_conns. apply all_rooms_set; [exact Hs|].
      now apply P_spectators. }
    destruct (room_state_eqb (state room) lobby) eqn:El; [|exact Hs].
    cbn [negb].
    destruct (10 <=? JsMap.size (players room))%nat eqn:Ec; [exact Hs|].
    cbn [fst]. apply all_rooms_conns. apply all_rooms_set; [exact Hs|].
    apply P_join; [exact Hr | now destruct (state room) | now apply Nat.leb_gt].
  - (* start_game *)
    unfold on_start_game.
    destruct (room_of s sid) as [room|] eqn:E; [|exact Hs].
    pose proof (P_start_game sid settings draws room
                  (room_of_all_rooms P s sid room Hs E)) as H.
    destruct (start_game_in sid settings draws room) as [r o].
    now apply all_rooms_put.
  - (* draw *)
    unfold on_draw. destruct (room_of s sid) as [room|] eqn:E; [|exact Hs].
    destruct (negb (turnActive room)); [exact Hs|].
    destruct (negb (is_id (currentDrawer room) sid)); [exact Hs|].
    cbn [fst]. apply all_rooms_put; [exact Hs|].
    apply P_drawing. now apply room_of_all_rooms with s sid.
  - (* clear_canvas *)
    unfold on_clear_canvas. destruct (room_of s sid) as [room|] eqn:E; [|exact Hs].
    destruct (negb (turnActive room)); [exact Hs|].
    destruct (negb (is_id (currentDrawer room) sid)); [exact Hs|].
    cbn [fst]. apply all_rooms_put; [exact Hs|].
    apply P_drawing. now apply room_of_all_rooms with s sid.
  - (* guess *)
    unfold on_guess. destruct (room_of s sid) as [room|] eqn:E; [|exact Hs].
    pose proof (P_handleGuess room sid text (room_of_all_rooms P s sid room Hs E)) as H.
    destruct (handleGuess room sid text) as [r o].
    now apply all_rooms_put.
  - (* skip_word *)
    unfold on_skip_word. destruct (room_of s sid) as [room|] eqn:E; [|exact Hs].
    destruct (turnActive room) eqn:Ea; [|exact Hs]. cbn [negb].
    destruct (negb (is_id (currentDrawer room) sid)); [exact Hs|].
    pose proof (P_skip room (room_of_all_rooms P s sid room Hs E) Ea) as H.
    destruct (endTurn room false) as [r o].
    now apply all_rooms_put.
  - (* disconnect *)
    unfold on_disconnect.
    destruct (JsMap.get (sockets s) sid) as [c|]; [|exact Hs].
    destruct (currentRoom c) as [cd|]; [|now apply all_rooms_conns].
    destruct (JsMap.get (rooms s) cd) as [room|] eqn:E; [|now apply all_rooms_conns].
    pose proof (P_disconnect sid (isSpectator c) room (Hs cd room E)) as H.
    destruct (disconnect_in sid (isSpectator c) room) as [[r o] deleted].
    cbn [fst] in *. destruct deleted.
    + now apply all_rooms_delete.
    + now apply all_rooms_set.
  - (* countdown *) apply all_rooms_in_room; [exact P_timer_tick | exact Hs].
  - (* hint_check *) apply all_rooms_in_room; [exact P_hint_tick | exact Hs].
  - (* timeout *) apply all_rooms_in_room; [apply P_fire | exact Hs].
Qed.

Lemma every_room_run (evs : list input) :
  forall s, all_rooms P s -> all_rooms P (fst (run evs s)).
Proof.
  induction evs as [|ev evs IH]; intros s Hs; [exact Hs|].
  rewrite run_cons_fst. apply IH. now apply every_room_step.
Qed.

End EveryRun.

Lemma game_inv_kept (evs : list input) (c : string) (room : Room) :
  room_after evs c = Some room -> game_inv room.
Proof.
  intros Hr.
  assert (Hall : all_rooms game_inv (fst (run evs empty_server))).
  { apply (every_room_run game_inv).
    - exact game_inv_created.
    - intros r sp H. apply game_inv_same with r; trivial.
    - exact game_inv_join.
    - exact game_inv_start_game_in.
    - intros r data H. apply game_inv_same with r; trivial.
    - exact game_inv_handleGuess.
    - exact game_inv_skip.
    - exact game_inv_timer_tick.
    - exact game_inv_hint_tick.
    - exact game_inv_fire.
    - exact game_inv_disconnect_in.
    - apply all_rooms_empty. }
  exact (Hall c room Hr).
Qed.

(** X11.  In every run of the server, whatever the clients send, no room
    ever holds more than 10 players, and no id is a player of a room
    twice. *)
Theorem players_at_most_10 :
  forall evs c room,
    room_after evs c = Some room ->
    JsMap.size (players room) <= 10
    /\ NoDup (JsMap.keys (players room)).
Proof.
  intros evs c room Hr.
  destruct (game_inv_kept evs c room Hr) as [H1 [H2 _]].
  split; [|exact H1].
  unfold JsMap.keys in H2. rewrite length_map in H2. exact H2.
Qed.

Lemma players_at_most_10_witness :
  JsMap.size (players lobby_of_two) <= 10
  /\ NoDup (JsMap.keys (players lobby_of_two)).
Proof.
  apply (players_at_most_10
           [ connection "A"; create_room "A" "Ann" None None None first_draws;
             connection "B"; join_room "B" "AAAA" "Bob" false ] "AAAA").
  vm_compute. reflexivity.
Defined.

(** X12.  In every run, the drawing order of a room is empty in the lobby,
    and from [start_game] on it lists the players of the room, each once,
    also after players have left; the drawer that
    [playerOrder[currentDrawerIndex]] names, when it names one, is a player
    of the room. *)
Theorem playerOrder_lists_players :
  forall evs c room,
    room_after evs c = Some room ->
    (state room = lobby -> playerOrder room = [])
    /\ (state room <> lobby ->
        Permutation.Permutation (playerOrder room) (JsMap.keys (players room)))
    /\ NoDup (playerOrder room)
    /\ forall d, currentDrawer room = Some d ->
                 exists p, JsMap.get (players room) d = Some p.
Proof.
  intros evs c room Hr.
  destruct (game_inv_kept evs c room Hr) as [H1 [_ [H3 [H4 _]]]].
  assert (Hl : state room = lobby \/ state room <> lobby)
    by (destruct (state room); (now left) || (right; discriminate)).
  split; [intros Hs; now destruct (H3 Hs)|]. split; [exact H4|]. split.
  - destruct Hl as [Hs|Hs].
    + destruct (H3 Hs) as [-> _]. constructor.
    + apply (Permutation.Permutation_NoDup (l := JsMap.keys (players room)));
        [apply Permutation.Permutation_sym; now apply H4 | exact H1].
  - intros d Hd. apply array_get_In in Hd. destruct Hl as [Hs|Hs].
    + destruct (H3 Hs) as [Ho _]. rewrite Ho in Hd. destruct Hd.
    + apply In_keys_get.
      now apply (Permutation.Permutation_in d (H4 Hs)).
Qed.

Lemma playerOrder_lists_players_witness :
  NoDup (playerOrder (first_turn_with (mkDraw 0 0)))
  /\ exists p, JsMap.get (players (first_turn_with (mkDraw 0 0))) "B" = Some p.
Proof.
  destruct (playerOrder_lists_players two_player_start "AAAA"
              (first_turn_with (mkDraw 0 0)))
    as [_ [_ [H3 H4]]]; [vm_compute; reflexivity|].
  split; [exact H3|]. apply H4. vm_compute. reflexivity.
Defined.

(** X13.  In every run, every call that a room has deferred is the first
    turn, 2000 ms after [start_game], or the next turn, 3000 ms after the end
    of a turn: no turn is followed by another delay, and a room in the lobby
    has deferred nothing. *)
Theorem deferred_calls :
  forall evs c room cb delay,
    room_after evs c = Some room ->
    In (cb, delay) (pending room) ->
    state room <> lobby
    /\ ((cb = first_turn /\ delay = 2000%Z)
        \/ (cb = next_turn /\ delay = 3000%Z)).
Proof.
  intros evs c room cb delay Hr Hin.
  destruct (game_inv_kept evs c room Hr) as [_ [_ [H3 [_ [_ [_ [H7 _]]]]]]].
  split.
  - intros Hs. destruct (H3 Hs) as [_ [Hp _]]. rewrite Hp in Hin. destruct Hin.
  - rewrite Forall_forall in H7. destruct (H7 _ Hin) as [E|E];
      injection E as -> ->; [left | right]; now split.
Qed.

Lemma deferred_calls_witness :
  state (fst (handleGuess queen_at_30 "A" "queen")) <> lobby
  /\ ((next_turn = first_turn /\ 3000%Z = 2000%Z)
      \/ (next_turn = next_turn /\ 3000%Z = 3000%Z)).
Proof.
  apply (deferred_calls
           (two_player_start ++ repeat (countdown "AAAA") 10
              ++ [guess "A" "queen"])%list
           "AAAA" (fst (handleGuess queen_at_30 "A" "queen")));
    [vm_compute; reflexivity | vm_compute; left; reflexivity].
Defined.

(** X14.  In every run, the countdown and the hint interval of a room run
    together or not at all, and only during an active turn of a game that is
    being played. *)
Theorem intervals_only_in_turn :
  forall evs c room,
    room_after evs c = Some room ->
    (timer room = true <-> hintInterval room <> None)
    /\ (timer room = true -> turnActive room = true /\ state room = playing).
Proof.
  intros evs c room Hr.
  destruct (game_inv_kept evs c room Hr) as [_ [_ [_ [_ [H5 [H6 _]]]]]].
  split; [exact H6 | exact H5].
Qed.

Lemma intervals_only_in_turn_witness :
  (timer (first_turn_with (mkDraw 0 0)) = true
   <-> hintInterval (first_turn_with (mkDraw 0 0)) <> None)
  /\ (timer (first_turn_with (mkDraw 0 0)) = true ->
      turnActive (first_turn_with (mkDraw 0 0)) = true
      /\ state (first_turn_with (mkDraw 0 0)) = playing).
Proof.
  apply (intervals_only_in_turn two_player_start "AAAA").
  vm_compute. reflexivity.
Defined.

(** X15.  In every run, the words a room has used are distinct words of the
    word list, so at most 51, and the word of an active turn is a word of
    the list. *)
Theorem words_of_the_list :
  forall evs c room,
    room_after evs c = Some room ->
    incl (usedWords room) WORD_LIST
    /\ NoDup (usedWords room)
    /\ JsSet.size (usedWords room) <= 51
    /\ (turnActive room = true -> In (currentWord room) WORD_LIST).
Proof.
  intros evs c room Hr.
  destruct (game_inv_kept evs c room Hr)
    as [_ [_ [_ [_ [_ [_ [_ [H8 [H9 H10]]]]]]]]].
  split; [exact H8|]. split; [exact H9|]. split; [|exact H10].
  pose proof (NoDup_incl_length H9 H8) as Hle.
  rewrite WORD_LIST_length in Hle. exact Hle.
Qed.

Lemma words_of_the_list_witness :
  incl (usedWords (first_turn_with (mkDraw 0 0))) WORD_LIST
  /\ NoDup (usedWords (first_turn_with (mkDraw 0 0)))
  /\ JsSet.size (usedWords (first_turn_with (mkDraw 0 0))) <= 51
  /\ (turnActive (first_turn_with (mkDraw 0 0)) = true ->
      In (currentWord (first_turn_with (mkDraw 0 0))) WORD_LIST).
Proof.
  apply (words_of_the_list two_player_start "AAAA").
  vm_compute. reflexivity.
Defined.

(** ** Leaving players and the host *)

(** The [disconnect] handler on a player of the room, with the host it
    leaves the room with. *)
Lemma disconnect_in_host (sid : string) (room : Room) (player : Player.t) :
  JsMap.get (players room) sid = Some player ->
  let r1 :=
    set_playerOrder
      (filter (fun id => negb (String.eqb id sid)) (playerOrder room))
      (set_players (JsMap.delete (players room) sid) room) in
  let ends :=
    room_state_eqb (state room) playing
    && (JsMap.size (JsMap.delete (players room) sid) <? 2)%nat in
  let r2 := if ends then fst (endGame r1) else r1 in
  let empty :=
    (JsMap.size (JsMap.delete (players room) sid) =? 0)%nat
    && (JsMap.size (spectators room) =? 0)%nat in
  let r3 := if empty then set_hintInterval None (set_timer false r2) else r2 in
  exists out,
    disconnect_in sid false room
    = (match next_host sid room with
       | Some h => set_hostId h r3
       | None => r3
       end, out, empty)
    /\ (forall h, next_host sid room = Some h ->
                  In (to_room (code room),
                      new_host h (getPlayerList (set_hostId h r3))) out)
    /\ (ends = true ->
        exists winner,
          In (to_room (code room),
              game_over (getPlayerList r1) winner (isChampionship room)) out).
Proof.
  intros Hp r1 ends r2 empty r3.
  unfold disconnect_in. rewrite Hp. room_simpl.
  unfold currentDrawer. room_simpl. rewrite filtered_order_not_id.
  rewrite andb_false_r. fold r1.
  change (state r1) with (state room).
  change (players r1) with (JsMap.delete (players room) sid).
  fold ends.
  assert (E2 : (if ends then endGame r1 else (r1, []))
               = (r2, if ends then snd (endGame r1) else [])).
  { unfold r2. destruct ends; [apply surjective_pairing | reflexivity]. }
  rewrite E2.
  assert (Hp2 : players r2 = JsMap.delete (players room) sid
                /\ spectators r2 = spectators room).
  { unfold r2. destruct ends; split; reflexivity. }
  destruct Hp2 as [Hp2 Hs2]. rewrite Hp2, Hs2. fold empty.
  assert (E3 : (if empty then (set_hintInterval None (set_timer false r2), true)
                else (r2, false)) = (r3, empty)).
  { unfold r3. now destruct empty. }
  rewrite E3.
  assert (Hp3 : players r3 = JsMap.delete (players room) sid
                /\ hostId r3 = hostId room /\ code r3 = code room).
  { unfold r3, r2. destruct empty, ends; repeat split. }
  destruct Hp3 as [Hp3 [Hh3 Hc3]]. rewrite Hp3, Hh3.
  assert (Hends : ends = true ->
                  exists winner,
                    In (to_room (code room),
                        game_over (getPlayerList r1) winner (isChampionship room))
                       (if ends then snd (endGame r1) else [])).
  { intros ->. eexists. left. reflexivity. }
  unfold next_host.
  destruct (JsMap.keys (JsMap.delete (players room) sid)) as [|first rest].
  - eexists. split; [reflexivity|]. split; [discriminate|].
    intros He. destruct (Hends He) as [w Hw]. exists w.
    right. rewrite app_nil_r. exact Hw.
  - destruct (String.eqb sid (hostId room)).
    + eexists. split; [reflexivity|]. split.
      * intros h [= <-]. room_simpl. rewrite Hc3.
        right. cbn [app]. apply in_or_app. right. now left.
      * intros He. destruct (Hends He) as [w Hw]. exists w.
        right. cbn [app]. apply in_or_app. now left.
    + eexists. split; [reflexivity|]. split; [discriminate|].
      intros He. destruct (Hends He) as [w Hw]. exists w.
      right. rewrite app_nil_r. exact Hw.
Qed.

(** X16.  When a player disconnects, the player is removed from the players
    and from the drawing order; the room is dropped exactly when no player
    and no spectator is left; when the host is the one who leaves and
    players remain, the first of them becomes the host and the room is told
    so, and otherwise the host stays; and a game that is being played with
    fewer than two players left is finished and the room is told the
    result. *)
Theorem disconnect_moves_host :
  forall sid room player,
    JsMap.get (players room) sid = Some player ->
    let room' := fst (fst (disconnect_in sid false room)) in
    let out := snd (fst (disconnect_in sid false room)) in
    let remaining := JsMap.delete (players room) sid in
    players room' = remaining
    /\ JsMap.get (players room') sid = None
    /\ playerOrder room'
       = filter (fun id => negb (String.eqb id sid)) (playerOrder room)
    /\ (snd (disconnect_in sid false room) = true
        <-> remaining = [] /\ spectators room = [])
    /\ (forall first rest,
           JsMap.keys remaining = first :: rest -> sid = hostId room ->
           hostId room' = first
           /\ In (to_room (code room), new_host first (getPlayerList room')) out)
    /\ (sid <> hostId room \/ remaining = [] -> hostId room' = hostId room)
    /\ (state room = playing -> JsMap.size remaining < 2 ->
        state room' = finished
        /\ exists standings winner,
             In (to_room (code room),
                 game_over standings winner (isChampionship room)) out).
Proof.
  intros sid room player Hp room' out remaining.
  destruct (disconnect_in_host sid room player Hp) as [o [E [Hn He]]].
  cbv zeta in E, Hn, He. subst room' out. rewrite E. cbn [fst snd].
  fold remaining. fold remaining in E, Hn, He.
  set (r1 := set_playerOrder
               (filter (fun id => negb (String.eqb id sid)) (playerOrder room))
               (set_players remaining room)) in *.
  set (ends := room_state_eqb (state room) playing
               && (JsMap.size remaining <? 2)%nat) in *.
  set (empty := (JsMap.size remaining =? 0)%nat
                && (JsMap.size (spectators room) =? 0)%nat) in *.
  set (r3 := if empty then set_hintInterval None
                             (set_timer false (if ends then fst (endGame r1) else r1))
             else if ends then fst (endGame r1) else r1) in *.
  assert (F3 : players r3 = remaining
               /\ playerOrder r3
                  = filter (fun id => negb (String.eqb id sid)) (playerOrder room)
               /\ hostId r3 = hostId room
               /\ (ends = true -> state r3 = finished)).
  { unfold r3. destruct empty, ends; repeat split; discriminate. }
  destruct F3 as [F1 [F2 [F3 F4]]].
  assert (Hpl : players (match next_host sid room with
                         | Some h => set_hostId h r3
                         | None => r3
                         end) = remaining)
    by (destruct (next_host sid room); exact F1).
  split; [exact Hpl|].
  split; [rewrite Hpl; apply get_delete_same|].
  split; [destruct (next_host sid room); exact F2|].
  split.
  { unfold empty, JsMap.size. split.
    - intros H. apply andb_prop in H as [H1 H2].
      apply Nat.eqb_eq in H1, H2. split; now apply length_zero_iff_nil.
    - intros [-> ->]. reflexivity. }
  split.
  { intros first rest Hk Hh.
    assert (En : next_host sid room = Some first).
    { unfold next_host. fold remaining. rewrite Hk, Hh.
      now rewrite String.eqb_refl. }
    specialize (Hn first En). rewrite En. split; [reflexivity | exact Hn]. }
  split.
  { intros Hc.
    assert (En : next_host sid room = None).
    { unfold next_host. fold remaining. destruct Hc as [Hc| ->]; [|reflexivity].
      destruct (JsMap.keys remaining); [reflexivity|].
      apply String.eqb_neq in Hc. now rewrite Hc. }
    rewrite En. exact F3. }
  intros Hs Hl.
  assert (Ee : ends = true).
  { unfold ends. rewrite Hs. cbn [room_state_eqb andb]. now apply Nat.ltb_lt. }
  split.
  - destruct (next_host sid room); now apply F4.
  - destruct (He Ee) as [w Hw]. eexists. exists w. exact Hw.
Qed.

Lemma disconnect_moves_host_witness :
  hostId (fst (fst (disconnect_in "A" false lobby_of_two))) = "B"
  /\ JsMap.keys (players (fst (fst (disconnect_in "A" false lobby_of_two))))
     = ["B"].
Proof.
  assert (Hp : JsMap.get (players lobby_of_two) "A" = Some (Player.mk "Ann" 0))
    by (vm_compute; reflexivity).
  assert (Hk : JsMap.keys (JsMap.delete (players lobby_of_two) "A") = ["B"])
    by (vm_compute; reflexivity).
  assert (Hh : "A" = hostId lobby_of_two) by (vm_compute; reflexivity).
  destruct (disconnect_moves_host "A" lobby_of_two (Player.mk "Ann" 0) Hp)
    as [H1 [_ [_ [_ [H5 _]]]]].
  split.
  - exact (proj1 (H5 "B" [] Hk Hh)).
  - rewrite H1. exact Hk.
Defined.

(** ** The countdown *)

Lemma timer_tick_goes_on (room : Room) :
  timer room = true -> (1 < timeRemaining room)%Z ->
  timer_tick room
  = (set_timeRemaining (timeRemaining room - 1) room,
     both (code room) (timer_update (timeRemaining room - 1))).
Proof.
  intros Ht Hr. unfold timer_tick. rewrite Ht. room_simpl.
  destruct (timeRemaining room - 1 <=? 0)%Z eqn:E; [|reflexivity].
  apply Z.leb_le in E. lia.
Qed.

Lemma timer_tick_runs_out (room : Room) :
  timer room = true -> (timeRemaining room <= 1)%Z ->
  timer_tick room
  = (fst (endTurn (set_timeRemaining (timeRemaining room - 1) room) false),
     (both (code room) (timer_update (timeRemaining room - 1))
      ++ both (code room)
           (turn_end (currentWord room) false (getPlayerList room)
                     (roundNumber room) (totalRounds room)))%list).
Proof.
  intros Ht Hr. unfold timer_tick. rewrite Ht. room_simpl.
  destruct (timeRemaining room - 1 <=? 0)%Z eqn:E;
    [|apply Z.leb_gt in E; lia].
  rewrite endTurn_false. reflexivity.
Qed.

Lemma ticks_before (k : nat) :
  forall room,
    timer room = true -> (Z.of_nat k < timeRemaining room)%Z ->
    fst (ticks k room)
    = set_timeRemaining (timeRemaining room - Z.of_nat k) room
    /\ forall e, In e (snd (ticks k room)) -> is_turn_end e = false.
Proof.
  induction k as [|k IH]; intros room Ht Hr.
  - cbn [ticks fst snd]. split; [|intros e []].
    rewrite Z.sub_0_r. now destruct room.
  - cbn [ticks]. rewrite timer_tick_goes_on by (trivial; lia).
    set (r1 := set_timeRemaining (timeRemaining room - 1) room).
    destruct (IH r1) as [E Ho]; [exact Ht | unfold r1; room_simpl; lia|].
    destruct (ticks k r1) as [r2 o2]. cbn [fst snd] in *. split.
    + rewrite E. unfold r1. room_simpl.
      replace (timeRemaining room - 1 - Z.of_nat k)%Z
        with (timeRemaining room - Z.of_nat (S k))%Z by lia.
      reflexivity.
    + intros e He. apply in_app_or in He as [He|He]; [|now apply Ho].
      destruct He as [<-|[<-|[]]]; reflexivity.
Qed.

Lemma ticks_add (j k : nat) :
  forall room,
    ticks (j + k) room
    = (fst (ticks k (fst (ticks j room))),
       (snd (ticks j room) ++ snd (ticks k (fst (ticks j room))))%list).
Proof.
  induction j as [|j IH]; intros room.
  - cbn [ticks Nat.add fst snd app]. now destruct (ticks k room).
  - cbn [ticks Nat.add]. destruct (timer_tick room) as [r1 o1].
    rewrite IH. destruct (ticks j r1) as [r2 o2]. cbn [fst snd].
    now rewrite app_assoc.
Qed.

(** X17.  A turn that nothing else ends lasts as many ticks of the countdown
    as the time it has left: with [n >= 1] seconds remaining, the first
    [n - 1] ticks only count down and send no [turn_end], and the [n]-th
    tick ends the turn, stops both intervals, tells the room the word with
    [wasGuessed] false and sets the next turn to start 3000 ms later. *)
Theorem countdown_ends_turn :
  forall room n,
    timer room = true ->
    timeRemaining room = Z.of_nat n ->
    1 <= n ->
    (forall k, k < n ->
       fst (ticks k room) = set_timeRemaining (Z.of_nat (n - k)) room
       /\ forall e, In e (snd (ticks k room)) -> is_turn_end e = false)
    /\ fst (ticks n room)
       = set_pending (pending room ++ [(next_turn, 3000%Z)])%list
           (set_hintInterval None
              (set_timer false
                 (set_turnActive false (set_timeRemaining 0 room))))
    /\ In (to_room (code room),
           turn_end (currentWord room) false (getPlayerList room)
                    (roundNumber room) (totalRounds room))
          (snd (ticks n room)).
Proof.
  intros room n Ht Hr Hn.
  assert (Hbefore : forall k, k < n ->
            fst (ticks k room) = set_timeRemaining (Z.of_nat (n - k)) room
            /\ forall e, In e (snd (ticks k room)) -> is_turn_end e = false).
  { intros k Hk. destruct (ticks_before k room Ht) as [E Ho]; [lia|].
    split; [|exact Ho]. rewrite E, Hr. f_equal. lia. }
  split; [exact Hbefore|].
  destruct n as [|m]; [lia|].
  destruct (Hbefore m) as [E _]; [lia|].
  replace (S m - m) with 1 in E by lia.
  assert (Es : ticks (S m) room = ticks (m + 1) room) by (f_equal; lia).
  rewrite Es, ticks_add. cbn [fst snd]. rewrite E.
  set (r1 := set_timeRemaining (Z.of_nat 1) room).
  assert (E1 : ticks 1 r1
               = (fst (endTurn (set_timeRemaining 0 room) false),
                  (both (code room) (timer_update 0)
                   ++ both (code room)
                        (turn_end (currentWord room) false (getPlayerList room)
                           (roundNumber room) (totalRounds room))) ++ [])%list).
  { cbn [ticks]. rewrite (timer_tick_runs_out r1); [reflexivity | exact Ht|].
    unfold r1. room_simpl. lia. }
  rewrite E1. cbn [fst snd]. split.
  - rewrite endTurn_false. reflexivity.
  - apply in_or_app. right. rewrite app_nil_r. right. right. now left.
Qed.

Lemma countdown_ends_turn_witness :
  turnActive (fst (ticks 40 (first_turn_with (mkDraw 0 0)))) = false
  /\ timeRemaining (fst (ticks 39 (first_turn_with (mkDraw 0 0)))) = 1%Z.
Proof.
  assert (Ht : timer (first_turn_with (mkDraw 0 0)) = true)
    by (vm_compute; reflexivity).
  assert (Hr : timeRemaining (first_turn_with (mkDraw 0 0)) = Z.of_nat 40)
    by (vm_compute; reflexivity).
  assert (Hn : 1 <= 40) by lia.
  destruct (countdown_ends_turn (first_turn_with (mkDraw 0 0)) 40 Ht Hr Hn)
    as [H1 [H2 _]].
  split.
  - rewrite H2. reflexivity.
  - destruct (H1 39) as [E _]; [lia|]. rewrite E. reflexivity.
Defined.

(** ** The start of a turn *)

Lemma getRandomWord_in_list (u : unit_draw) (room : Room) :
  exists w used,
    getRandomWord u room = (w, set_usedWords used room) /\ In w WORD_LIST.
Proof.
  destruct (available room) as [|a l] eqn:Ea.
  - destruct (getRandomWord_exhausted u room Ea) as [w [E Hw]].
    exists w, []. split; [exact E | now apply nth_error_In in Hw].
  - assert (Hne : available room <> []) by (rewrite Ea; discriminate).
    destruct (getRandomWord_fresh u room Hne) as [w [E [_ [Hw _]]]].
    exists w, (usedWords room ++ [w])%list. now split.
Qed.

(** [startTurn] from the word selection on, field by field. *)
Lemma begin_turn_fields (u : unit_draw) (room : Room) (d : string)
      (dr : Player.t) :
  exists w used,
    In w WORD_LIST
    /\ getRandomWord u room = (w, set_usedWords used room)
    /\ begin_turn u room d dr
       = (set_hintInterval
            (Some (mkHintClosure d (hintTimes_of w (timePerTurn room))))
            (set_timer true
               (set_state playing
                  (set_hintsRevealed 0
                     (set_timeRemaining (timePerTurn room)
                        (set_turnActive true
                           (set_correctGuessers []
                              (set_drawingData []
                                 (set_currentWord w
                                    (set_usedWords used room))))))))),
          [ (to_room (code room),
             turn_start d (Player.name dr) (generateHint w 0) (roundNumber room)
                        (totalRounds room) (timePerTurn room)
                        (getPlayerList room));
            (to_socket d, your_word w);
            (to_spectators (code room),
             turn_start d (Player.name dr) (generateHint w 0) (roundNumber room)
                        (totalRounds room) (timePerTurn room)
                        (getPlayerList room)) ]).
Proof.
  destruct (getRandomWord_in_list u room) as [w [used [E Hw]]].
  exists w, used. split; [exact Hw|]. split; [exact E|].
  unfold begin_turn. rewrite E. reflexivity.
Qed.

(** [startTurn] ends the game on a round past the last, or begins the turn of
    a player of the room on a round that is not past the last. *)
Lemma startTurn_outcome (u : unit_draw) (n : nat) :
  forall room,
    rounds_left room <= n ->
    exists i k,
      (roundNumber room < k)%Z
      /\ (((totalRounds room < k)%Z
           /\ startTurn u room
              = endGame (set_roundNumber k (set_currentDrawerIndex i room)))
          \/ exists d dr,
               (k <= totalRounds room)%Z
               /\ currentDrawer (set_roundNumber k (set_currentDrawerIndex i room))
                  = Some d
               /\ JsMap.get (players room) d = Some dr
               /\ startTurn u room
                  = begin_turn u
                      (set_roundNumber k (set_currentDrawerIndex i room)) d dr).
Proof.
  induction n as [|n IH]; intros room Hn; rewrite startTurn_eq;
    destruct (advance_frame room) as [i Ei]; rewrite Ei.
  - exists i, (roundNumber room + 1)%Z. split; [lia|]. left.
    assert (E : (totalRounds (set_roundNumber (roundNumber room + 1)
                                (set_currentDrawerIndex i room))
                 <? roundNumber (set_roundNumber (roundNumber room + 1)
                                   (set_currentDrawerIndex i room)))%Z = true).
    { room_simpl. apply Z.ltb_lt. unfold rounds_left in Hn. lia. }
    rewrite E. split; [|reflexivity]. unfold rounds_left in Hn. lia.
  - set (r1 := set_roundNumber (roundNumber room + 1) (set_currentDrawerIndex i room)).
    destruct (totalRounds r1 <? roundNumber r1)%Z eqn:E.
    { exists i, (roundNumber room + 1)%Z. split; [lia|]. left.
      split; [|reflexivity]. apply Z.ltb_lt in E. unfold r1 in E.
      room_simpl in E. exact E. }
    apply Z.ltb_ge in E. unfold r1 in E. room_simpl in E.
    assert (Hr1 : rounds_left r1 <= n).
    { unfold rounds_left in *. unfold r1. room_simpl. lia. }
    destruct (IH r1 Hr1) as [i' [k' [Hk Hrec]]].
    change (set_roundNumber k' (set_currentDrawerIndex i' r1))
      with (set_roundNumber k' (set_currentDrawerIndex i' room)) in Hrec.
    change (players r1) with (players room) in Hrec.
    change (totalRounds r1) with (totalRounds room) in Hrec.
    change (roundNumber r1) with (roundNumber room + 1)%Z in Hk.
    destruct (currentDrawer r1) as [d|] eqn:Ed.
    + change (players r1) with (players room).
      destruct (JsMap.get (players room) d) as [dr|] eqn:Ep.
      * exists i, (roundNumber room + 1)%Z. split; [lia|].
        right. exists d, dr. now repeat split.
      * exists i', k'. split; [lia | exact Hrec].
    + exists i', k'. split; [lia | exact Hrec].
Qed.


Lemma advance_next (room : Room) :
  advance room
  = set_roundNumber (roundNumber room + 1)
      (set_currentDrawerIndex (next_index room) room).
Proof.
  unfold advance, next_index.
  cbn [playerOrder currentDrawerIndex set_currentDrawerIndex].
  destruct (Z.of_nat (List.length (playerOrder room)) <=? currentDrawerIndex room + 1)%Z;
    reflexivity.
Qed.

(** X19.  The turns go round the drawing order.  When rounds are left, the
    order is not empty and all its ids are players of the room, [startTurn]
    begins the turn of the next id of the order, the first one after the
    last, and counts one round. *)
Theorem startTurn_next_in_order :
  forall u room,
    (roundNumber room < totalRounds room)%Z ->
    playerOrder room <> [] ->
    (-1 <= currentDrawerIndex room)%Z ->
    (forall id, In id (playerOrder room) ->
                exists p, JsMap.get (players room) id = Some p) ->
    let room' := fst (startTurn u room) in
    currentDrawerIndex room' = next_index room
    /\ (0 <= next_index room < Z.of_nat (List.length (playerOrder room)))%Z
    /\ currentDrawer room'
       = nth_error (playerOrder room) (Z.to_nat (next_index room))
    /\ currentDrawer room' <> None
    /\ roundNumber room' = (roundNumber room + 1)%Z
    /\ turnActive room' = true
    /\ state room' = playing.
Proof.
  intros u room Hr Ho Hi Hp room'.
  assert (Hj : (0 <= next_index room < Z.of_nat (List.length (playerOrder room)))%Z).
  { unfold next_index.
    destruct (Z.of_nat (List.length (playerOrder room)) <=? currentDrawerIndex room + 1)%Z
      eqn:E; [|apply Z.leb_gt in E; lia].
    destruct (playerOrder room); [contradiction | cbn [List.length]; lia]. }
  set (r1 := set_roundNumber (roundNumber room + 1)
               (set_currentDrawerIndex (next_index room) room)).
  assert (Hd : currentDrawer r1
               = nth_error (playerOrder room) (Z.to_nat (next_index room))).
  { unfold currentDrawer, r1, array_get. room_simpl.
    destruct (next_index room <? 0)%Z eqn:E; [apply Z.ltb_lt in E; lia|].
    reflexivity. }
  destruct (nth_error (playerOrder room) (Z.to_nat (next_index room)))
    as [d|] eqn:En.
  2:{ apply nth_error_None in En. lia. }
  destruct (Hp d (nth_error_In _ _ En)) as [dr Hdr].
  assert (E : startTurn u room = begin_turn u r1 d dr).
  { rewrite startTurn_eq, advance_next. fold r1.
    assert (Et : (totalRounds r1 <? roundNumber r1)%Z = false).
    { unfold r1. room_simpl. apply Z.ltb_ge. lia. }
    rewrite Et, Hd. change (players r1) with (players room). now rewrite Hdr. }
  destruct (begin_turn_fields u r1 d dr) as [w [used [_ [_ Eb]]]].
  subst room'. rewrite E, Eb. cbn [fst].
  match goal with
  | |- context [currentDrawer ?r] =>
      change (currentDrawer r) with (currentDrawer r1)
  end.
  rewrite Hd. room_simpl.
  split; [reflexivity|]. split; [exact Hj|].
  split; [reflexivity|]. split; [discriminate|]. now repeat split.
Qed.

Lemma startTurn_next_in_order_witness :
  currentDrawerIndex
    (fst (startTurn (mkDraw 0 0) (fst (handleGuess queen_at_30 "A" "queen"))))
  = 1%Z
  /\ currentDrawer
       (fst (startTurn (mkDraw 0 0) (fst (handleGuess queen_at_30 "A" "queen"))))
     = Some "A".
Proof.
  assert (Hr : (roundNumber (fst (handleGuess queen_at_30 "A" "queen"))
                < totalRounds (fst (handleGuess queen_at_30 "A" "queen")))%Z)
    by (vm_compute; reflexivity).
  assert (Ho : playerOrder (fst (handleGuess queen_at_30 "A" "queen")) <> [])
    by (vm_compute; discriminate).
  assert (Hi : (-1 <= currentDrawerIndex
                        (fst (handleGuess queen_at_30 "A" "queen")))%Z)
    by (vm_compute; discriminate).
  assert (Hp : forall id,
             In id (playerOrder (fst (handleGuess queen_at_30 "A" "queen"))) ->
             exists p,
               JsMap.get (players (fst (handleGuess queen_at_30 "A" "queen"))) id
               = Some p).
  { intros id Hin. vm_compute in Hin.
    destruct Hin as [<-|[<-|[]]]; eexists; vm_compute; reflexivity. }
  destruct (startTurn_next_in_order (mkDraw 0 0)
              (fst (handleGuess queen_at_30 "A" "queen")) Hr Ho Hi Hp)
    as [H1 [_ [H3 _]]].
  split.
  - rewrite H1. vm_compute. reflexivity.
  - rewrite H3. vm_compute. reflexivity.
Defined.

(** ** Hints during the turn *)

(** X20.  What the hint interval sends is a hint, made of the word of the
    turn with more letters shown than before and no more than the turn has
    hint times; it goes to the spectators and to the players who are neither
    the drawer of the turn nor among those who have guessed the word, and to
    nobody else.  Once sent, the same hint is not sent again. *)
Theorem hint_tick_recipients :
  forall room,
    (forall e,
        In e (snd (hint_tick room)) ->
        exists hc,
          hintInterval room = Some hc
          /\ turnActive room = true
          /\ snd e
             = hint_update
                 (generateHint (currentWord room)
                               (hintsRevealed (fst (hint_tick room))))
          /\ (hintsRevealed room < hintsRevealed (fst (hint_tick room))
              <= Z.of_nat (List.length (hc_hintTimes hc)))%Z
          /\ (fst e = to_spectators (code room)
              \/ exists id,
                   fst e = to_socket id
                   /\ In id (JsMap.keys (players room))
                   /\ id <> hc_drawerId hc
                   /\ ~ In id (correctGuessers room)))
    /\ snd (hint_tick (fst (hint_tick room))) = [].
Proof.
  intros room.
  destruct (hintInterval room) as [hc|] eqn:Eh.
  2:{ assert (E : hint_tick room = (room, []))
        by (unfold hint_tick; now rewrite Eh).
      rewrite E. cbn [fst snd]. rewrite E. split; [intros e [] | reflexivity]. }
  destruct (turnActive room) eqn:Ea.
  2:{ assert (E : hint_tick room = (room, []))
        by (unfold hint_tick; now rewrite Eh, Ea).
      rewrite E. cbn [fst snd]. rewrite E. split; [intros e [] | reflexivity]. }
  set (shouldReveal :=
         Z.of_nat
           (List.length
              (filter (fun t => (timePerTurn room - t
                                 <=? timePerTurn room - timeRemaining room)%Z)
                      (hc_hintTimes hc)))).
  assert (E : hint_tick room
              = if (hintsRevealed room <? shouldReveal)%Z then
                  (set_hintsRevealed shouldReveal room,
                   (map (fun id =>
                           (to_socket id,
                            hint_update (generateHint (currentWord room) shouldReveal)))
                        (filter
                           (fun id => negb (String.eqb id (hc_drawerId hc))
                                      && negb (JsSet.has (correctGuessers room) id))
                           (JsMap.keys (players room)))
                    ++ [(to_spectators (code room),
                         hint_update (generateHint (currentWord room) shouldReveal))])%list)
                else (room, []))
    by (unfold hint_tick; rewrite Eh, Ea; reflexivity).
  destruct (hintsRevealed room <? shouldReveal)%Z eqn:El.
  2:{ rewrite E. cbn [fst snd]. rewrite E. split; [intros e [] | reflexivity]. }
  rewrite E. cbn [fst snd]. room_simpl.
  apply Z.ltb_lt in El. split.
  - intros e He. exists hc. split; [reflexivity|]. split; [reflexivity|].
    assert (Hle : (shouldReveal <= Z.of_nat (List.length (hc_hintTimes hc)))%Z).
    { unfold shouldReveal. apply inj_le, filter_length_le. }
    apply in_app_or in He as [He|[<-|[]]].
    + apply in_map_iff in He as [id [<- Hid]]. cbn [fst snd].
      split; [reflexivity|]. split; [lia|]. right. exists id.
      apply filter_In in Hid as [Hk Hf].
      apply andb_prop in Hf as [Hd Hg].
      apply negb_true_iff in Hd, Hg.
      split; [reflexivity|]. split; [exact Hk|].
      split; [now apply String.eqb_neq | now apply has_false_not_In].
    + cbn [fst snd]. split; [reflexivity|]. split; [lia|]. now left.
  - unfold hint_tick. room_simpl. rewrite Eh, Ea. cbn [negb].
    fold shouldReveal. now rewrite Z.ltb_irrefl.
Qed.

Lemma hint_tick_recipients_witness :
  exists hc,
    hintInterval queen_at_20 = Some hc
    /\ turnActive queen_at_20 = true
    /\ hint_update "Q _ _ _ _"
       = hint_update
           (generateHint (currentWord queen_at_20)
                         (hintsRevealed (fst (hint_tick queen_at_20))))
    /\ (hintsRevealed queen_at_20 < hintsRevealed (fst (hint_tick queen_at_20))
        <= Z.of_nat (List.length (hc_hintTimes hc)))%Z
    /\ (to_socket "A" = to_spectators (code queen_at_20)
        \/ exists id,
             to_socket "A" = to_socket id
             /\ In id (JsMap.keys (players queen_at_20))
             /\ id <> hc_drawerId hc
             /\ ~ In id (correctGuessers queen_at_20)).
Proof.
  apply (proj1 (hint_tick_recipients queen_at_20)
               (to_socket "A", hint_update "Q _ _ _ _")).
  vm_compute. left. reflexivity.
Defined.

(** ** Bounds of the points *)

Lemma chain_nth {A : Type} (le : A -> A -> bool) (d : A) (l : list A) :
  chain le l = true ->
  forall i, i + 1 < List.length l -> le (nth i l d) (nth (i + 1) l d) = true.
Proof.
  induction l as [|a l IH]; intros H i Hi; [cbn [List.length] in Hi; lia|].
  cbn [chain] in H. apply andb_prop in H as [H1 H2].
  destruct i as [|i].
  - destruct l as [|b l]; [cbn [List.length] in Hi; lia | exact H1].
  - cbn [Nat.add nth]. apply IH; [exact H2 | cbn [List.length] in Hi; lia].
Qed.

Lemma nth_map_seq {A : Type} (f : nat -> A) (d : A) (n i : nat) :
  i < n -> nth i (map f (seq 0 n)) d = f i.
Proof.
  intros Hi. rewrite (nth_indep _ d (f 0)) by (now rewrite length_map, length_seq).
  rewrite map_nth, seq_nth by exact Hi. reflexivity.
Qed.

Lemma points_row_guesser (tpt rem : Z) (c : nat) :
  c < 11 ->
  nth c (snd (points_row bonuses tpt rem)) 0%Z
  = guesserPoints (timeRatio_of rem tpt) (1 + Z.of_nat c).
Proof.
  intros Hc. unfold points_row, bonuses. cbn [snd]. rewrite map_map.
  now rewrite nth_map_seq.
Qed.

Lemma points_row_length (tpt rem : Z) :
  List.length (snd (points_row bonuses tpt rem)) = 11.
Proof.
  unfold points_row, bonuses. cbn [snd].
  now rewrite !length_map, length_seq.
Qed.

(** The bounds hold for every turn length from 15 to 90. *)
Lemma points_table : forallb (rows_ok bonuses) (seq 0 76) = true.
Proof. vm_compute. reflexivity. Qed.

(** X21.  With a turn length between 15 and 90 seconds, a correct guess
    earns the guesser between 0 and 500 points and the drawer between 50 and
    150; at the same time of the turn a later guesser never earns more than
    an earlier one; and with more time left neither the guesser nor the
    drawer earns less. *)
Theorem points_bounds :
  forall tpt rem r,
    (15 <= tpt <= 90)%Z -> (0 <= rem <= tpt)%Z -> (1 <= r <= 10)%Z ->
    let t := timeRatio_of rem tpt in
    (0 <= guesserPoints t r <= 500)%Z
    /\ (50 <= drawerPoints t <= 150)%Z
    /\ (guesserPoints t (r + 1) <= guesserPoints t r)%Z
    /\ ((rem < tpt)%Z ->
        (guesserPoints t r <= guesserPoints (timeRatio_of (rem + 1) tpt) r)%Z
        /\ (drawerPoints t <= drawerPoints (timeRatio_of (rem + 1) tpt))%Z).
Proof.
  intros tpt rem r Ht Hr Hk t.
  set (a := Z.to_nat (tpt - 15)). set (b := Z.to_nat rem).
  set (c := Z.to_nat (r - 1)).
  assert (Ea : tpt = (15 + Z.of_nat a)%Z) by lia.
  assert (Eb : rem = Z.of_nat b) by lia.
  assert (Ec : r = (1 + Z.of_nat c)%Z) by lia.
  assert (Ec1 : (r + 1)%Z = (1 + Z.of_nat (c + 1))%Z) by lia.
  assert (Hc : c + 1 < 11) by lia.
  pose proof points_table as H. rewrite forallb_forall in H.
  assert (Hin : In a (seq 0 76)) by (apply in_seq; lia).
  apply H in Hin. clear H. unfold rows_ok in Hin. cbv zeta in Hin.
  apply andb_prop in Hin as [Hrows Hchain].
  rewrite <- Ea in Hrows, Hchain.
  set (f := fun b => points_row bonuses tpt (Z.of_nat b)) in *.
  (* the row of this time *)
  rewrite forallb_forall in Hrows.
  assert (Hrow : row_ok (f b) = true).
  { apply Hrows, in_map, in_seq. lia. }
  unfold f in Hrow. rewrite <- Eb in Hrow. unfold row_ok in Hrow.
  apply andb_prop in Hrow as [Hrow Hdesc].
  apply andb_prop in Hrow as [Hrow Hall].
  apply andb_prop in Hrow as [Hd1 Hd2].
  change (fst (points_row bonuses tpt rem)) with (drawerPoints t) in Hd1, Hd2.
  apply Z.leb_le in Hd1, Hd2.
  rewrite forallb_forall in Hall.
  assert (Hg : In (guesserPoints t r) (snd (points_row bonuses tpt rem))).
  { rewrite Ec. unfold t. rewrite <- (points_row_guesser tpt rem c) by lia.
    apply nth_In. rewrite points_row_length. lia. }
  apply Hall in Hg. apply andb_prop in Hg as [Hg1 Hg2].
  apply Z.leb_le in Hg1, Hg2.
  pose proof (chain_nth _ 0%Z _ Hdesc c) as Hrank.
  rewrite points_row_length in Hrank. specialize (Hrank Hc).
  rewrite !points_row_guesser in Hrank by lia.
  rewrite <- Ec, <- Ec1 in Hrank. fold t in Hrank. apply Z.leb_le in Hrank.
  split; [lia|]. split; [lia|]. split; [exact Hrank|].
  (* the row of the next second *)
  intros Hlt.
  pose proof (chain_nth _ (f 0) _ Hchain b) as Hnext.
  rewrite length_map, length_seq in Hnext.
  assert (Hb : b + 1 < 16 + a) by lia. specialize (Hnext Hb).
  rewrite !nth_map_seq in Hnext by lia. unfold f in Hnext.
  replace (Z.of_nat (b + 1)) with (rem + 1)%Z in Hnext by lia.
  rewrite <- Eb in Hnext. unfold row_le in Hnext.
  apply andb_prop in Hnext as [Hn1 Hn2].
  change (fst (points_row bonuses tpt rem)) with (drawerPoints t) in Hn1.
  change (fst (points_row bonuses tpt (rem + 1)))
    with (drawerPoints (timeRatio_of (rem + 1) tpt)) in Hn1.
  apply Z.leb_le in Hn1.
  rewrite forallb_forall in Hn2.
  assert (Hcin : In c (seq 0 11)) by (apply in_seq; lia).
  apply Hn2 in Hcin. rewrite !points_row_guesser in Hcin by lia.
  rewrite <- Ec in Hcin. fold t in Hcin. apply Z.leb_le in Hcin.
  split; assumption.
Qed.

Lemma points_bounds_witness :
  (0 <= guesserPoints (timeRatio_of 30 40) 1 <= 500)%Z
  /\ (50 <= drawerPoints (timeRatio_of 30 40) <= 150)%Z.
Proof.
  assert (Ht : (15 <= 40 <= 90)%Z) by lia.
  assert (Hr : (0 <= 30 <= 40)%Z) by lia.
  assert (Hk : (1 <= 1 <= 10)%Z) by lia.
  destruct (points_bounds 40 30 1 Ht Hr Hk) as [H1 [H2 _]].
  split; assumption.
Defined.

(** ** Letter case and blanks in a guess *)

Lemma lower_upper (c : ascii) : JsString.lower (JsString.upper c) = JsString.lower c.
Proof. destruct c as [[] [] [] [] [] [] [] []]; reflexivity. Qed.

Lemma is_space_upper (c : ascii) :
  JsString.is_space (JsString.upper c) = JsString.is_space c.
Proof. destruct c as [[] [] [] [] [] [] [] []]; reflexivity. Qed.

Lemma drop_space_upper (l : list ascii) :
  JsString.drop_space (map JsString.upper l)
  = map JsString.upper (JsString.drop_space l).
Proof.
  induction l as [|c l IH]; [reflexivity|].
  cbn [map JsString.drop_space]. rewrite is_space_upper.
  destruct (JsString.is_space c); [exact IH | reflexivity].
Qed.

Lemma normal_upper (s : string) :
  JsString.toLowerCase (JsString.trim (JsString.toUpperCase s))
  = JsString.toLowerCase (JsString.trim s).
Proof.
  unfold JsString.toLowerCase, JsString.trim, JsString.toUpperCase.
  rewrite !chars_of_chars, drop_space_upper, <- map_rev, drop_space_upper,
    <- map_rev, map_map.
  f_equal. apply map_ext. exact lower_upper.
Qed.

Lemma drop_space_before (ws l : list ascii) :
  all_space ws -> JsString.drop_space (ws ++ l) = JsString.drop_space l.
Proof.
  induction 1 as [|c ws Hc _ IH]; [reflexivity|].
  cbn [app JsString.drop_space]. now rewrite Hc.
Qed.

Lemma drop_space_all (ws : list ascii) :
  all_space ws -> JsString.drop_space ws = [].
Proof.
  intros H. rewrite <- (app_nil_r ws). now rewrite drop_space_before.
Qed.

Lemma drop_space_after (ws l : list ascii) :
  all_space ws ->
  JsString.drop_space (rev (JsString.drop_space (l ++ ws)))
  = JsString.drop_space (rev (JsString.drop_space l)).
Proof.
  intros H. induction l as [|c l IH].
  - cbn [app]. rewrite (drop_space_all ws H). reflexivity.
  - cbn [app JsString.drop_space].
    destruct (JsString.is_space c); [exact IH|].
    change (c :: l ++ ws)%list with ((c :: l) ++ ws)%list.
    rewrite rev_app_distr. apply drop_space_before.
    unfold all_space in *. now apply Forall_rev.
Qed.

Lemma trim_blanks (before after s : string) :
  all_space (JsString.chars before) -> all_space (JsString.chars after) ->
  JsString.trim (before ++ s ++ after) = JsString.trim s.
Proof.
  intros Hb Ha. unfold JsString.trim. rewrite !chars_app.
  rewrite drop_space_before by exact Hb.
  now rewrite drop_space_after.
Qed.

Lemma handleGuess_normal (room : Room) (playerId g g' : string) :
  JsString.toLowerCase (JsString.trim g')
  = JsString.toLowerCase (JsString.trim g) ->
  fst (handleGuess room playerId g') = fst (handleGuess room playerId g).
Proof.
  intros E. unfold handleGuess. rewrite E.
  destruct (negb (turnActive room)); [reflexivity|].
  destruct (is_id (currentDrawer room) playerId); [reflexivity|].
  destruct (JsSet.has (correctGuessers room) playerId); [reflexivity|].
  destruct (JsMap.get (players room) playerId); [|reflexivity].
  destruct (String.eqb _ _); reflexivity.
Qed.



(** ** Joining and leaving a lobby *)

Lemma set_absent {V : Type} (m : JsMap.t V) (k : string) (v : V) :
  JsMap.get m k = None -> JsMap.set m k v = (m ++ [(k, v)])%list.
Proof.
  induction m as [|[k' v'] m IH]; cbn [JsMap.get JsMap.set app]; [reflexivity|].
  destruct (String.eqb k k'); [discriminate|]. intros H. now rewrite IH.
Qed.

Lemma set_present_same {V : Type} (m : JsMap.t V) (k : string) (v : V) :
  JsMap.get m k = Some v -> JsMap.set m k v = m.
Proof.
  induction m as [|[k' v'] m IH]; cbn [JsMap.get JsMap.set]; [discriminate|].
  destruct (String.eqb k k') eqn:E.
  - apply String.eqb_eq in E. intros [= ->]. now subst.
  - intros H. now rewrite IH.
Qed.

Lemma set_set {V : Type} (m : JsMap.t V) (k : string) (v v' : V) :
  JsMap.set (JsMap.set m k v) k v' = JsMap.set m k v'.
Proof.
  induction m as [|[k0 v0] m IH]; cbn [JsMap.set].
  - now rewrite String.eqb_refl.
  - destruct (String.eqb k k0) eqn:E; cbn [JsMap.set].
    + now rewrite String.eqb_refl.
    + now rewrite E, IH.
Qed.

Lemma delete_set_absent {V : Type} (m : JsMap.t V) (k : string) (v : V) :
  JsMap.get m k = None -> JsMap.delete (JsMap.set m k v) k = m.
Proof.
  unfold JsMap.delete.
  induction m as [|[k' v'] m IH]; cbn [JsMap.get JsMap.set filter fst].
  - now rewrite String.eqb_refl.
  - destruct (String.eqb k k') eqn:E; [discriminate|].
    intros H. cbn [filter fst]. rewrite E. cbn [negb]. now rewrite IH.
Qed.

Lemma filter_absent (sid : string) (l : list string) :
  ~ In sid l -> filter (fun id => negb (String.eqb id sid)) l = l.
Proof.
  induction l as [|x l IH]; [reflexivity|]. intros H. cbn [filter].
  destruct (String.eqb x sid) eqn:E.
  - apply String.eqb_eq in E. subst. exfalso. apply H. now left.
  - cbn [negb]. rewrite IH; [reflexivity|]. intros Hin. apply H. now right.
Qed.

(** X23.  Joining a lobby and leaving it again undoes itself.  When a
    connection that is no spectator joins, under any letter case of the
    code, a lobby that has players and room for one more, the new player
    comes last in the room with the score 0; and when that connection then
    disconnects, the registry of rooms is what it was before, and the
    connection is gone. *)
Theorem join_then_leave :
  forall s sid roomCode name cn room,
    JsMap.get (sockets s) sid = Some cn ->
    isSpectator cn = false ->
    JsMap.get (rooms s) (JsString.toUpperCase roomCode) = Some room ->
    state room = lobby ->
    JsMap.size (players room) < 10 ->
    players room <> [] ->
    JsMap.get (players room) sid = None ->
    ~ In sid (playerOrder room) ->
    sid <> hostId room ->
    let joined := fst (on_join_room sid roomCode name false s) in
    let gone := fst (on_disconnect sid joined) in
    (exists room1,
        JsMap.get (rooms joined) (JsString.toUpperCase roomCode) = Some room1
        /\ players room1 = (players room ++ [(sid, Player.mk name 0)])%list
        /\ room_of joined sid = Some room1)
    /\ rooms gone = rooms s
    /\ JsMap.get (sockets gone) sid = None.
Proof.
  intros s sid roomCode name cn room Hc Hsp Hr Hs Hn Hne Hp Ho Hh joined gone.
  set (cd := JsString.toUpperCase roomCode) in *.
  set (room1 := set_players
                  (JsMap.set (players room) sid (Player.mk name 0)) room).
  assert (Ej : joined
               = put_conn sid (mkConn (Some cd) false)
                   (mkServer (JsMap.set (rooms s) cd room1) (sockets s))).
  { unfold joined, on_join_room. fold cd. rewrite Hc, Hr, Hs, Hsp.
    cbn [room_state_eqb negb].
    destruct (10 <=? JsMap.size (players room))%nat eqn:E;
      [apply Nat.leb_le in E; lia | reflexivity]. }
  assert (Er : JsMap.get (rooms joined) cd = Some room1).
  { rewrite Ej. cbn [put_conn rooms]. apply get_set_same. }
  assert (Ec : JsMap.get (sockets joined) sid = Some (mkConn (Some cd) false)).
  { rewrite Ej. cbn [put_conn sockets]. apply get_set_same. }
  split.
  { exists room1. split; [exact Er|]. split.
    - unfold room1. room_simpl. now apply set_absent.
    - unfold room_of. rewrite Ec. cbn [currentRoom]. exact Er. }
  assert (Hp1 : JsMap.get (players room1) sid = Some (Player.mk name 0)).
  { unfold room1. room_simpl. apply get_set_same. }
  destruct (disconnect_in_host sid room1 (Player.mk name 0) Hp1) as [out [E _]].
  cbv zeta in E.
  assert (Ed : JsMap.delete (players room1) sid = players room).
  { unfold room1. room_simpl. now apply delete_set_absent. }
  rewrite Ed in E.
  assert (En : next_host sid room1 = None).
  { unfold next_host. rewrite Ed.
    change (hostId room1) with (hostId room).
    destruct (JsMap.keys (players room)); [reflexivity|].
    apply String.eqb_neq in Hh. now rewrite Hh. }
  rewrite En in E.
  change (state room1) with (state room) in E. rewrite Hs in E.
  cbn [room_state_eqb andb] in E.
  assert (Ee : (JsMap.size (players room) =? 0)%nat = false).
  { apply Nat.eqb_neq. unfold JsMap.size. destruct (players room);
      [contradiction | discriminate]. }
  rewrite Ee in E. cbn [andb] in E.
  change (playerOrder room1) with (playerOrder room) in E.
  rewrite (filter_absent sid _ Ho) in E.
  assert (Eroom : set_playerOrder (playerOrder room)
                    (set_players (players room) room1) = room)
    by (unfold room1; now destruct room).
  rewrite Eroom in E.
  assert (Eg : gone
               = mkServer (JsMap.set (rooms joined) cd room)
                          (JsMap.delete (sockets joined) sid)).
  { unfold gone, on_disconnect. rewrite Ec. cbn [currentRoom isSpectator].
    rewrite Er, E. reflexivity. }
  rewrite Eg. cbn [rooms sockets]. split.
  - rewrite Ej. cbn [put_conn rooms]. rewrite set_set.
    now apply set_present_same.
  - apply get_delete_same.
Qed.

Lemma join_then_leave_witness :
  rooms (fst (on_disconnect "B"
                (fst (on_join_room "B" "aaaa" "Bob" false
                        (fst (run [ connection "A";
                                    create_room "A" "Ann" None None None first_draws;
                                    connection "B" ] empty_server))))))
  = rooms (fst (run [ connection "A";
                      create_room "A" "Ann" None None None first_draws;
                      connection "B" ] empty_server)).
Proof.
  assert (Hn : JsMap.size (players fresh_room_of_ann) < 10)
    by (vm_compute; lia).
  assert (Hne : players fresh_room_of_ann <> []) by (vm_compute; discriminate).
  assert (Ho : ~ In "B" (playerOrder fresh_room_of_ann))
    by (vm_compute; intros []).
  assert (Hh : "B" <> hostId fresh_room_of_ann) by (vm_compute; discriminate).
  exact (proj1 (proj2 (join_then_leave
                         (fst (run [ connection "A";
                                     create_room "A" "Ann" None None None first_draws;
                                     connection "B" ] empty_server))
                         "B" "aaaa" "Bob" (mkConn None false) fresh_room_of_ann
                         eq_refl eq_refl eq_refl eq_refl Hn Hne eq_refl Ho Hh))).
Defined.

(** ** The canvas *)

Lemma room_of_put (s : Server) (sid : string) (cn : conn) (room : Room) :
  JsMap.get (sockets s) sid = Some cn ->
  currentRoom cn = Some (code room) ->
  room_of (put_room room s) sid = Some room.
Proof.
  intros Hc Hr. unfold room_of, put_room. cbn [sockets rooms].
  rewrite Hc, Hr. apply get_set_same.
Qed.

Lemma strokes_relayed (strokes : list stroke) :
  forall s sid cn room,
    JsMap.get (sockets s) sid = Some cn ->
    currentRoom cn = Some (code room) ->
    JsMap.get (rooms s) (code room) = Some room ->
    turnActive room = true ->
    currentDrawer room = Some sid ->
    exists s',
      run (map (draw sid) strokes) s
      = (s', map (fun d => (to_others sid (code room), draw_relay d)) strokes)
      /\ JsMap.get (sockets s') sid = Some cn
      /\ JsMap.get (rooms s') (code room)
         = Some (set_drawingData (drawingData room ++ strokes)%list room).
Proof.
  induction strokes as [|d rest IH]; intros s sid cn room Hc Hr Hg Ha Hd.
  - exists s. cbn [map run]. split; [reflexivity|]. split; [exact Hc|].
    rewrite app_nil_r, Hg. f_equal. now destruct room.
  - set (room1 := set_drawingData (drawingData room ++ [d])%list room).
    assert (E1 : on_draw sid d s
                 = (put_room room1 s, [(to_others sid (code room), draw_relay d)])).
    { unfold on_draw, room_of. rewrite Hc, Hr, Hg, Ha, Hd.
      cbn [negb is_id]. now rewrite String.eqb_refl. }
    destruct (IH (put_room room1 s) sid cn room1) as [s' [E [Hc' Hg']]];
      trivial.
    { unfold put_room. cbn [rooms]. apply get_set_same. }
    exists s'. cbn [map run step]. rewrite E1, E. cbn [app].
    split; [reflexivity|]. split; [exact Hc'|].
    change (code room1) with (code room) in Hg'. rewrite Hg'.
    unfold room1. room_simpl. now rewrite <- app_assoc.
Qed.

(** X24.  The strokes of the drawer of an active turn are kept in the order
    they come and each is relayed once, to the others of the room and not
    back to the drawer; a [clear_canvas] of the drawer then empties the
    canvas and is relayed in the same way. *)
Theorem drawer_strokes_relayed :
  forall strokes s sid cn room,
    JsMap.get (sockets s) sid = Some cn ->
    currentRoom cn = Some (code room) ->
    JsMap.get (rooms s) (code room) = Some room ->
    turnActive room = true ->
    currentDrawer room = Some sid ->
    let after := run (map (draw sid) strokes) s in
    room_of (fst after) sid
    = Some (set_drawingData (drawingData room ++ strokes)%list room)
    /\ snd after
       = map (fun d => (to_others sid (code room), draw_relay d)) strokes
    /\ room_of (fst (on_clear_canvas sid (fst after))) sid
       = Some (set_drawingData [] room)
    /\ snd (on_clear_canvas sid (fst after))
       = [(to_others sid (code room), clear_canvas_relay)].
Proof.
  intros strokes s sid cn room Hc Hr Hg Ha Hd after.
  destruct (strokes_relayed strokes s sid cn room Hc Hr Hg Ha Hd)
    as [s' [E [Hc' Hg']]].
  subst after. rewrite E. cbn [fst snd].
  assert (Hro : room_of s' sid
                = Some (set_drawingData (drawingData room ++ strokes)%list room)).
  { unfold room_of. now rewrite Hc', Hr. }
  split; [exact Hro|]. split; [reflexivity|].
  unfold on_clear_canvas. rewrite Hro. room_simpl.
  change (currentDrawer (set_drawingData (drawingData room ++ strokes)%list room))
    with (currentDrawer room).
  rewrite Ha, Hd. cbn [negb is_id]. rewrite String.eqb_refl. cbn [negb fst snd].
  split; [|reflexivity].
  now apply room_of_put with cn.
Qed.

Lemma drawer_strokes_relayed_witness :
  snd (run (map (draw "B") ["s1"; "s2"])
           (fst (run two_player_start empty_server)))
  = [ (to_others "B" "AAAA", draw_relay "s1");
      (to_others "B" "AAAA", draw_relay "s2") ].
Proof.
  assert (Hc : JsMap.get (sockets (fst (run two_player_start empty_server))) "B"
               = Some (mkConn (Some "AAAA") false)) by (vm_compute; reflexivity).
  assert (Hr : currentRoom (mkConn (Some "AAAA") false)
               = Some (code (first_turn_with (mkDraw 0 0))))
    by (vm_compute; reflexivity).
  assert (Hg : JsMap.get (rooms (fst (run two_player_start empty_server)))
                         (code (first_turn_with (mkDraw 0 0)))
               = Some (first_turn_with (mkDraw 0 0))) by (vm_compute; reflexivity).
  assert (Ha : turnActive (first_turn_with (mkDraw 0 0)) = true)
    by (vm_compute; reflexivity).
  assert (Hd : currentDrawer (first_turn_with (mkDraw 0 0)) = Some "B")
    by (vm_compute; reflexivity).
  destruct (drawer_strokes_relayed ["s1"; "s2"]
              (fst (run two_player_start empty_server))
              "B" (mkConn (Some "AAAA") false) (first_turn_with (mkDraw 0 0))
              Hc Hr Hg Ha Hd) as [_ [H2 _]].
  rewrite H2. vm_compute. reflexivity.
Defined.
